(** * Are You Safe? -- check-in lifecycle and escalation engine

    A shallow embedding of the serverless backend:
    - [services/twilio.ts]   retry backoff ([calculateNextRetry]);
    - [utils/crypto.ts]      the hex coding ([bytesToHex], [hexToBytes]);
    - [routes/checkin.ts]    the confirm and snooze actions and the query
                             for the current check-in;
    - [routes/settings.ts]   the pause action, the pause query and the
                             schedule update;
    - [cron/scheduler.ts]    the scheduler scan, the escalation scan,
                             [triggerEscalation] and the retry manager
                             ([handleRetries]);
    - [migrations/0001_init.sql]  the two secondary unique indexes.

    Modelling conventions.
    - A TEXT timestamp column that the server fills holds what
      [Date.toISOString] writes; for such strings the lexicographic order
      used by SQLite is the chronological one ([toISOString_compare]), so
      such a timestamp is the integer number of milliseconds since the
      epoch and the worker runs in UTC.  The timestamps of a confirm or
      snooze body are taken in that form too.
    - [users.pause_until] is the exception: the pause route binds the text
      of the request as it came, so the column is a string, read as a date
      by [new Date] in the routes and compared byte by byte with
      [now.toISOString()] in the two scans.
    - A table is the list of its rows in insertion order; [first()] is the
      first row of the list that passes the WHERE clause.
    - One invocation of a handler reads the clock once: every [new Date()]
      inside it yields the [now] given to the handler.
    - [crypto.randomUUID] is a sequence of the environment; the primary keys
      it fills are not checked on insert, the secondary unique indexes are.
    - A JavaScript exception is the [Thrown] outcome; it keeps the writes
      made before it, as D1 has no transaction around a handler. *)

From Stdlib Require Import ZArith List Ascii String Bool Lia Relations RelationClasses.
From Stdlib Require Import Permutation.
From Stdlib.Strings Require Byte.
Import ListNotations.
Local Open Scope Z_scope.

(** ** Time *)

Definition Timestamp := Z.

Definition MS_PER_MINUTE : Z := 60 * 1000.
Definition MS_PER_DAY : Z := 24 * 60 * MS_PER_MINUTE.

(** A wall-clock time of day, the parsed form of an "HH:MM" string. *)
Record HHMM := { hh : Z; mm : Z }.

Definition minutesOf (t : HHMM) : Z := hh t * 60 + mm t.

(** [d.setHours(0, 0, 0, 0)] *)
Definition startOfDay (t : Timestamp) : Timestamp := t - t mod MS_PER_DAY.

(** [d.setHours(h, m, 0, 0)]; out-of-range fields carry over as in JS. *)
Definition setHours (t : Timestamp) (h m : Z) : Timestamp :=
  startOfDay t + (h * 60 + m) * MS_PER_MINUTE.

(** [d.toTimeString().substring(0, 5)], split at the colon. *)
Definition toTimeString (t : Timestamp) : HHMM :=
  let minuteOfDay := (t mod MS_PER_DAY) / MS_PER_MINUTE in
  {| hh := minuteOfDay / 60; mm := minuteOfDay mod 60 |}.

(** [iso LIKE '%T' || slot || '%'] for a two-digit "HH:MM" slot: the ISO
    string has one 'T', followed by the hour and minute. *)
Definition likeTimeOfDay (t : Timestamp) (slot : HHMM) : bool :=
  (hh (toTimeString t) =? hh slot) && (mm (toTimeString t) =? mm slot).

(** A date of the proleptic Gregorian calendar. *)
Record CivilDate := { cd_year : Z; cd_month : Z; cd_day : Z }.

Definition isLeapYear (y : Z) : bool :=
  (y mod 4 =? 0) && (negb (y mod 100 =? 0) || (y mod 400 =? 0)).

Definition daysInMonth (y m : Z) : Z :=
  if m =? 2 then (if isLeapYear y then 29 else 28)
  else if (m =? 4) || (m =? 6) || (m =? 9) || (m =? 11) then 30
  else 31.

Definition nextDay (c : CivilDate) : CivilDate :=
  if cd_day c <? daysInMonth (cd_year c) (cd_month c)
  then {| cd_year := cd_year c; cd_month := cd_month c;
          cd_day := cd_day c + 1 |}
  else if cd_month c <? 12
  then {| cd_year := cd_year c; cd_month := cd_month c + 1; cd_day := 1 |}
  else {| cd_year := cd_year c + 1; cd_month := 1; cd_day := 1 |}.

Definition epochDay : CivilDate :=
  {| cd_year := 1970; cd_month := 1; cd_day := 1 |}.

(** The date that lies [days] days after 1970-01-01. *)
Definition civilFromDays (days : Z) : CivilDate := Z.iter days nextDay epochDay.

Definition digitChar (n : Z) : ascii := ascii_of_N (48 + Z.to_N n).

(** Decimal fields of fixed width, each written in front of [rest]. *)
Definition pad2 (n : Z) (rest : string) : string :=
  String (digitChar (n / 10)) (String (digitChar (n mod 10)) rest).

Definition pad3 (n : Z) (rest : string) : string :=
  String (digitChar (n / 100)) (pad2 (n mod 100) rest).

Definition pad4 (n : Z) (rest : string) : string :=
  String (digitChar (n / 1000)) (pad3 (n mod 1000) rest).

(** "YYYY-MM-DD" *)
Definition dateText (date : CivilDate) (rest : string) : string :=
  pad4 (cd_year date)
    (String "-" (pad2 (cd_month date) (String "-" (pad2 (cd_day date) rest)))).

(** "HH:MM:SS" *)
Definition secondText (secondOfDay : Z) (rest : string) : string :=
  pad2 (secondOfDay / 3600)
    (String ":" (pad2 (secondOfDay mod 3600 / 60)
       (String ":" (pad2 (secondOfDay mod 60) rest)))).

(** "HH:MM:SS.sssZ" *)
Definition timeText (msOfDay : Z) : string :=
  secondText (msOfDay / 1000) (String "." (pad3 (msOfDay mod 1000) "Z")).

(** [d.toISOString()], "YYYY-MM-DDTHH:MM:SS.sssZ", for a date from 1970 to
    9999; outside these years JavaScript writes a sign and six digits. *)
Definition toISOString (t : Timestamp) : string :=
  dateText (civilFromDays (t / MS_PER_DAY)) (String "T" (timeText (t mod MS_PER_DAY))).

(** The first instant [toISOString] does not write with a four-digit year:
    +010000-01-01T00:00:00.000Z. *)
Definition END_OF_9999 : Timestamp := 253402300800000.

(** ** services/twilio.ts *)

Module Twilio.

Definition Math_pow (base : Z) (exponent : nat) : Z := base ^ Z.of_nat exponent.

Definition maxDelayMinutes : Z := 30.

Definition actualDelay (retryCount : nat) : Z :=
  let delayMinutes := Math_pow 2 retryCount in
  Z.min delayMinutes maxDelayMinutes.

(** [calculateNextRetry]: [nextRetry.setMinutes(getMinutes() + actualDelay)]. *)
Definition calculateNextRetry (now : Timestamp) (retryCount : nat) : Timestamp :=
  now + actualDelay retryCount * MS_PER_MINUTE.

Record SendSMSResult := {
  success : bool;
  sid : option string;
  status : option string;
  errorMessage : option string
}.

End Twilio.

(** ** utils/crypto.ts: the hex coding of ciphertexts and tokens *)

Module Crypto.

(** The value of a hexadecimal digit, in either case, as [parseInt] reads
    it. *)
Definition hexValue (c : ascii) : option N :=
  let n := N_of_ascii c in
  if (48 <=? n)%N && (n <=? 57)%N then Some (n - 48)%N
  else if (97 <=? n)%N && (n <=? 102)%N then Some (n - 87)%N
  else if (65 <=? n)%N && (n <=? 70)%N then Some (n - 55)%N
  else None.

(** The digit [n.toString(16)] writes for [n < 16]. *)
Definition hexDigit (n : N) : ascii :=
  if (n <? 10)%N then ascii_of_N (48 + n) else ascii_of_N (87 + n).

(** [b.toString(16)] for an element of a [Uint8Array]. *)
Definition toString16 (b : N) : string :=
  if (b <? 16)%N then String (hexDigit b) EmptyString
  else String (hexDigit (b / 16)) (String (hexDigit (b mod 16)) EmptyString).

(** [s.padStart(2, '0')] *)
Definition padStart2 (s : string) : string :=
  match s with
  | EmptyString => "00"
  | String c EmptyString => String "0" s
  | _ => s
  end.

(** [Array.from(bytes).map(b => b.toString(16).padStart(2, '0')).join('')] *)
Definition bytesToHex (bytes : list Byte.byte) : string :=
  String.concat EmptyString
    (map (fun b => padStart2 (toString16 (Byte.to_N b))) bytes).

(** [parseInt(s, 16)] for [s = hex.substr(i, 2)], one or two characters.
    [None] stands for a string with a character that is no hexadecimal
    digit, which this model does not follow further. *)
Definition parseInt16 (s : string) : option N :=
  match s with
  | String a EmptyString => hexValue a
  | String a (String b EmptyString) =>
      match hexValue a, hexValue b with
      | Some x, Some y => Some (16 * x + y)%N
      | _, _ => None
      end
  | _ => None
  end.

(** The pieces [hex.substr(i, 2)] for [i = 0, 2, 4, ...] below the length. *)
Fixpoint substr2 (hex : string) : list string :=
  match hex with
  | EmptyString => []
  | String a EmptyString => [hex]
  | String a (String b rest) =>
      String a (String b EmptyString) :: substr2 rest
  end.

(** The element a [Uint8Array] keeps of an assigned integer. *)
Definition toUint8 (v : N) : Byte.byte :=
  match Byte.of_N (v mod 256) with
  | Some b => b
  | None => Byte.x00
  end.

Fixpoint allSome {A} (l : list (option A)) : option (list A) :=
  match l with
  | [] => Some []
  | Some x :: rest => option_map (cons x) (allSome rest)
  | None :: _ => None
  end.

(** [hexToBytes]: the array has [hex.length / 2] elements, truncated, so
    the assignment for a trailing odd character falls outside of it. *)
Definition hexToBytes (hex : string) : option (list Byte.byte) :=
  option_map
    (fun values => firstn (String.length hex / 2)%nat (map toUint8 values))
    (allSome (map parseInt16 (substr2 hex))).

End Crypto.

(** ** types.ts and the schema *)

Inductive CheckinStatus :=
  pending | confirmed | missed | snoozed | alerted | paused.

Definition CheckinStatus_eqb (a b : CheckinStatus) : bool :=
  match a, b with
  | pending, pending | confirmed, confirmed | missed, missed
  | snoozed, snoozed | alerted, alerted | paused, paused => true
  | _, _ => false
  end.

Inductive DeliveryStatus := d_pending | d_sent | d_delivered | d_failed.

Inductive Channel := sms | push.

Definition Channel_eqb (a b : Channel) : bool :=
  match a, b with
  | sms, sms | push, push => true
  | _, _ => false
  end.

(** The columns the core reads; [checkin_times] is the parsed JSON array.
    [pause_until] is the text the pause route bound, as the client wrote
    it. *)
Record User := {
  u_user_id : string;
  u_name : string;
  u_checkin_times : list HHMM;
  u_grace_minutes : Z;
  u_sms_alerts_enabled : Z;
  u_pause_until : option string;
  u_apns_token : option string
}.

Record Contact := {
  c_contact_id : string;
  c_user_id : string;
  c_phone_enc : string;
  c_level : Z;
  c_has_app : Z;
  c_apns_token : option string
}.

Record CheckinEvent := {
  event_id : string;
  user_id : string;
  scheduled_time : Timestamp;
  deadline_time : Timestamp;
  status : CheckinStatus;
  confirmed_at : option Timestamp;
  snoozed_until : option Timestamp;
  snooze_count : Z;
  escalated_at : option Timestamp;
  escalation_level : Z;
  level2_escalated_at : option Timestamp;
  created_at : Timestamp;
  updated_at : Timestamp
}.

Record AlertDelivery := {
  delivery_id : string;
  d_event_id : string;
  d_contact_id : string;
  channel : Channel;
  d_status : DeliveryStatus;
  provider_ref : option string;
  provider_status : option string;
  error_message : option string;
  retry_count : nat;
  max_retries : nat;
  next_retry_at : option Timestamp;
  sent_at : option Timestamp;
  d_created_at : Timestamp;
  d_updated_at : Timestamp
}.

(** The [details] JSON blob of a log row is not modelled. *)
Record EventLog := {
  log_id : string;
  l_user_id : string;
  l_event_id : option string;
  event_type : string;
  event_time : Timestamp;
  result : string
}.

Record DB := {
  users : list User;
  contacts : list Contact;
  checkin_events : list CheckinEvent;
  alert_deliveries : list AlertDelivery;
  event_logs : list EventLog
}.

(** The store together with the number of UUIDs drawn so far. *)
Record World := { db : DB; drawn : nat }.

(** ** Collaborators reached through [env] *)

Inductive PushOutcome := PushReturned (ok : bool) | PushThrew.

(** [parseDate s] is [new Date(s).getTime()], with [None] for the NaN of an
    Invalid Date. *)
Record Env := {
  randomUUID : nat -> string;
  parseDate : string -> option Timestamp;
  sendContactAlert : Contact -> PushOutcome;
  sendCheckinReminder : User -> PushOutcome;
  decrypt : string -> option string;
  sendSMS : string -> string -> Twilio.SendSMSResult;
  generateAlertMessage : string -> Timestamp -> string
}.

(** ** Effects: state and exceptions *)

Inductive Outcome (A : Type) :=
| Returned (a : A) (w : World)
| Thrown (message : string) (w : World).
Arguments Returned {A} a w.
Arguments Thrown {A} message w.

Definition Eff (A : Type) := World -> Outcome A.

Definition ret {A} (a : A) : Eff A := fun w => Returned a w.

Definition throw {A} (message : string) : Eff A := fun w => Thrown message w.

Definition bind {A B} (m : Eff A) (k : A -> Eff B) : Eff B :=
  fun w => match m w with
           | Returned a w' => k a w'
           | Thrown e w' => Thrown e w'
           end.

Definition try_catch {A} (body : Eff A) (handler : string -> Eff A) : Eff A :=
  fun w => match body w with
           | Returned a w' => Returned a w'
           | Thrown e w' => handler e w'
           end.

Definition getDB : Eff DB := fun w => Returned (db w) w.

Definition putDB (d : DB) : Eff unit :=
  fun w => Returned tt {| db := d; drawn := drawn w |}.

Notation "x <- m ;; k" := (bind m (fun x => k))
  (at level 61, m at next level, right associativity).
Notation "m ;;; k" := (bind m (fun _ => k))
  (at level 61, right associativity).

Definition worldOf {A} (o : Outcome A) : World :=
  match o with Returned _ w => w | Thrown _ w => w end.

Definition generateUUID (env : Env) : Eff string :=
  fun w => Returned (randomUUID env (drawn w))
                    {| db := db w; drawn := S (drawn w) |}.

(** ** Store operations *)

Definition withEvents (d : DB) (evs : list CheckinEvent) : DB :=
  {| users := users d; contacts := contacts d; checkin_events := evs;
     alert_deliveries := alert_deliveries d; event_logs := event_logs d |}.

Definition withUsers (d : DB) (us : list User) : DB :=
  {| users := us; contacts := contacts d; checkin_events := checkin_events d;
     alert_deliveries := alert_deliveries d; event_logs := event_logs d |}.

Definition withDeliveries (d : DB) (ds : list AlertDelivery) : DB :=
  {| users := users d; contacts := contacts d; checkin_events := checkin_events d;
     alert_deliveries := ds; event_logs := event_logs d |}.

Definition withLogs (d : DB) (ls : list EventLog) : DB :=
  {| users := users d; contacts := contacts d; checkin_events := checkin_events d;
     alert_deliveries := alert_deliveries d; event_logs := ls |}.

(** [UPDATE checkin_events SET ... WHERE <p>] *)
Definition updateEvents (p : CheckinEvent -> bool)
    (f : CheckinEvent -> CheckinEvent) : Eff unit :=
  d <- getDB ;;
  putDB (withEvents d (map (fun e => if p e then f e else e) (checkin_events d))).

(** [idx_events_user_scheduled]: UNIQUE (user_id, scheduled_time). *)
Definition idx_events_user_scheduled (evs : list CheckinEvent)
    (e : CheckinEvent) : bool :=
  existsb (fun x => (user_id x =? user_id e)%string
                    && (scheduled_time x =? scheduled_time e)) evs.

Definition insertEvent (e : CheckinEvent) : Eff unit :=
  d <- getDB ;;
  if idx_events_user_scheduled (checkin_events d) e
  then throw "UNIQUE constraint failed: checkin_events.user_id, checkin_events.scheduled_time"
  else putDB (withEvents d (checkin_events d ++ [e])).

(** [idx_deliveries_event_contact]: UNIQUE (event_id, contact_id, channel). *)
Definition idx_deliveries_event_contact (ds : list AlertDelivery)
    (x : AlertDelivery) : bool :=
  existsb (fun y => (d_event_id y =? d_event_id x)%string
                    && (d_contact_id y =? d_contact_id x)%string
                    && Channel_eqb (channel y) (channel x)) ds.

Definition insertDelivery (x : AlertDelivery) : Eff unit :=
  d <- getDB ;;
  if idx_deliveries_event_contact (alert_deliveries d) x
  then throw "UNIQUE constraint failed: alert_deliveries.event_id, alert_deliveries.contact_id, alert_deliveries.channel"
  else putDB (withDeliveries d (alert_deliveries d ++ [x])).

(** The columns of [idx_deliveries_event_contact]. *)
Definition keyOf (x : AlertDelivery) : string * string * Channel :=
  (d_event_id x, d_contact_id x, channel x).

(** [UPDATE alert_deliveries SET ... WHERE delivery_id = ?] *)
Definition updateDelivery (id : string)
    (f : AlertDelivery -> AlertDelivery) : Eff unit :=
  d <- getDB ;;
  putDB (withDeliveries d
           (map (fun x => if (delivery_id x =? id)%string then f x else x)
                (alert_deliveries d))).

(** [logEvent], the helper each route file repeats. *)
Definition logEvent (env : Env) (userId : string) (eventId : option string)
    (eventType : string) (eventTime : Timestamp) (res : string) : Eff unit :=
  logId <- generateUUID env ;;
  d <- getDB ;;
  putDB (withLogs d (event_logs d ++
    [{| log_id := logId; l_user_id := userId; l_event_id := eventId;
        event_type := eventType; event_time := eventTime; result := res |}])).

(** JavaScript truthiness of an optional string field: the value when it is
    present and not empty. *)
Definition truthy (s : option string) : option string :=
  match s with
  | Some EmptyString => None
  | Some v => Some v
  | None => None
  end.

(** [ORDER BY scheduled_time DESC LIMIT 1]; the earlier row wins a tie. *)
Fixpoint mostRecent (evs : list CheckinEvent) : option CheckinEvent :=
  match evs with
  | [] => None
  | e :: rest =>
      match mostRecent rest with
      | Some e' => if scheduled_time e <? scheduled_time e' then Some e' else Some e
      | None => Some e
      end
  end.

Definition isOpen (s : CheckinStatus) : bool :=
  match s with
  | pending | snoozed => true
  | _ => false
  end.

Inductive Response (A : Type) :=
| Json (body : A)
| JsonError (code : Z) (error : string).
Arguments Json {A} body.
Arguments JsonError {A} code error.

(** ** routes/checkin.ts *)

Module Checkin.

(** A timestamp field is [None] when the body has none or an empty one. *)
Record ConfirmRequest := {
  cr_event_id : option string;
  cr_scheduled_at : option Timestamp;
  cr_confirmed_at : option Timestamp
}.

Record ConfirmResponse := {
  r_event_id : string;
  r_status : CheckinStatus;
  r_confirmed_at : option Timestamp;
  was_escalated : bool;
  message : option string
}.

(** The three lookups of the confirm route, chosen by the fields present. *)
Definition findEvent (d : DB) (user : User) (body : ConfirmRequest)
    : option CheckinEvent :=
  match truthy (cr_event_id body) with
  | Some id =>
      find (fun e => (event_id e =? id)%string
                     && (user_id e =? u_user_id user)%string)
           (checkin_events d)
  | None =>
      match cr_scheduled_at body with
      | Some at_ =>
          find (fun e => (user_id e =? u_user_id user)%string
                         && (scheduled_time e =? at_))
               (checkin_events d)
      | None =>
          mostRecent
            (filter (fun e => (user_id e =? u_user_id user)%string
                              && isOpen (status e))
                    (checkin_events d))
      end
  end.

(** [SET status = 'confirmed', confirmed_at = ?, updated_at = ?] *)
Definition setConfirmed (confirmedAt now : Timestamp) (e : CheckinEvent)
    : CheckinEvent :=
  {| event_id := event_id e; user_id := user_id e;
     scheduled_time := scheduled_time e; deadline_time := deadline_time e;
     status := confirmed; confirmed_at := Some confirmedAt;
     snoozed_until := snoozed_until e; snooze_count := snooze_count e;
     escalated_at := escalated_at e; escalation_level := escalation_level e;
     level2_escalated_at := level2_escalated_at e;
     created_at := created_at e; updated_at := now |}.

(** The row a confirm without a matching event inserts. *)
Definition synthesized (eventId userId : string)
    (scheduledTime confirmedAt now : Timestamp) : CheckinEvent :=
  {| event_id := eventId; user_id := userId;
     scheduled_time := scheduledTime; deadline_time := scheduledTime;
     status := confirmed; confirmed_at := Some confirmedAt;
     snoozed_until := None; snooze_count := 0;
     escalated_at := None; escalation_level := 0;
     level2_escalated_at := None;
     created_at := now; updated_at := now |}.

(** [POST /api/checkin/confirm] for an authenticated [user]. *)
Definition confirm (env : Env) (now : Timestamp) (user : User)
    (body : ConfirmRequest) : Eff (Response ConfirmResponse) :=
  try_catch
    (let confirmedAt :=
       match cr_confirmed_at body with Some t => t | None => now end in
     d <- getDB ;;
     match findEvent d user body with
     | None =>
         eventId <- generateUUID env ;;
         let scheduledTime :=
           match cr_scheduled_at body with Some t => t | None => now end in
         insertEvent (synthesized eventId (u_user_id user) scheduledTime
                                  confirmedAt now) ;;;
         logEvent env (u_user_id user) (Some eventId) "checkin_confirmed"
                  confirmedAt "ok" ;;;
         ret (Json {| r_event_id := eventId; r_status := confirmed;
                      r_confirmed_at := Some confirmedAt;
                      was_escalated := false;
                      message := Some "Check-in confirmed (new event created)"%string |})
     | Some event =>
         match status event with
         | confirmed =>
             ret (Json {| r_event_id := event_id event; r_status := confirmed;
                          r_confirmed_at := confirmed_at event;
                          was_escalated := false;
                          message := Some "Already confirmed"%string |})
         | alerted =>
             updateEvents (fun e => (event_id e =? event_id event)%string)
                          (setConfirmed confirmedAt now) ;;;
             logEvent env (u_user_id user) (Some (event_id event))
                      "checkin_confirmed_late" confirmedAt "ok" ;;;
             ret (Json {| r_event_id := event_id event; r_status := confirmed;
                          r_confirmed_at := Some confirmedAt;
                          was_escalated := true;
                          message := Some "Confirmed, but alerts were already sent to your contacts. Please let them know you are safe."%string |})
         | _ =>
             updateEvents (fun e => (event_id e =? event_id event)%string)
                          (setConfirmed confirmedAt now) ;;;
             logEvent env (u_user_id user) (Some (event_id event))
                      "checkin_confirmed" confirmedAt "ok" ;;;
             ret (Json {| r_event_id := event_id event; r_status := confirmed;
                          r_confirmed_at := Some confirmedAt;
                          was_escalated := false;
                          message := None |})
         end
     end)
    (fun _ => ret (JsonError 500 "Confirmation failed")).

Record SnoozeRequest := {
  sr_event_id : option string;
  sr_snooze_minutes : option Z
}.

Record SnoozeResponse := {
  s_event_id : string;
  s_status : CheckinStatus;
  s_snoozed_until : Timestamp;
  original_deadline : Timestamp;
  new_deadline : Timestamp
}.

(** [body.snooze_minutes || 10] *)
Definition snoozeMinutesOf (body : SnoozeRequest) : Z :=
  match sr_snooze_minutes body with
  | Some 0 | None => 10
  | Some m => m
  end.

Definition snoozeMenu : list Z := [5; 10; 15; 30].

(** [[5, 10, 15, 30].includes(m)] *)
Definition includes (l : list Z) (m : Z) : bool := existsb (Z.eqb m) l.

(** [SET status = 'snoozed', snoozed_until = ?, deadline_time = ?,
     snooze_count = snooze_count + 1, updated_at = ?] *)
Definition setSnoozed (snoozedUntil now : Timestamp) (e : CheckinEvent)
    : CheckinEvent :=
  {| event_id := event_id e; user_id := user_id e;
     scheduled_time := scheduled_time e; deadline_time := snoozedUntil;
     status := snoozed; confirmed_at := confirmed_at e;
     snoozed_until := Some snoozedUntil; snooze_count := snooze_count e + 1;
     escalated_at := escalated_at e; escalation_level := escalation_level e;
     level2_escalated_at := level2_escalated_at e;
     created_at := created_at e; updated_at := now |}.

(** [POST /api/checkin/snooze] for an authenticated [user]. *)
Definition snooze (env : Env) (now : Timestamp) (user : User)
    (body : SnoozeRequest) : Eff (Response SnoozeResponse) :=
  try_catch
    (match truthy (sr_event_id body) with
     | None => ret (JsonError 400 "event_id is required")
     | Some id =>
         let snoozeMinutes := snoozeMinutesOf body in
         if negb (includes snoozeMenu snoozeMinutes)
         then ret (JsonError 400 "snooze_minutes must be 5, 10, 15, or 30")
         else
           d <- getDB ;;
           match find (fun e => (event_id e =? id)%string
                                && (user_id e =? u_user_id user)%string)
                      (checkin_events d) with
           | None => ret (JsonError 404 "Event not found")
           | Some event =>
               if snooze_count event >=? 1
               then ret (JsonError 400 "Already snoozed")
               else if negb (isOpen (status event))
               then ret (JsonError 400 "Cannot snooze")
               else
                 let newDeadline :=
                   deadline_time event + snoozeMinutes * 60 * 1000 in
                 let snoozedUntil := newDeadline in
                 updateEvents (fun e => (event_id e =? event_id event)%string)
                              (setSnoozed snoozedUntil now) ;;;
                 logEvent env (u_user_id user) (Some (event_id event))
                          "checkin_snoozed" now "ok" ;;;
                 ret (Json {| s_event_id := event_id event;
                              s_status := snoozed;
                              s_snoozed_until := snoozedUntil;
                              original_deadline := deadline_time event;
                              new_deadline := snoozedUntil |})
           end
     end)
    (fun _ => ret (JsonError 500 "Snooze failed")).

(** The columns of the event that [GET /api/checkin/current] returns. *)
Record CurrentEvent := {
  ce_event_id : string;
  ce_scheduled_time : Timestamp;
  ce_deadline_time : Timestamp;
  ce_status : CheckinStatus;
  ce_snooze_count : Z;
  ce_snoozed_until : option Timestamp
}.

Record CurrentResponse := {
  has_pending : bool;
  current_event : option CurrentEvent
}.

(** [GET /api/checkin/current] for an authenticated [user]. *)
Definition current (user : User) : Eff (Response CurrentResponse) :=
  try_catch
    (d <- getDB ;;
     match mostRecent
             (filter (fun e => (user_id e =? u_user_id user)%string
                               && isOpen (status e))
                     (checkin_events d)) with
     | None => ret (Json {| has_pending := false; current_event := None |})
     | Some event =>
         ret (Json {| has_pending := true;
                      current_event :=
                        Some {| ce_event_id := event_id event;
                                ce_scheduled_time := scheduled_time event;
                                ce_deadline_time := deadline_time event;
                                ce_status := status event;
                                ce_snooze_count := snooze_count event;
                                ce_snoozed_until := snoozed_until event |} |})
     end)
    (fun _ => ret (JsonError 500 "Failed to get current check-in")).

End Checkin.

(** ** routes/settings.ts *)

Module Settings.

(** The body of the request; [pause_until] is a string or null. *)
Record PauseRequest := { pause_until : option string }.

Record PauseResponse := { paused_flag : bool; r_pause_until : option string }.

(** [UPDATE users SET pause_until = ? WHERE user_id = ?] *)
Definition setPauseUntil (p : option string) (u : User) : User :=
  {| u_user_id := u_user_id u; u_name := u_name u;
     u_checkin_times := u_checkin_times u;
     u_grace_minutes := u_grace_minutes u;
     u_sms_alerts_enabled := u_sms_alerts_enabled u;
     u_pause_until := p; u_apns_token := u_apns_token u |}.

Definition updateUsers (p : User -> bool) (f : User -> User) : Eff unit :=
  d <- getDB ;;
  putDB (withUsers d (map (fun u => if p u then f u else u) (users d))).

(** [SET status = 'paused', updated_at = ?] *)
Definition setPaused (now : Timestamp) (e : CheckinEvent) : CheckinEvent :=
  {| event_id := event_id e; user_id := user_id e;
     scheduled_time := scheduled_time e; deadline_time := deadline_time e;
     status := paused; confirmed_at := confirmed_at e;
     snoozed_until := snoozed_until e; snooze_count := snooze_count e;
     escalated_at := escalated_at e; escalation_level := escalation_level e;
     level2_escalated_at := level2_escalated_at e;
     created_at := created_at e; updated_at := now |}.

(** The validation of a truthy [body.pause_until]: the error it answers
    with, if any.  [pauseDate <= new Date()] compares instants. *)
Definition validatePause (env : Env) (now : Timestamp) (text : string)
    : option string :=
  match parseDate env text with
  | None => Some "Invalid pause_until date format"%string
  | Some pauseDate =>
      if pauseDate <=? now
      then Some "pause_until must be in the future"%string
      else None
  end.

(** [POST /api/settings/pause] for an authenticated [user].  The UPDATE of
    the user binds [body.pause_until] itself, not the date read from it. *)
Definition pause (env : Env) (now : Timestamp) (user : User)
    (body : PauseRequest) : Eff (Response PauseResponse) :=
  try_catch
    (match match truthy (pause_until body) with
           | Some text => validatePause env now text
           | None => None
           end with
     | Some error => ret (JsonError 400 error)
     | None =>
         updateUsers (fun u => (u_user_id u =? u_user_id user)%string)
                     (setPauseUntil (pause_until body)) ;;;
         match truthy (pause_until body) with
         | Some text =>
             updateEvents (fun e => (user_id e =? u_user_id user)%string
                                    && isOpen (status e))
                          (setPaused now) ;;;
             logEvent env (u_user_id user) None "monitoring_paused" now "ok" ;;;
             ret (Json {| paused_flag := true; r_pause_until := Some text |})
         | None =>
             logEvent env (u_user_id user) None "monitoring_resumed" now "ok" ;;;
             ret (Json {| paused_flag := false; r_pause_until := None |})
         end
     end)
    (fun _ => ret (JsonError 500 "Pause operation failed")).

(** What [user.pause_until && new Date(user.pause_until) > new Date()]
    evaluates to: the left operand when it is falsy (null or the empty
    text), the comparison of the two instants otherwise; an Invalid Date
    compares false. *)
Inductive PausedField := PausedNull | PausedEmpty | PausedIs (b : bool).

Definition isPaused (env : Env) (now : Timestamp) (user : User) : PausedField :=
  match u_pause_until user with
  | None => PausedNull
  | Some EmptyString => PausedEmpty
  | Some text =>
      PausedIs match parseDate env text with
               | Some pauseDate => now <? pauseDate
               | None => false
               end
  end.

(** The answer of [GET /api/settings/pause]. *)
Record PauseStatus := {
  ps_paused : PausedField;
  ps_pause_until : option string
}.

(** [GET /api/settings/pause] for an authenticated [user]; it reads the
    row the authentication found and nothing else. *)
Definition pauseStatus (env : Env) (now : Timestamp) (user : User)
    : Response PauseStatus :=
  Json {| ps_paused := isPaused env now user;
          ps_pause_until :=
            match isPaused env now user with
            | PausedIs true => u_pause_until user
            | _ => None
            end |}.

(** [lo <= c <= hi], a character class [[lo-hi]]. *)
Definition inClass (lo hi c : ascii) : bool :=
  (Ascii.leb lo c && Ascii.leb c hi)%bool.

(** [/^([01]\d|2[0-3]):([0-5]\d)$/.test(s)] *)
Definition timeRegex (s : string) : bool :=
  match s with
  | String h1 (String h2 (String colon (String m1 (String m2 EmptyString)))) =>
      ((inClass "0" "1" h1 && inClass "0" "9" h2)
       || (Ascii.eqb h1 "2" && inClass "0" "3" h2))
      && Ascii.eqb colon ":"
      && inClass "0" "5" m1 && inClass "0" "9" m2
  | _ => false
  end.

(** [s.split(':')] *)
Fixpoint splitColon (s : string) : list string :=
  match s with
  | EmptyString => [EmptyString]
  | String c rest =>
      if Ascii.eqb c ":" then EmptyString :: splitColon rest
      else match splitColon rest with
           | field :: fields => String c field :: fields
           | [] => [String c EmptyString]
           end
  end.

(** [Number(s)] for a string of decimal digits, read left to right. *)
Fixpoint NumberFrom (acc : Z) (s : string) : Z :=
  match s with
  | EmptyString => acc
  | String c rest => NumberFrom (acc * 10 + (Z.of_N (N_of_ascii c) - 48)) rest
  end.

Definition Number (s : string) : Z := NumberFrom 0 s.

(** [const [hours, minutes] = timeStr.split(':').map(Number)], the reading
    the scheduler makes of a stored time; the schedule route stores only
    strings of two digit fields, for which this is what JavaScript
    computes. *)
Definition parseTime (timeStr : string) : HHMM :=
  let fields := map Number (splitColon timeStr) in
  {| hh := nth 0 fields 0; mm := nth 1 fields 0 |}.

(** A missing or non-array [times] is the empty list; [sq_grace_minutes] is
    [None] when the body has no such field. *)
Record ScheduleRequest := {
  sq_times : list string;
  sq_grace_minutes : option Z
}.

Record ScheduleResponse := {
  sp_success : bool;
  sp_checkin_times : list string;
  sp_grace_minutes : Z
}.

(** [UPDATE users SET checkin_times = ?, updated_at = ? (, grace_minutes = ?)] *)
Definition setSchedule (times : list string) (grace : option Z) (u : User)
    : User :=
  {| u_user_id := u_user_id u; u_name := u_name u;
     u_checkin_times := map parseTime times;
     u_grace_minutes :=
       match grace with Some g => g | None => u_grace_minutes u end;
     u_sms_alerts_enabled := u_sms_alerts_enabled u;
     u_pause_until := u_pause_until u; u_apns_token := u_apns_token u |}.

(** [POST /api/settings/schedule] for an authenticated [user]. *)
Definition schedule (user : User) (body : ScheduleRequest)
    : Eff (Response ScheduleResponse) :=
  try_catch
    (match sq_times body with
     | [] => ret (JsonError 400 "At least one check-in time is required")
     | times =>
         if negb (forallb timeRegex times)
         then ret (JsonError 400 "Invalid time format")
         else if match sq_grace_minutes body with
                 | Some g => negb (existsb (Z.eqb g) [5; 10; 15; 30])
                 | None => false
                 end
         then ret (JsonError 400 "grace_minutes must be 5, 10, 15, or 30")
         else
           updateUsers (fun u => (u_user_id u =? u_user_id user)%string)
                       (setSchedule times (sq_grace_minutes body)) ;;;
           ret (Json {| sp_success := true;
                        sp_checkin_times := times;
                        sp_grace_minutes :=
                          match sq_grace_minutes body with
                          | Some 0 | None => u_grace_minutes user
                          | Some g => g
                          end |})
     end)
    (fun _ => ret (JsonError 500 "Schedule update failed")).

End Settings.

(** ** cron/scheduler.ts *)

Module Scheduler.

Fixpoint forEach {A} (l : list A) (body : A -> Eff unit) : Eff unit :=
  match l with
  | [] => ret tt
  | x :: rest => body x ;;; forEach rest body
  end.

Definition isTimeMatch (current scheduled : HHMM) : bool :=
  let currentMinutes := hh current * 60 + mm current in
  let scheduledMinutes := hh scheduled * 60 + mm scheduled in
  Z.abs (currentMinutes - scheduledMinutes) <=? 1.

(** [pause_until IS NULL OR pause_until < ?], the parameter bound to
    [now.toISOString()]: two TEXT values, which SQLite compares byte by
    byte. *)
Definition notPaused (now : Timestamp) (u : User) : bool :=
  match u_pause_until u with
  | None => true
  | Some text => String.ltb text (toISOString now)
  end.

Definition pendingEvent (eventId userId : string)
    (scheduledTime deadlineTime now : Timestamp) : CheckinEvent :=
  {| event_id := eventId; user_id := userId;
     scheduled_time := scheduledTime; deadline_time := deadlineTime;
     status := pending; confirmed_at := None;
     snoozed_until := None; snooze_count := 0;
     escalated_at := None; escalation_level := 0;
     level2_escalated_at := None;
     created_at := now; updated_at := now |}.

Definition createPendingEvent (env : Env) (now : Timestamp) (user : User)
    (timeStr : HHMM) : Eff unit :=
  eventId <- generateUUID env ;;
  let scheduledTime := setHours now (hh timeStr) (mm timeStr) in
  if scheduledTime <? now then ret tt
  else
    let deadlineTime := scheduledTime + u_grace_minutes user * 60 * 1000 in
    insertEvent (pendingEvent eventId (u_user_id user) scheduledTime
                              deadlineTime now) ;;;
    match truthy (u_apns_token user) with
    | Some _ =>
        try_catch
          match sendCheckinReminder env user with
          | PushReturned _ => ret tt
          | PushThrew => throw "push failed"
          end
          (fun _ => ret tt)
    | None => ret tt
    end ;;;
    logEvent env (u_user_id user) (Some eventId) "checkin_scheduled" now "ok".

(** The slot test of the scan: [scheduled_time >= todayStart AND
    scheduled_time LIKE '%T<slot>%'] for this user. *)
Definition existingEvent (d : DB) (now : Timestamp) (user : User)
    (scheduledTime : HHMM) : option CheckinEvent :=
  find (fun e => (user_id e =? u_user_id user)%string
                 && (startOfDay now <=? scheduled_time e)
                 && likeTimeOfDay (scheduled_time e) scheduledTime)
       (checkin_events d).

(** The body of the inner loop of the scan, for one configured time. *)
Definition checkSlot (env : Env) (now : Timestamp) (user : User)
    (scheduledTime : HHMM) : Eff unit :=
  let currentTime := toTimeString now in
  if isTimeMatch currentTime scheduledTime then
    d <- getDB ;;
    match existingEvent d now user scheduledTime with
    | None => createPendingEvent env now user scheduledTime
    | Some _ => ret tt
    end
  else ret tt.

(** The body of the outer loop: one user, inside its [try]. *)
Definition processUser (env : Env) (now : Timestamp) (user : User) : Eff unit :=
  try_catch
    (forEach (u_checkin_times user) (checkSlot env now user))
    (fun _ => ret tt).

Definition handleScheduledCheckins (env : Env) (now : Timestamp) : Eff unit :=
  d <- getDB ;;
  forEach (filter (notPaused now) (users d)) (processUser env now).

Record DeliveryReport := {
  r_contact_id : string;
  r_status : string;
  r_error : option string
}.

Record EscalationResult := {
  r_event_id : string;
  contacts_notified : nat;
  deliveries : list DeliveryReport
}.

(** [SET status = 'alerted', escalated_at = ?, updated_at = ?] *)
Definition setAlerted (now : Timestamp) (e : CheckinEvent) : CheckinEvent :=
  {| event_id := event_id e; user_id := user_id e;
     scheduled_time := scheduled_time e; deadline_time := deadline_time e;
     status := alerted; confirmed_at := confirmed_at e;
     snoozed_until := snoozed_until e; snooze_count := snooze_count e;
     escalated_at := Some now; escalation_level := escalation_level e;
     level2_escalated_at := level2_escalated_at e;
     created_at := created_at e; updated_at := now |}.

(** [ORDER BY level ASC], rows of equal level in table order. *)
Fixpoint insertByLevel (c : Contact) (l : list Contact) : list Contact :=
  match l with
  | [] => [c]
  | x :: rest =>
      if c_level c <=? c_level x then c :: l else x :: insertByLevel c rest
  end.

Definition orderByLevel (l : list Contact) : list Contact :=
  fold_right insertByLevel [] l.

Definition newDelivery (deliveryId eventId contactId : string) (ch : Channel)
    (st : DeliveryStatus) (sentAt : option Timestamp) (now : Timestamp)
    : AlertDelivery :=
  {| delivery_id := deliveryId; d_event_id := eventId;
     d_contact_id := contactId; channel := ch; d_status := st;
     provider_ref := None; provider_status := None; error_message := None;
     retry_count := 0; max_retries := 3; next_retry_at := None;
     sent_at := sentAt; d_created_at := now; d_updated_at := now |}.

(** [SET status = 'sent', provider_ref = ?, provider_status = ?,
     sent_at = ?, updated_at = ?] *)
Definition setSent (r : Twilio.SendSMSResult) (now : Timestamp)
    (x : AlertDelivery) : AlertDelivery :=
  {| delivery_id := delivery_id x; d_event_id := d_event_id x;
     d_contact_id := d_contact_id x; channel := channel x; d_status := d_sent;
     provider_ref := Twilio.sid r; provider_status := Twilio.status r;
     error_message := error_message x;
     retry_count := retry_count x; max_retries := max_retries x;
     next_retry_at := next_retry_at x;
     sent_at := Some now; d_created_at := d_created_at x;
     d_updated_at := now |}.

(** [SET status = 'failed', error_message = ?, next_retry_at = ?,
     updated_at = ?] *)
Definition setFailed (r : Twilio.SendSMSResult) (nextRetry now : Timestamp)
    (x : AlertDelivery) : AlertDelivery :=
  {| delivery_id := delivery_id x; d_event_id := d_event_id x;
     d_contact_id := d_contact_id x; channel := channel x;
     d_status := d_failed;
     provider_ref := provider_ref x; provider_status := provider_status x;
     error_message := Twilio.errorMessage r;
     retry_count := retry_count x; max_retries := max_retries x;
     next_retry_at := Some nextRetry;
     sent_at := sent_at x; d_created_at := d_created_at x;
     d_updated_at := now |}.

(** [SELECT delivery_id FROM alert_deliveries WHERE event_id = ? AND
     contact_id = ? AND channel = 'sms'] *)
Definition existingDelivery (d : DB) (eventId : string) (contact : Contact)
    : option AlertDelivery :=
  find (fun x => (d_event_id x =? eventId)%string
                 && (d_contact_id x =? c_contact_id contact)%string
                 && Channel_eqb (channel x) sms)
       (alert_deliveries d).

Definition report (contact : Contact) (st : string) (err : option string)
    : DeliveryReport :=
  {| r_contact_id := c_contact_id contact; r_status := st; r_error := err |}.

(** The push attempt for a contact that has the app: its own [try], whose
    [catch] only logs. *)
Definition pushAlert (env : Env) (now : Timestamp) (eventId : string)
    (contact : Contact) : Eff unit :=
  if negb (c_has_app contact =? 0) then
    match truthy (c_apns_token contact) with
    | Some _ =>
        try_catch
          match sendContactAlert env contact with
          | PushThrew => throw "push failed"
          | PushReturned _ =>
              pushDeliveryId <- generateUUID env ;;
              insertDelivery (newDelivery pushDeliveryId eventId
                                (c_contact_id contact) push d_sent
                                (Some now) now)
          end
          (fun _ => ret tt)
    | None => ret tt
    end
  else ret tt.

(** The body of the [try] inside the contact loop; it returns the
    [deliveries] array after its one [push]. *)
Definition notifyContact (env : Env) (now : Timestamp) (eventId : string)
    (message : string) (contact : Contact)
    (acc : list DeliveryReport) : Eff (list DeliveryReport) :=
  d <- getDB ;;
  match existingDelivery d eventId contact with
  | Some _ => ret (acc ++ [report contact "already_exists" None])
  | None =>
      pushAlert env now eventId contact ;;;
      phone <- match decrypt env (c_phone_enc contact) with
               | Some p => ret p
               | None => throw "decryption failed"
               end ;;
      deliveryId <- generateUUID env ;;
      insertDelivery (newDelivery deliveryId eventId (c_contact_id contact)
                                  sms d_pending None now) ;;;
      let result := sendSMS env phone message in
      if Twilio.success result then
        updateDelivery deliveryId (setSent result now) ;;;
        ret (acc ++ [report contact "sent" None])
      else
        let nextRetry := Twilio.calculateNextRetry now 0 in
        updateDelivery deliveryId (setFailed result nextRetry now) ;;;
        ret (acc ++ [report contact "failed" (Twilio.errorMessage result)])
  end.

(** [for (const contact of contacts.results) { try { ... } catch { ... } }] *)
Fixpoint notifyContacts (env : Env) (now : Timestamp) (eventId : string)
    (message : string) (cs : list Contact)
    (acc : list DeliveryReport) : Eff (list DeliveryReport) :=
  match cs with
  | [] => ret acc
  | contact :: rest =>
      acc' <- try_catch
                (notifyContact env now eventId message contact acc)
                (fun e => ret (acc ++ [report contact "error" (Some e)])) ;;
      notifyContacts env now eventId message rest acc'
  end.

Definition countSent (ds : list DeliveryReport) : nat :=
  List.length (filter (fun r => (r_status r =? "sent")%string) ds).

(** [SELECT e.*, u.name, u.sms_alerts_enabled FROM checkin_events e
     JOIN users u ON e.user_id = u.user_id WHERE e.event_id = ?] *)
Definition findEventWithUser (d : DB) (eventId : string)
    : option (CheckinEvent * User) :=
  match find (fun e => (event_id e =? eventId)%string) (checkin_events d) with
  | Some e =>
      match find (fun u => (u_user_id u =? user_id e)%string) (users d) with
      | Some u => Some (e, u)
      | None => None
      end
  | None => None
  end.

(** The contacts of the event's user, [ORDER BY level ASC]. *)
Definition contactsOf (d : DB) (event : CheckinEvent) : list Contact :=
  orderByLevel
    (filter (fun c => (c_user_id c =? user_id event)%string) (contacts d)).

(** [triggerEscalation] from the audit entry on, once the status is set. *)
Definition alertContacts (env : Env) (now : Timestamp) (eventId : string)
    (event : CheckinEvent) (u : User) : Eff EscalationResult :=
  logEvent env (user_id event) (Some eventId) "checkin_escalated" now
           "missed" ;;;
  if u_sms_alerts_enabled u =? 0 then
    ret {| r_event_id := eventId; contacts_notified := 0; deliveries := [] |}
  else
    d' <- getDB ;;
    match contactsOf d' event with
    | [] => ret {| r_event_id := eventId; contacts_notified := 0;
                   deliveries := [] |}
    | cs =>
        let userName :=
          match u_name u with
          | EmptyString => "Your contact"%string
          | n => n
          end in
        let message :=
          generateAlertMessage env userName (scheduled_time event) in
        ds <- notifyContacts env now eventId message cs [] ;;
        logEvent env (user_id event) (Some eventId) "contacts_alerted"
                 now "ok" ;;;
        ret {| r_event_id := eventId; contacts_notified := countSent ds;
               deliveries := ds |}
    end.

Definition triggerEscalation (env : Env) (now : Timestamp)
    (eventId : string) : Eff EscalationResult :=
  d <- getDB ;;
  match findEventWithUser d eventId with
  | None => throw "Event not found"
  | Some (event, u) =>
      updateEvents (fun e => (event_id e =? eventId)%string)
                   (setAlerted now) ;;;
      alertContacts env now eventId event u
  end.

(** The rows the escalation scan selects. *)
Definition overdue (d : DB) (now : Timestamp) (e : CheckinEvent) : bool :=
  isOpen (status e)
  && (deadline_time e <? now)
  && existsb (fun u => (u_user_id u =? user_id e)%string && notPaused now u)
             (users d).

(** The body of the escalation loop: one overdue event, inside its [try]. *)
Definition escalateOne (env : Env) (now : Timestamp) (event : CheckinEvent)
    : Eff unit :=
  try_catch
    (triggerEscalation env now (event_id event) ;;; ret tt)
    (fun _ => ret tt).

Definition handleEscalations (env : Env) (now : Timestamp) : Eff unit :=
  d <- getDB ;;
  forEach (filter (overdue d now) (checkin_events d)) (escalateOne env now).

(** A row of the retry query: the delivery with the columns joined to it. *)
Record RetryRow := {
  rr_delivery : AlertDelivery;
  rr_phone_enc : string;
  rr_scheduled_time : Timestamp;
  rr_user_name : string
}.

(** [d.status = 'failed' AND d.retry_count < d.max_retries AND
     d.next_retry_at <= ?]; a NULL [next_retry_at] passes no comparison. *)
Definition retryDue (now : Timestamp) (x : AlertDelivery) : bool :=
  match d_status x with d_failed => true | _ => false end
  && (retry_count x <? max_retries x)%nat
  && match next_retry_at x with
     | Some t => t <=? now
     | None => false
     end.

(** The JOINs of the retry query, each on a primary key: the contact of the
    delivery, its event and the user of that event. *)
Definition joinRetry (d : DB) (x : AlertDelivery) : option RetryRow :=
  match find (fun c => (c_contact_id c =? d_contact_id x)%string)
             (contacts d) with
  | Some c =>
      match findEventWithUser d (d_event_id x) with
      | Some (e, u) =>
          Some {| rr_delivery := x; rr_phone_enc := c_phone_enc c;
                  rr_scheduled_time := scheduled_time e;
                  rr_user_name := u_name u |}
      | None => None
      end
  | None => None
  end.

Definition pendingRetries (d : DB) (now : Timestamp) : list RetryRow :=
  flat_map (fun x => match joinRetry d x with
                     | Some r => [r]
                     | None => []
                     end)
           (filter (retryDue now) (alert_deliveries d)).

(** [SET status = 'sent', provider_ref = ?, provider_status = ?,
     sent_at = ?, next_retry_at = NULL, updated_at = ?] *)
Definition setResent (r : Twilio.SendSMSResult) (now : Timestamp)
    (x : AlertDelivery) : AlertDelivery :=
  {| delivery_id := delivery_id x; d_event_id := d_event_id x;
     d_contact_id := d_contact_id x; channel := channel x; d_status := d_sent;
     provider_ref := Twilio.sid r; provider_status := Twilio.status r;
     error_message := error_message x;
     retry_count := retry_count x; max_retries := max_retries x;
     next_retry_at := None;
     sent_at := Some now; d_created_at := d_created_at x;
     d_updated_at := now |}.

(** [SET retry_count = ?, error_message = ?, next_retry_at = ?,
     updated_at = ?] *)
Definition setRetried (newRetryCount : nat) (r : Twilio.SendSMSResult)
    (nextRetry : option Timestamp) (now : Timestamp) (x : AlertDelivery)
    : AlertDelivery :=
  {| delivery_id := delivery_id x; d_event_id := d_event_id x;
     d_contact_id := d_contact_id x; channel := channel x;
     d_status := d_status x;
     provider_ref := provider_ref x; provider_status := provider_status x;
     error_message := Twilio.errorMessage r;
     retry_count := newRetryCount; max_retries := max_retries x;
     next_retry_at := nextRetry;
     sent_at := sent_at x; d_created_at := d_created_at x;
     d_updated_at := now |}.

(** The body of the retry loop: one selected row, inside its [try]. *)
Definition retryOne (env : Env) (now : Timestamp) (delivery : RetryRow)
    : Eff unit :=
  try_catch
    (phone <- match decrypt env (rr_phone_enc delivery) with
              | Some p => ret p
              | None => throw "decryption failed"
              end ;;
     let message :=
       generateAlertMessage env
         match rr_user_name delivery with
         | EmptyString => "Your contact"%string
         | n => n
         end
         (rr_scheduled_time delivery) in
     let result := sendSMS env phone message in
     if Twilio.success result then
       updateDelivery (delivery_id (rr_delivery delivery))
                      (setResent result now)
     else
       let newRetryCount := (retry_count (rr_delivery delivery) + 1)%nat in
       let nextRetry :=
         if (newRetryCount <? max_retries (rr_delivery delivery))%nat
         then Some (Twilio.calculateNextRetry now newRetryCount)
         else None in
       updateDelivery (delivery_id (rr_delivery delivery))
                      (setRetried newRetryCount result nextRetry now))
    (fun _ => ret tt).

Definition handleRetries (env : Env) (now : Timestamp) : Eff unit :=
  d <- getDB ;;
  forEach (pendingRetries d now) (retryOne env now).

End Scheduler.

(** * Vocabulary of the statements

    The predicates the theorems are stated with, and a concrete deployment
    used to exercise them. *)

(** ** The order of timestamps as text *)

(** Lexicographic combination of two comparisons. *)
Definition thenCompare (c rest : comparison) : comparison :=
  match c with Eq => rest | _ => c end.

Definition compareDates (a b : CivilDate) : comparison :=
  thenCompare (cd_year a ?= cd_year b)
    (thenCompare (cd_month a ?= cd_month b) (cd_day a ?= cd_day b)).

Definition validDate (c : CivilDate) : Prop :=
  1970 <= cd_year c /\ 1 <= cd_month c <= 12
  /\ 1 <= cd_day c <= daysInMonth (cd_year c) (cd_month c).

(** ** Reading dates *)

Definition digitOf (c : ascii) : option Z :=
  let n := Z.of_N (N_of_ascii c) in
  if (48 <=? n) && (n <=? 57) then Some (n - 48) else None.

Fixpoint readNumber (width : nat) (acc : Z) (s : string)
    : option (Z * string) :=
  match width with
  | O => Some (acc, s)
  | S width' =>
      match s with
      | String c rest =>
          match digitOf c with
          | Some d => readNumber width' (10 * acc + d) rest
          | None => None
          end
      | EmptyString => None
      end
  end.

(** A field of [width] digits, then the rest of the reading. *)
Definition number {T} (width : nat) (s : string)
    (k : Z -> string -> option T) : option T :=
  match readNumber width 0 s with
  | Some (n, rest) => k n rest
  | None => None
  end.

Definition literal {T} (c : ascii) (s : string) (k : string -> option T)
    : option T :=
  match s with
  | String c' rest => if Ascii.eqb c c' then k rest else None
  | EmptyString => None
  end.

(** The optional ".sss". *)
Definition readMillis (s : string) : option (Z * string) :=
  match s with
  | String "." rest => readNumber 3 0 rest
  | _ => Some (0, s)
  end.

(** "Z", "+HH:MM" or "-HH:MM" at the end of the text: minutes east of UTC. *)
Definition readZone (s : string) : option Z :=
  match s with
  | String "Z" EmptyString => Some 0
  | String sign rest =>
      number 2 rest (fun h rest1 =>
      literal ":" rest1 (fun rest2 =>
      number 2 rest2 (fun m rest3 =>
      match rest3 with
      | EmptyString =>
          if Ascii.eqb sign "+" then Some (h * 60 + m)
          else if Ascii.eqb sign "-" then Some (- (h * 60 + m))
          else None
      | _ => None
      end)))
  | EmptyString => None
  end.

Definition leapDaysBefore (y : Z) : Z :=
  (y - 1) / 4 - (y - 1) / 100 + (y - 1) / 400.

(** The days from 1970-01-01 to the first day of month [m] of year [y]. *)
Definition daysBeforeMonth (y m : Z) : Z :=
  365 * (y - 1970) + (leapDaysBefore y - leapDaysBefore 1970)
  + fold_right Z.add 0
      (map (fun k => daysInMonth y (Z.of_nat k)) (seq 1 (Z.to_nat (m - 1)))).

(** A reader of the ECMAScript date-time format with a time zone:
    "YYYY-MM-DDTHH:MM:SS", an optional ".sss", then "Z", "+HH:MM" or
    "-HH:MM".  It is the [new Date(text)] of the deployments below. *)
Definition isoParse (text : string) : option Timestamp :=
  number 4 text (fun y s1 =>
  literal "-" s1 (fun s2 =>
  number 2 s2 (fun mo s3 =>
  literal "-" s3 (fun s4 =>
  number 2 s4 (fun d s5 =>
  literal "T" s5 (fun s6 =>
  number 2 s6 (fun h s7 =>
  literal ":" s7 (fun s8 =>
  number 2 s8 (fun mi s9 =>
  literal ":" s9 (fun s10 =>
  number 2 s10 (fun sec s11 =>
  match readMillis s11 with
  | Some (ms, s12) =>
      match readZone s12 with
      | Some offset =>
          if (1 <=? mo) && (mo <=? 12) && (1 <=? d) && (d <=? daysInMonth y mo)
             && (h <=? 23) && (mi <=? 59) && (sec <=? 59)
          then Some ((daysBeforeMonth y mo + (d - 1)) * MS_PER_DAY
                     + ((h * 60 + mi - offset) * 60 + sec) * 1000 + ms)
          else None
      | None => None
      end
  | None => None
  end))))))))))).

(** The date-time text without the millisecond field,
    "YYYY-MM-DDTHH:MM:SSZ": what the iOS client's [ISO8601DateFormatter]
    writes into [pause_until]. *)
Definition internetDateTime (t : Timestamp) : string :=
  dateText (civilFromDays (t / MS_PER_DAY))
    (String "T" (secondText (t mod MS_PER_DAY / 1000) "Z")).

(** ** A concrete deployment *)

Definition demoUUID (n : nat) : string :=
  String (Ascii.ascii_of_nat (48 + n)) "-uuid".

Definition smsAccepted : Twilio.SendSMSResult :=
  {| Twilio.success := true; Twilio.sid := Some "SM1"%string;
     Twilio.status := Some "queued"%string; Twilio.errorMessage := None |}.

(** Every provider call succeeds; ciphertext ["garbled"] does not decrypt. *)
Definition demoEnv : Env :=
  {| randomUUID := demoUUID;
     parseDate := isoParse;
     sendContactAlert := fun _ => PushReturned true;
     sendCheckinReminder := fun _ => PushReturned true;
     decrypt := fun enc => if (enc =? "garbled")%string then None else Some enc;
     sendSMS := fun _ _ => smsAccepted;
     generateAlertMessage := fun name _ => name |}.

Definition alice : User :=
  {| u_user_id := "alice"; u_name := "Alice";
     u_checkin_times := [{| hh := 9; mm := 0 |}];
     u_grace_minutes := 10; u_sms_alerts_enabled := 1;
     u_pause_until := None; u_apns_token := None |}.

(** 2026-01-01T00:00:00.000Z *)
Definition newYear : Timestamp := 1767225600000.

Definition clock (h m s : Z) : Timestamp :=
  newYear + ((h * 60 + m) * 60 + s) * 1000.

(** Alice's 09:00 check-in of that day, in a given status. *)
Definition nineOClock (st : CheckinStatus) (confirmedAt : option Timestamp)
    (snoozes : Z) : CheckinEvent :=
  {| event_id := "e1"; user_id := "alice";
     scheduled_time := clock 9 0 0; deadline_time := clock 9 10 0;
     status := st; confirmed_at := confirmedAt;
     snoozed_until := None; snooze_count := snoozes;
     escalated_at := None; escalation_level := 0;
     level2_escalated_at := None;
     created_at := clock 8 59 5; updated_at := clock 8 59 5 |}.

Definition storeWith (evs : list CheckinEvent) (cs : list Contact)
    (ds : list AlertDelivery) : World :=
  {| db := {| users := [alice]; contacts := cs; checkin_events := evs;
              alert_deliveries := ds; event_logs := [] |};
     drawn := 0 |}.

(** ** Confirm and snooze *)

(** [body.confirmed_at || now] *)
Definition confirmedAtOf (body : Checkin.ConfirmRequest) (now : Timestamp)
    : Timestamp :=
  match Checkin.cr_confirmed_at body with Some t => t | None => now end.

(** [body.scheduled_at || now] *)
Definition scheduledTimeOf (body : Checkin.ConfirmRequest) (now : Timestamp)
    : Timestamp :=
  match Checkin.cr_scheduled_at body with Some t => t | None => now end.

Definition confirmLog (env : Env) (w : World) (n : nat) (userId eventId : string)
    (eventType : string) (t : Timestamp) : EventLog :=
  {| log_id := randomUUID env (n + drawn w); l_user_id := userId;
     l_event_id := Some eventId; event_type := eventType; event_time := t;
     result := "ok" |}.

(** The world a confirm of a found, not yet confirmed [event] leaves. *)
Definition confirmedWorld (env : Env) (now : Timestamp) (user : User)
    (body : Checkin.ConfirmRequest) (w : World) (event : CheckinEvent) : World :=
  {| db :=
       withLogs
         (withEvents (db w)
            (map (fun e => if (event_id e =? event_id event)%string
                           then Checkin.setConfirmed (confirmedAtOf body now) now e
                           else e)
                 (checkin_events (db w))))
         (event_logs (db w) ++
            [confirmLog env w 0 (u_user_id user) (event_id event)
               (match status event with
                | alerted => "checkin_confirmed_late"
                | _ => "checkin_confirmed"
                end)%string
               (confirmedAtOf body now)]);
     drawn := S (drawn w) |}.

(** Does the row a confirm would synthesize hit [idx_events_user_scheduled]? *)
Definition slotTaken (d : DB) (now : Timestamp) (user : User)
    (body : Checkin.ConfirmRequest) : bool :=
  existsb (fun x => (user_id x =? u_user_id user)%string
                    && (scheduled_time x =? scheduledTimeOf body now))
          (checkin_events d).

(** The world a confirm that synthesizes a row leaves. *)
Definition synthesizedWorld (env : Env) (now : Timestamp) (user : User)
    (body : Checkin.ConfirmRequest) (w : World) : World :=
  {| db :=
       withLogs
         (withEvents (db w)
            (checkin_events (db w) ++
               [Checkin.synthesized (randomUUID env (drawn w)) (u_user_id user)
                  (scheduledTimeOf body now) (confirmedAtOf body now) now]))
         (event_logs (db w) ++
            [confirmLog env w 1 (u_user_id user) (randomUUID env (drawn w))
               "checkin_confirmed" (confirmedAtOf body now)]);
     drawn := S (S (drawn w)) |}.

(** A confirm run answers with timestamp [t], and a row of the answered
    event carries [t] afterwards. *)
Definition stamped (t : Timestamp)
    (o : Outcome (Response Checkin.ConfirmResponse)) : Prop :=
  match o with
  | Returned (Json r) w' =>
      Checkin.r_confirmed_at r = Some t
      /\ exists e, In e (checkin_events (db w'))
                   /\ event_id e = Checkin.r_event_id r
                   /\ status e = confirmed
                   /\ confirmed_at e = Some t
  | _ => False
  end.

(** The request reaches one of the writes of the confirm route: its event is
    found and not yet confirmed, or no event is found and the synthesized
    row is accepted by the store. *)
Definition reachesWrite (d : DB) (now : Timestamp) (user : User)
    (body : Checkin.ConfirmRequest) : Prop :=
  match Checkin.findEvent d user body with
  | Some event => status event <> confirmed
  | None => slotTaken d now user body = false
  end.

Definition lateConfirm : Checkin.ConfirmRequest :=
  {| Checkin.cr_event_id := Some "e1"%string;
     Checkin.cr_scheduled_at := None;
     Checkin.cr_confirmed_at := Some (clock 9 20 0) |}.

Definition findOwn (d : DB) (user : User) (id : string) : option CheckinEvent :=
  find (fun e => (event_id e =? id)%string && (user_id e =? u_user_id user)%string)
       (checkin_events d).

(** A confirm with neither event id nor scheduled time, as the Siri shortcut
    sends it. *)
Definition bareConfirm : Checkin.ConfirmRequest :=
  {| Checkin.cr_event_id := None; Checkin.cr_scheduled_at := None;
     Checkin.cr_confirmed_at := Some (clock 8 59 59) |}.

(** A confirm carrying an event id the server never issued, together with
    the scheduled time of the check-in. *)
Definition staleConfirm : Checkin.ConfirmRequest :=
  {| Checkin.cr_event_id := Some "local-7"%string;
     Checkin.cr_scheduled_at := Some (clock 9 0 0);
     Checkin.cr_confirmed_at := Some (clock 9 2 0) |}.

(** The rule of the snooze operation in the words of the specification,
    with the minutes the route works with: the event exists for the user,
    is pending or snoozed, has been snoozed less than once, and the minutes
    are on the menu. *)
Definition snoozable (minutes : Z) (d : DB) (user : User)
    (body : Checkin.SnoozeRequest) : option CheckinEvent :=
  match truthy (Checkin.sr_event_id body) with
  | Some id =>
      match findOwn d user id with
      | Some event =>
          if isOpen (status event) && (snooze_count event <? 1)
             && Checkin.includes [5; 10; 15; 30] minutes
          then Some event else None
      | None => None
      end
  | None => None
  end.

(** The minutes the request asked for; a body without the field asks for
    none. *)
Definition requestedMinutes (body : Checkin.SnoozeRequest) : Z :=
  match Checkin.sr_snooze_minutes body with Some m => m | None => 0 end.

Definition answeredOk {A} (o : Outcome (Response A)) : bool :=
  match o with
  | Returned (Json _) _ => true
  | _ => false
  end.

Definition snoozedWorld (env : Env) (now : Timestamp) (user : User)
    (minutes : Z) (w : World) (event : CheckinEvent) : World :=
  {| db :=
       withLogs
         (withEvents (db w)
            (map (fun e => if (event_id e =? event_id event)%string
                           then Checkin.setSnoozed
                                  (deadline_time event + minutes * 60 * 1000) now e
                           else e)
                 (checkin_events (db w))))
         (event_logs (db w) ++
            [{| log_id := randomUUID env (drawn w); l_user_id := u_user_id user;
                l_event_id := Some (event_id event);
                event_type := "checkin_snoozed"; event_time := now;
                result := "ok" |}]);
     drawn := S (drawn w) |}.

Definition snoozeNoMinutes : Checkin.SnoozeRequest :=
  {| Checkin.sr_event_id := Some "e1"%string; Checkin.sr_snooze_minutes := None |}.

Definition snoozeZeroMinutes : Checkin.SnoozeRequest :=
  {| Checkin.sr_event_id := Some "e1"%string; Checkin.sr_snooze_minutes := Some 0 |}.

(** ** Pause and the escalation scan *)

(** Stores that agree on a view [f]. *)
Definition sameOn {B} (f : DB -> B) : relation DB := fun d d' => f d' = f d.

Definition eventsOf (uid : string) (d : DB) : list CheckinEvent :=
  filter (fun e => (user_id e =? uid)%string) (checkin_events d).

(** Every row of the users table with this id stores [text] as its
    [pause_until]. *)
Definition pausedUntil (d : DB) (uid : string) (text : string) : Prop :=
  forall u, In u (users d) -> u_user_id u = uid -> u_pause_until u = Some text.

(** The pause route accepts [text]: it is not empty, it reads as a date,
    and that date lies after [now]. *)
Definition accepted (env : Env) (now : Timestamp) (text : string) : bool :=
  match text with
  | EmptyString => false
  | _ => match parseDate env text with
         | Some p => now <? p
         | None => false
         end
  end.

(** The text is one of the two UTC forms of the instant [p]: the one
    [toISOString] writes, or the one without milliseconds. *)
Definition writtenUTC (text : string) (p : Timestamp) : Prop :=
  text = toISOString p \/ text = internetDateTime p.

(** The instants this system meets: those [toISOString] writes with a
    four-digit year. *)
Definition fourDigitYear (t : Timestamp) : Prop := 0 <= t < END_OF_9999.

Definition alertRow (now : Timestamp) (id : string) (e : CheckinEvent)
    : CheckinEvent :=
  if (event_id e =? id)%string then Scheduler.setAlerted now e else e.

(** What the escalation scan does to a row of the table it started from. *)
Definition escalated (d0 : DB) (now : Timestamp) (e e' : CheckinEvent) : Prop :=
  e' = e \/ (Scheduler.overdue d0 now e = true /\ e' = Scheduler.setAlerted now e).

Definition pauseRow (now : Timestamp) (uid : string) (e : CheckinEvent)
    : CheckinEvent :=
  if (user_id e =? uid)%string && isOpen (status e)
  then Settings.setPaused now e else e.

Definition pauseUserRow (t : string) (uid : string) (u : User) : User :=
  if (u_user_id u =? uid)%string then Settings.setPauseUntil (Some t) u else u.

(** The world an accepted pause request leaves. *)
Definition pausedWorld (env : Env) (now : Timestamp) (user : User)
    (t : string) (w : World) : World :=
  {| db :=
       {| users := map (pauseUserRow t (u_user_id user)) (users (db w));
          contacts := contacts (db w);
          checkin_events :=
            map (pauseRow now (u_user_id user)) (checkin_events (db w));
          alert_deliveries := alert_deliveries (db w);
          event_logs :=
            event_logs (db w) ++
              [{| log_id := randomUUID env (drawn w);
                  l_user_id := u_user_id user; l_event_id := None;
                  event_type := "monitoring_paused"; event_time := now;
                  result := "ok" |}] |};
     drawn := S (drawn w) |}.

(** 23:00 UTC of new year's day, as [toISOString] writes it. *)
Definition elevenPM : string := "2026-01-01T23:00:00.000Z".

Definition bob : User :=
  {| u_user_id := "bob"; u_name := "Bob";
     u_checkin_times := [{| hh := 9; mm := 0 |}];
     u_grace_minutes := 10; u_sms_alerts_enabled := 1;
     u_pause_until := Some elevenPM; u_apns_token := None |}.

Definition bobsNine : CheckinEvent :=
  {| event_id := "e2"; user_id := "bob";
     scheduled_time := clock 9 0 0; deadline_time := clock 9 10 0;
     status := pending; confirmed_at := None;
     snoozed_until := None; snooze_count := 0;
     escalated_at := None; escalation_level := 0;
     level2_escalated_at := None;
     created_at := clock 8 59 5; updated_at := clock 8 59 5 |}.

(** Alice is active, Bob is paused until 23:00; both have an open 09:00
    check-in. *)
Definition twoUsers : World :=
  {| db := {| users := [alice; bob]; contacts := [];
              checkin_events := [nineOClock pending None 0; bobsNine];
              alert_deliveries := []; event_logs := [] |};
     drawn := 0 |}.

(** What an accepted pause of user [uid] at [now] makes of a row [e] of
    the events table: a pending or snoozed event of the user becomes
    paused, its other columns but [updated_at] kept; any other row stays
    as it is. *)
Definition flipped (now : Timestamp) (uid : string) (e e' : CheckinEvent)
    : Prop :=
  if (user_id e =? uid)%string && isOpen (status e)
  then status e' = paused
       /\ updated_at e' = now
       /\ event_id e' = event_id e /\ user_id e' = user_id e
       /\ scheduled_time e' = scheduled_time e
       /\ deadline_time e' = deadline_time e
       /\ confirmed_at e' = confirmed_at e
       /\ snoozed_until e' = snoozed_until e
       /\ snooze_count e' = snooze_count e
       /\ escalated_at e' = escalated_at e
       /\ escalation_level e' = escalation_level e
       /\ level2_escalated_at e' = level2_escalated_at e
       /\ created_at e' = created_at e
  else e' = e.

(** 13:00 UTC of new year's day, as a client at UTC-8 writes it. *)
Definition fiveAMPacific : string := "2026-01-01T05:00:00-08:00".

(** Dana checks in at 08:00 and at 09:00. *)
Definition dana : User :=
  {| u_user_id := "dana"; u_name := "Dana";
     u_checkin_times := [{| hh := 8; mm := 0 |}; {| hh := 9; mm := 0 |}];
     u_grace_minutes := 10; u_sms_alerts_enabled := 1;
     u_pause_until := None; u_apns_token := None |}.

(** Dana, one contact, and her pending 08:00 check-in. *)
Definition danaAtEight : World :=
  {| db := {| users := [dana];
              contacts := [{| c_contact_id := "c9"; c_user_id := "dana";
                              c_phone_enc := "+15550009"; c_level := 1;
                              c_has_app := 0; c_apns_token := None |}];
              checkin_events :=
                [{| event_id := "e8"; user_id := "dana";
                    scheduled_time := clock 8 0 0;
                    deadline_time := clock 8 10 0;
                    status := pending; confirmed_at := None;
                    snoozed_until := None; snooze_count := 0;
                    escalated_at := None; escalation_level := 0;
                    level2_escalated_at := None;
                    created_at := clock 7 59 5; updated_at := clock 7 59 5 |}];
              alert_deliveries := []; event_logs := [] |};
     drawn := 0 |}.

(** At 08:05 she pauses until 13:00 UTC. *)
Definition danaPaused : World :=
  worldOf (Settings.pause demoEnv (clock 8 5 0) dana
             {| Settings.pause_until := Some fiveAMPacific |} danaAtEight).

(** Her row of the users table from then on. *)
Definition pausedDana : User :=
  Settings.setPauseUntil (Some fiveAMPacific) dana.

(** The ticks of 08:59:30 and 09:11:00. *)
Definition danaScheduled : World :=
  worldOf (Scheduler.handleScheduledCheckins demoEnv (clock 8 59 30) danaPaused).

Definition danaEscalated : World :=
  worldOf (Scheduler.handleEscalations demoEnv (clock 9 11 0) danaScheduled).

(** ** The status machine *)

(** The transitions the specification allows; it gives no rule for
    [missed], which is left open here. *)
Definition legal (a b : CheckinStatus) : bool :=
  match a, b with
  | pending, (confirmed | snoozed | alerted | paused) => true
  | snoozed, (confirmed | alerted | paused) => true
  | alerted, confirmed => true
  | missed, _ => true
  | _, _ => false
  end.

(** A row keeps its status or makes a legal move. *)
Definition follows (a b : CheckinStatus) : Prop := a = b \/ legal a b = true.

(** What each operation does to the status of a row. *)
Definition confirmStep (a b : CheckinStatus) : Prop :=
  a = b \/ (a <> confirmed /\ b = confirmed).

Definition snoozeStep (a b : CheckinStatus) : Prop :=
  a = b \/ (isOpen a = true /\ b = snoozed).

Definition escalateStep (a b : CheckinStatus) : Prop :=
  a = b \/ (isOpen a = true /\ b = alerted).

Definition triggerStep (a b : CheckinStatus) : Prop := a = b \/ b = alerted.

Definition moved (step : CheckinStatus -> CheckinStatus -> Prop)
    (e e' : CheckinEvent) : Prop :=
  event_id e' = event_id e /\ step (status e) (status e').

(** The table [l'] is the table [l] with each row moved by [step], followed
    by rows that are new. *)
Definition evolves (step : CheckinStatus -> CheckinStatus -> Prop)
    (l l' : list CheckinEvent) : Prop :=
  exists kept added, l' = kept ++ added /\ Forall2 (moved step) l kept.

Definition confirmE1 : Checkin.ConfirmRequest :=
  {| Checkin.cr_event_id := Some "e1"%string;
     Checkin.cr_scheduled_at := None;
     Checkin.cr_confirmed_at := Some (clock 10 0 0) |}.

(** ** The scheduler scan *)

(** A row the scan may create at [now] on behalf of a user satisfying [P]:
    pending, due at one of the user's times that matches the current minute,
    not before [now], with the grace window added for the deadline. *)
Definition created (P : User -> Prop) (now : Timestamp) (e : CheckinEvent)
    : Prop :=
  exists u slot,
    P u /\ In slot (u_checkin_times u)
    /\ Scheduler.isTimeMatch (toTimeString now) slot = true
    /\ user_id e = u_user_id u
    /\ status e = pending
    /\ scheduled_time e = setHours now (hh slot) (mm slot)
    /\ now <= scheduled_time e
    /\ deadline_time e = scheduled_time e + u_grace_minutes u * 60 * 1000.

(** The events table only grew, by rows [created] for [P]. *)
Definition appended (P : User -> Prop) (now : Timestamp) : relation DB :=
  fun d d' =>
    exists added,
      checkin_events d' = checkin_events d ++ added
      /\ Forall (created P now) added.

(** The users the scan works for: rows of the table that are not paused. *)
Definition activeIn (d : DB) (now : Timestamp) (u : User) : Prop :=
  In u (users d) /\ Scheduler.notPaused now u = true.

(** An "HH:MM" time as the schedule route validates it. *)
Definition validSlot (s : HHMM) : Prop := 0 <= hh s < 24 /\ 0 <= mm s < 60.

(** The event the scan creates for [user] at [slot]. *)
Definition slotEvent (env : Env) (now : Timestamp) (user : User) (slot : HHMM)
    (w : World) : CheckinEvent :=
  Scheduler.pendingEvent (randomUUID env (drawn w)) (u_user_id user)
    (setHours now (hh slot) (mm slot))
    (setHours now (hh slot) (mm slot) + u_grace_minutes user * 60 * 1000) now.

(** The test under which [checkSlot] reaches the INSERT. *)
Definition slotDue (now : Timestamp) (user : User) (slot : HHMM) (d : DB)
    : bool :=
  Scheduler.isTimeMatch (toTimeString now) slot
  && match Scheduler.existingEvent d now user slot with
     | None => true
     | Some _ => false
     end
  && negb (setHours now (hh slot) (mm slot) <? now).

(** The pending event of [user] for [slot] of the day of [now]. *)
Definition targetOf (now : Timestamp) (user : User) (slot : HHMM)
    (e : CheckinEvent) : Prop :=
  user_id e = u_user_id user
  /\ status e = pending
  /\ scheduled_time e = setHours now (hh slot) (mm slot)
  /\ deadline_time e = scheduled_time e + u_grace_minutes user * 60 * 1000.

(** In the course of a scan: the slot is still free, or its event exists. *)
Definition slotSettled (now : Timestamp) (user : User) (slot : HHMM) (d : DB)
    : Prop :=
  Scheduler.existingEvent d now user slot = None
  \/ exists e, In e (checkin_events d) /\ targetOf now user slot e.

Definition nine : HHMM := {| hh := 9; mm := 0 |}.

(** ** Escalation passes *)

(** What the pass reports for a contact, from the SMS rows it starts with
    and from what the contact's own ciphertext and send do. *)
Definition expectedReport (env : Env) (message : string) (d : DB)
    (eventId : string) (contact : Contact) : Scheduler.DeliveryReport :=
  match Scheduler.existingDelivery d eventId contact with
  | Some _ => Scheduler.report contact "already_exists" None
  | None =>
      match decrypt env (c_phone_enc contact) with
      | None => Scheduler.report contact "error" (Some "decryption failed"%string)
      | Some phone =>
          if Twilio.success (sendSMS env phone message)
          then Scheduler.report contact "sent" None
          else Scheduler.report contact "failed"
                 (Twilio.errorMessage (sendSMS env phone message))
      end
  end.

Definition hasDelivery (d : DB) (eventId : string) (contact : Contact) : bool :=
  match Scheduler.existingDelivery d eventId contact with
  | Some _ => true
  | None => false
  end.

Definition caught (contact : Contact) (acc : list Scheduler.DeliveryReport)
    (e : string) : Eff (list Scheduler.DeliveryReport) :=
  ret (acc ++ [Scheduler.report contact "error" (Some e)]).

(** [generateAlertMessage(event.user_name || 'Your contact', ...)] *)
Definition alertMessage (env : Env) (u : User) (event : CheckinEvent) : string :=
  generateAlertMessage env
    match u_name u with
    | EmptyString => "Your contact"%string
    | n => n
    end
    (scheduled_time event).

Definition contactOf (id enc : string) (level : Z) : Contact :=
  {| c_contact_id := id; c_user_id := "alice"; c_phone_enc := enc;
     c_level := level; c_has_app := 0; c_apns_token := None |}.

(** Alice's overdue 09:00 check-in and three contacts; the phone of the
    second does not decrypt. *)
Definition threeContacts : World :=
  storeWith [nineOClock pending None 0]
            [contactOf "c1" "+15550001" 1; contactOf "c2" "garbled" 1;
             contactOf "c3" "+15550003" 2]
            [].

Definition deliveryKeys (d : DB) : list (string * string * Channel) :=
  map keyOf (alert_deliveries d).

(** [P] is carried from one store to the next. *)
Definition carries (P : DB -> Prop) : relation DB := fun d d' => P d -> P d'.

Definition uniqueDeliveries (d : DB) : Prop := NoDup (deliveryKeys d).

(** The store after the first escalation of Alice's check-in with two
    reachable contacts. *)
Definition alreadyAlerted : World :=
  worldOf (Scheduler.triggerEscalation demoEnv (clock 9 11 0) "e1"
             (storeWith [nineOClock pending None 0]
                        [contactOf "c1" "+15550001" 1; contactOf "c3" "+15550003" 2]
                        [])).

Definition appContact : Contact :=
  {| c_contact_id := "c1"; c_user_id := "alice"; c_phone_enc := "+15550001";
     c_level := 1; c_has_app := 1; c_apns_token := Some "apns-token"%string |}.

(** An alerted event whose only delivery row is the push row of the
    contact (the first pass stopped after the push). *)
Definition pushOnly : World :=
  storeWith [nineOClock alerted None 0] [appContact]
            [Scheduler.newDelivery "d0" "e1" "c1" push d_sent
               (Some (clock 9 11 0)) (clock 9 11 0)].

Definition oneContact : World :=
  storeWith [] [contactOf "c1" "+15550001" 1] [].

Definition afterSchedulerTick : World :=
  worldOf (Scheduler.handleScheduledCheckins demoEnv (clock 8 59 2) oneContact).

Definition afterEscalationTick : World :=
  worldOf (Scheduler.handleEscalations demoEnv (clock 9 11 2) afterSchedulerTick).

Definition deliveryIds (d : DB) : list string :=
  map delivery_id (alert_deliveries d).

(** The SMS row that records an attempt on [contact]: sent, with the
    provider's reference, if the provider accepted the message; failed,
    with the provider's error and the time of the first retry, if not. *)
Definition recordsAttempt (env : Env) (now : Timestamp)
    (message eventId : string) (contact : Contact) (phone : string)
    (x : AlertDelivery) : Prop :=
  keyOf x = (eventId, c_contact_id contact, sms)
  /\ retry_count x = 0%nat /\ d_created_at x = now
  /\ if Twilio.success (sendSMS env phone message)
     then d_status x = d_sent /\ sent_at x = Some now
          /\ provider_ref x = Twilio.sid (sendSMS env phone message)
          /\ next_retry_at x = None
     else d_status x = d_failed /\ sent_at x = None
          /\ error_message x = Twilio.errorMessage (sendSMS env phone message)
          /\ next_retry_at x = Some (Twilio.calculateNextRetry now 0).

(** The delivery ids of [d] are the first ids of [d'], and every row of
    [d] is a row of [d'] if the ids of [d'] are distinct. *)
Definition rowsKept : relation DB := fun d d' =>
  (exists added, deliveryIds d' = deliveryIds d ++ added)
  /\ (NoDup (deliveryIds d') ->
      forall x, In x (alert_deliveries d) -> In x (alert_deliveries d')).

(** [keeps R m]: whatever [m] does, returning or throwing, the store it
    leaves is [R]-related to the one it started from. *)
Definition keeps (R : relation DB) {A} (m : Eff A) : Prop :=
  forall w, R (db w) (db (worldOf (m w))).

(** ** Retry passes *)

(** The columns of a delivery row that no retry writes. *)
Definition fixedColumns (x : AlertDelivery)
    : string * (string * string * Channel) * nat * Timestamp :=
  (delivery_id x, keyOf x, max_retries x, d_created_at x).

(** [generateAlertMessage(delivery.user_name || 'Your contact', ...)] *)
Definition retryMessage (env : Env) (r : Scheduler.RetryRow) : string :=
  generateAlertMessage env
    match Scheduler.rr_user_name r with
    | EmptyString => "Your contact"%string
    | n => n
    end
    (Scheduler.rr_scheduled_time r).

(** The time the loop schedules after a failed attempt that brings the
    count to [newRetryCount]. *)
Definition nextRetryAfter (now : Timestamp) (newRetryCount maxRetries : nat)
    : option Timestamp :=
  if (newRetryCount <? maxRetries)%nat
  then Some (Twilio.calculateNextRetry now newRetryCount)
  else None.

(** The UPDATE the loop issues for the selected row [r], as a function of
    the row it lands on; none when the phone does not decrypt. *)
Definition retryEffect (env : Env) (now : Timestamp) (r : Scheduler.RetryRow)
    (x : AlertDelivery) : AlertDelivery :=
  match decrypt env (Scheduler.rr_phone_enc r) with
  | None => x
  | Some phone =>
      let result := sendSMS env phone (retryMessage env r) in
      if Twilio.success result then Scheduler.setResent result now x
      else
        Scheduler.setRetried
          (retry_count (Scheduler.rr_delivery r) + 1) result
          (nextRetryAfter now (retry_count (Scheduler.rr_delivery r) + 1)
                          (max_retries (Scheduler.rr_delivery r)))
          now x
  end.

(** [... WHERE delivery_id = ?] for the row [r]. *)
Definition retryStep (env : Env) (now : Timestamp) (r : Scheduler.RetryRow)
    (x : AlertDelivery) : AlertDelivery :=
  if (delivery_id x =? delivery_id (Scheduler.rr_delivery r))%string
  then retryEffect env now r x else x.

Definition applyRetries (env : Env) (now : Timestamp)
    (rows : list Scheduler.RetryRow) (x : AlertDelivery) : AlertDelivery :=
  fold_left (fun acc r => retryStep env now r acc) rows x.

(** The rows the retry query yields from the deliveries [l]. *)
Definition retryRows (d : DB) (now : Timestamp) (l : list AlertDelivery)
    : list Scheduler.RetryRow :=
  flat_map (fun x => match Scheduler.joinRetry d x with
                     | Some r => [r]
                     | None => []
                     end)
           (filter (Scheduler.retryDue now) l).

(** What one retry pass at [now] over the store [d] does to its row [x]. *)
Definition retried (env : Env) (now : Timestamp) (d : DB) (x : AlertDelivery)
    : AlertDelivery :=
  if Scheduler.retryDue now x then
    match Scheduler.joinRetry d x with
    | Some r => retryEffect env now r x
    | None => x
    end
  else x.

(** The attempts the retry manager may still make for a row. *)
Definition attemptsLeft (x : AlertDelivery) : nat :=
  match d_status x with
  | d_failed => max_retries x - retry_count x
  | _ => 0
  end.

(** A row no retry pass will select, whatever the time. *)
Definition settled (x : AlertDelivery) : Prop :=
  d_status x <> d_failed
  \/ (max_retries x <= retry_count x)%nat
  \/ next_retry_at x = None.

(** A row a pass at [now] does not select: settled, or due later. *)
Definition notYetDue (now : Timestamp) (x : AlertDelivery) : Prop :=
  settled x \/ exists t, next_retry_at x = Some t /\ now < t.

(** Each delivery row of [d'] is a row of [d] or a row that a retry pass
    at [now] does not select. *)
Definition writesWait (now : Timestamp) : relation DB :=
  fun d d' =>
    forall y, In y (alert_deliveries d') ->
              In y (alert_deliveries d) \/ notYetDue now y.

(** A sequence of retry passes, each with its collaborators and clock. *)
Definition retryPasses (ticks : list (Env * Timestamp)) : Eff unit :=
  Scheduler.forEach ticks
    (fun tick => Scheduler.handleRetries (fst tick) (snd tick)).

Definition smsRejected : Twilio.SendSMSResult :=
  {| Twilio.success := false; Twilio.sid := None; Twilio.status := None;
     Twilio.errorMessage := Some "Twilio error: 503"%string |}.

(** The provider rejects every message. *)
Definition failingEnv : Env :=
  {| randomUUID := demoUUID;
     parseDate := isoParse;
     sendContactAlert := fun _ => PushReturned true;
     sendCheckinReminder := fun _ => PushReturned true;
     decrypt := fun enc => Some enc;
     sendSMS := fun _ _ => smsRejected;
     generateAlertMessage := fun name _ => name |}.

(** The SMS row of Alice's alerted 09:00 check-in for contact c1, failed. *)
Definition failedRow (count : nat) (nextRetry : option Timestamp)
    : AlertDelivery :=
  {| delivery_id := "d1"; d_event_id := "e1"; d_contact_id := "c1";
     channel := sms; d_status := d_failed;
     provider_ref := None; provider_status := None;
     error_message := Some "Twilio error: 503"%string;
     retry_count := count; max_retries := 3; next_retry_at := nextRetry;
     sent_at := None; d_created_at := clock 9 11 0;
     d_updated_at := clock 9 11 0 |}.

Definition retryWorld (count : nat) (nextRetry : option Timestamp) : World :=
  storeWith [nineOClock alerted None 0] [contactOf "c1" "+15550001" 1]
            [failedRow count nextRetry].

(** ** The current check-in *)

(** The rows [GET /api/checkin/current] chooses from. *)
Definition openEventsOf (user : User) (d : DB) : list CheckinEvent :=
  filter (fun e => (user_id e =? u_user_id user)%string && isOpen (status e))
         (checkin_events d).

(** The columns of [e] the route returns. *)
Definition shown (e : CheckinEvent) : Checkin.CurrentEvent :=
  {| Checkin.ce_event_id := event_id e;
     Checkin.ce_scheduled_time := scheduled_time e;
     Checkin.ce_deadline_time := deadline_time e;
     Checkin.ce_status := status e;
     Checkin.ce_snooze_count := snooze_count e;
     Checkin.ce_snoozed_until := snoozed_until e |}.

(** The event a run of the route answers with, if any. *)
Definition currentOf (o : Outcome (Response Checkin.CurrentResponse))
    : option Checkin.CurrentEvent :=
  match o with
  | Returned (Json r) _ => Checkin.current_event r
  | _ => None
  end.

Definition nothingPending : Checkin.CurrentResponse :=
  {| Checkin.has_pending := false; Checkin.current_event := None |}.

(** What the escalation scan at [now] over the store [d] does to a row. *)
Definition escalatedRow (d : DB) (now : Timestamp) (e : CheckinEvent)
    : CheckinEvent :=
  if Scheduler.overdue d now e then Scheduler.setAlerted now e else e.

(** A row in the course of the escalation loop, once the events [listed]
    have had their turn. *)
Definition alertedIfListed (now : Timestamp) (listed : list CheckinEvent)
    (e : CheckinEvent) : CheckinEvent :=
  if existsb (fun x => (event_id x =? event_id e)%string) listed
  then Scheduler.setAlerted now e else e.

(** Some row of the users table has this id and is not paused at [now]. *)
Definition activeUser (d : DB) (now : Timestamp) (uid : string) : bool :=
  existsb (fun u => (u_user_id u =? uid)%string && Scheduler.notPaused now u)
          (users d).

(** [GET /api/settings/pause] answers [paused: true]. *)
Definition reportsPaused (env : Env) (now : Timestamp) (user : User) : bool :=
  match Settings.pauseStatus env now user with
  | Json r =>
      match Settings.ps_paused r with
      | Settings.PausedIs true => true
      | _ => false
      end
  | JsonError _ _ => false
  end.

(** The world a resume request (a pause with no time) leaves. *)
Definition resumedWorld (env : Env) (now : Timestamp) (user : User)
    (w : World) : World :=
  {| db :=
       {| users :=
            map (fun u => if (u_user_id u =? u_user_id user)%string
                          then Settings.setPauseUntil None u else u)
                (users (db w));
          contacts := contacts (db w);
          checkin_events := checkin_events (db w);
          alert_deliveries := alert_deliveries (db w);
          event_logs :=
            event_logs (db w) ++
              [{| log_id := randomUUID env (drawn w);
                  l_user_id := u_user_id user; l_event_id := None;
                  event_type := "monitoring_resumed"; event_time := now;
                  result := "ok" |}] |};
     drawn := S (drawn w) |}.

Definition snoozeTen : Checkin.SnoozeRequest :=
  {| Checkin.sr_event_id := Some "e1"%string;
     Checkin.sr_snooze_minutes := Some 10 |}.

(** ** The schedule route *)

(** The row [POST /api/settings/schedule] leaves for a row [u] of the users
    table. *)
Definition scheduleRow (user : User) (body : Settings.ScheduleRequest)
    (u : User) : User :=
  if (u_user_id u =? u_user_id user)%string
  then Settings.setSchedule (Settings.sq_times body)
         (Settings.sq_grace_minutes body) u
  else u.

(** What the route accepts: at least one time, each of the form HH:MM, and
    a grace period from the menu if one is given. *)
Definition acceptable (body : Settings.ScheduleRequest) : bool :=
  match Settings.sq_times body with
  | [] => false
  | times => forallb Settings.timeRegex times
  end
  && match Settings.sq_grace_minutes body with
     | Some g => existsb (Z.eqb g) [5; 10; 15; 30]
     | None => true
     end.

(** The message of the rejection, by the first check that fails. *)
Definition scheduleError (body : Settings.ScheduleRequest) : string :=
  match Settings.sq_times body with
  | [] => "At least one check-in time is required"
  | times =>
      if forallb Settings.timeRegex times
      then "grace_minutes must be 5, 10, 15, or 30"
      else "Invalid time format"
  end.

Definition twiceADay : Settings.ScheduleRequest :=
  {| Settings.sq_times := ["08:30"; "21:00"]%string;
     Settings.sq_grace_minutes := Some 15 |}.

(** ** Ticks of the cron trigger *)

(** Every configured time of every user is a valid slot. *)
Definition validSchedules (d : DB) : Prop :=
  forall u, In u (users d) -> Forall validSlot (u_checkin_times u).

(** No time of a user in [us] is due in the store [d]: each is a valid
    slot that does not match the minute of [now], or has its event, or is
    past. *)
Definition quiet (now : Timestamp) (us : list User) (d : DB) : Prop :=
  forall u slot,
    In u us -> In slot (u_checkin_times u) ->
    validSlot slot /\ slotDue now u slot d = false.

(** From a quiet store on, the events table stays as it is. *)
Definition rests (now : Timestamp) (us : list User) : relation DB :=
  fun d d' => quiet now us d -> checkin_events d' = checkin_events d.

Definition midnight : HHMM := {| hh := 0; mm := 0 |}.

(** Carol checks in at midnight. *)
Definition carol : User :=
  {| u_user_id := "carol"; u_name := "Carol";
     u_checkin_times := [midnight];
     u_grace_minutes := 10; u_sms_alerts_enabled := 1;
     u_pause_until := None; u_apns_token := None |}.

Definition carolOnly : World :=
  {| db := {| users := [carol]; contacts := []; checkin_events := [];
              alert_deliveries := []; event_logs := [] |};
     drawn := 0 |}.

(** ** The audit log *)

(** The audit log of [d'] is that of [d], followed by new entries. *)
Definition logsGrow : relation DB :=
  fun d d' => exists added, event_logs d' = event_logs d ++ added.

(** ** Further deployments *)

(** Alice with SMS alerts switched off, her overdue 09:00 check-in and a
    contact who has the app. *)
Definition muted : User :=
  {| u_user_id := "alice"; u_name := "Alice";
     u_checkin_times := [nine]; u_grace_minutes := 10;
     u_sms_alerts_enabled := 0; u_pause_until := None;
     u_apns_token := None |}.

Definition mutedAlice : World :=
  {| db := {| users := [muted];
              contacts := [appContact];
              checkin_events := [nineOClock pending None 0];
              alert_deliveries := []; event_logs := [] |};
     drawn := 0 |}.

(** The store after the escalation of Alice's 09:00 check-in at 09:11 with
    a provider that rejects every message, and after each retry pass that
    follows. *)
Definition rejectedAt911 : World :=
  worldOf (Scheduler.handleEscalations failingEnv (clock 9 11 0)
             (storeWith [nineOClock pending None 0]
                        [contactOf "c1" "+15550001" 1] [])).

Definition retriedAt (times : list Timestamp) : World :=
  worldOf (retryPasses (map (fun t => (failingEnv, t)) times) rejectedAt911).

(** Every push throws; decryption and the SMS provider fail as well. *)
Definition nothingWorks : Env :=
  {| randomUUID := demoUUID;
     parseDate := isoParse;
     sendContactAlert := fun _ => PushThrew;
     sendCheckinReminder := fun _ => PushThrew;
     decrypt := fun _ => None;
     sendSMS := fun _ _ => smsRejected;
     generateAlertMessage := fun name _ => name |}.

(** Alice with a device token, so that the scan sends her a reminder. *)
Definition aliceWithPhone : World :=
  {| db := {| users := [{| u_user_id := "alice"; u_name := "Alice";
                           u_checkin_times := [nine]; u_grace_minutes := 10;
                           u_sms_alerts_enabled := 1; u_pause_until := None;
                           u_apns_token := Some "apns-alice"%string |}];
              contacts := []; checkin_events := [];
              alert_deliveries := []; event_logs := [] |};
     drawn := 0 |}.

(** * Theorems *)

(** ** Timestamps as text *)

Example toISOString_newYear :
  toISOString newYear = "2026-01-01T00:00:00.000Z"%string.
Proof. vm_compute. reflexivity. Qed.

Example toISOString_leap_day :
  toISOString 951868799999 = "2000-02-29T23:59:59.999Z"%string.
Proof. vm_compute. reflexivity. Qed.

Example toISOString_last :
  toISOString (END_OF_9999 - 1) = "9999-12-31T23:59:59.999Z"%string.
Proof. vm_compute. reflexivity. Qed.

Example internetDateTime_sample :
  internetDateTime (clock 23 0 0) = "2026-01-01T23:00:00Z"%string.
Proof. vm_compute. reflexivity. Qed.

(** The reader takes an offset into account, and reads back what the two
    writers write. *)
Example isoParse_samples :
  isoParse "2026-01-01T23:00:00.000Z" = Some (clock 23 0 0)
  /\ isoParse "2026-01-01T23:00:00Z" = Some (clock 23 0 0)
  /\ isoParse "2026-01-01T05:00:00-08:00" = Some (clock 13 0 0)
  /\ isoParse "2026-01-02T08:30:00+09:30" = Some (clock 23 0 0)
  /\ isoParse "tomorrow" = None
  /\ isoParse (toISOString 951868799999) = Some 951868799999
  /\ isoParse (internetDateTime (clock 9 11 2)) = Some (clock 9 11 2).
Proof. vm_compute. repeat split. Qed.

Lemma lex_div k a b :
  0 < k ->
  (a ?= b) = thenCompare (a / k ?= b / k) (a mod k ?= b mod k).
Proof.
  intros Hk. unfold thenCompare.
  destruct (Z.compare_spec (a / k) (b / k)) as [E|E|E].
  - destruct (Z.compare_spec (a mod k) (b mod k)) as [F|F|F];
      [apply Z.compare_eq_iff|apply Z.compare_lt_iff|apply Z.compare_gt_iff];
      rewrite (Z.div_mod a k), (Z.div_mod b k) by lia; rewrite E; lia.
  - apply Z.compare_lt_iff.
    pose proof (Z.mod_pos_bound a k Hk). pose proof (Z.mod_pos_bound b k Hk).
    rewrite (Z.div_mod a k), (Z.div_mod b k) by lia. nia.
  - apply Z.compare_gt_iff.
    pose proof (Z.mod_pos_bound a k Hk). pose proof (Z.mod_pos_bound b k Hk).
    rewrite (Z.div_mod a k), (Z.div_mod b k) by lia. nia.
Qed.

Lemma digitChar_compare a b :
  0 <= a <= 9 -> 0 <= b <= 9 ->
  Ascii.compare (digitChar a) (digitChar b) = (a ?= b).
Proof.
  intros Ha Hb. unfold Ascii.compare, digitChar.
  rewrite !N_ascii_embedding by lia.
  destruct (Z.compare_spec a b);
    [apply N.compare_eq_iff|apply N.compare_lt_iff|apply N.compare_gt_iff]; lia.
Qed.

Lemma pad2_compare a b s1 s2 :
  0 <= a < 100 -> 0 <= b < 100 ->
  String.compare (pad2 a s1) (pad2 b s2)
  = thenCompare (a ?= b) (String.compare s1 s2).
Proof.
  intros Ha Hb. unfold pad2. cbn [String.compare].
  rewrite !digitChar_compare by (Z.div_mod_to_equations; lia).
  rewrite (lex_div 10 a b) by lia. unfold thenCompare.
  destruct (a / 10 ?= b / 10); [|reflexivity|reflexivity].
  destruct (a mod 10 ?= b mod 10); reflexivity.
Qed.

Lemma pad3_compare a b s1 s2 :
  0 <= a < 1000 -> 0 <= b < 1000 ->
  String.compare (pad3 a s1) (pad3 b s2)
  = thenCompare (a ?= b) (String.compare s1 s2).
Proof.
  intros Ha Hb. unfold pad3. cbn [String.compare].
  rewrite digitChar_compare by (Z.div_mod_to_equations; lia).
  rewrite pad2_compare by (Z.div_mod_to_equations; lia).
  rewrite (lex_div 100 a b) by lia. unfold thenCompare.
  destruct (a / 100 ?= b / 100); [|reflexivity|reflexivity].
  destruct (a mod 100 ?= b mod 100); reflexivity.
Qed.

Lemma pad4_compare a b s1 s2 :
  0 <= a < 10000 -> 0 <= b < 10000 ->
  String.compare (pad4 a s1) (pad4 b s2)
  = thenCompare (a ?= b) (String.compare s1 s2).
Proof.
  intros Ha Hb. unfold pad4. cbn [String.compare].
  rewrite digitChar_compare by (Z.div_mod_to_equations; lia).
  rewrite pad3_compare by (Z.div_mod_to_equations; lia).
  rewrite (lex_div 1000 a b) by lia. unfold thenCompare.
  destruct (a / 1000 ?= b / 1000); [|reflexivity|reflexivity].
  destruct (a mod 1000 ?= b mod 1000); reflexivity.
Qed.

Lemma separator_compare (c : ascii) s1 s2 :
  String.compare (String c s1) (String c s2) = String.compare s1 s2.
Proof.
  cbn [String.compare].
  replace (Ascii.compare c c) with Eq; [reflexivity|].
  symmetry. unfold Ascii.compare. apply N.compare_refl.
Qed.

Lemma secondText_compare a b s1 s2 :
  0 <= a < 86400 -> 0 <= b < 86400 ->
  String.compare (secondText a s1) (secondText b s2)
  = thenCompare (a ?= b) (String.compare s1 s2).
Proof.
  intros Ha Hb. unfold secondText.
  rewrite pad2_compare, separator_compare, pad2_compare, separator_compare,
    pad2_compare by (Z.div_mod_to_equations; lia).
  rewrite (lex_div 3600 a b) by lia.
  rewrite (lex_div 60 (a mod 3600) (b mod 3600)) by lia.
  replace (a mod 3600 mod 60) with (a mod 60)
    by (Z.div_mod_to_equations; lia).
  replace (b mod 3600 mod 60) with (b mod 60)
    by (Z.div_mod_to_equations; lia).
  unfold thenCompare.
  repeat match goal with
         | |- context [match ?c with Eq => _ | Lt => _ | Gt => _ end] =>
             destruct c; try reflexivity
         end.
Qed.

Lemma timeText_compare a b :
  0 <= a < MS_PER_DAY -> 0 <= b < MS_PER_DAY ->
  String.compare (timeText a) (timeText b) = (a ?= b).
Proof.
  unfold MS_PER_DAY, MS_PER_MINUTE. intros Ha Hb. unfold timeText.
  rewrite secondText_compare, separator_compare, pad3_compare
    by (Z.div_mod_to_equations; lia).
  rewrite (lex_div 1000 a b) by lia.
  unfold thenCompare. cbn [String.compare].
  destruct (a / 1000 ?= b / 1000); try reflexivity.
  destruct (a mod 1000 ?= b mod 1000); reflexivity.
Qed.

Lemma dateText_compare c1 c2 s1 s2 :
  0 <= cd_year c1 < 10000 -> 0 <= cd_year c2 < 10000 ->
  0 <= cd_month c1 < 100 -> 0 <= cd_month c2 < 100 ->
  0 <= cd_day c1 < 100 -> 0 <= cd_day c2 < 100 ->
  String.compare (dateText c1 s1) (dateText c2 s2)
  = thenCompare (compareDates c1 c2) (String.compare s1 s2).
Proof.
  intros. unfold dateText, compareDates.
  rewrite pad4_compare, separator_compare, pad2_compare, separator_compare,
    pad2_compare by assumption.
  unfold thenCompare.
  repeat match goal with
         | |- context [match ?c with Eq => _ | Lt => _ | Gt => _ end] =>
             destruct c; try reflexivity
         end.
Qed.

Lemma daysInMonth_bounds y m : 28 <= daysInMonth y m <= 31.
Proof.
  unfold daysInMonth. destruct (m =? 2); [destruct (isLeapYear y); lia|].
  destruct (_ || _); lia.
Qed.

Lemma nextDay_valid c : validDate c -> validDate (nextDay c).
Proof.
  unfold validDate, nextDay. intros [Hy [Hm Hd]].
  destruct (cd_day c <? daysInMonth (cd_year c) (cd_month c)) eqn:E.
  - apply Z.ltb_lt in E. cbn. lia.
  - destruct (cd_month c <? 12) eqn:F; cbn.
    + apply Z.ltb_lt in F.
      pose proof (daysInMonth_bounds (cd_year c) (cd_month c + 1)). lia.
    + pose proof (daysInMonth_bounds (cd_year c + 1) 1). lia.
Qed.

Lemma nextDay_later c : validDate c -> compareDates c (nextDay c) = Lt.
Proof.
  unfold validDate, nextDay, compareDates, thenCompare. intros [Hy [Hm Hd]].
  destruct (cd_day c <? daysInMonth (cd_year c) (cd_month c)) eqn:E.
  - cbn. rewrite !Z.compare_refl. apply Z.compare_lt_iff. lia.
  - destruct (cd_month c <? 12) eqn:F; cbn.
    + rewrite Z.compare_refl.
      replace (cd_month c ?= cd_month c + 1) with Lt; [reflexivity|].
      symmetry. apply Z.compare_lt_iff. lia.
    + replace (cd_year c ?= cd_year c + 1) with Lt; [reflexivity|].
      symmetry. apply Z.compare_lt_iff. lia.
Qed.

Lemma compareDates_Lt a b :
  compareDates a b = Lt
  <-> cd_year a < cd_year b
      \/ (cd_year a = cd_year b
          /\ (cd_month a < cd_month b
              \/ (cd_month a = cd_month b /\ cd_day a < cd_day b))).
Proof.
  unfold compareDates, thenCompare.
  destruct (Z.compare_spec (cd_year a) (cd_year b));
    destruct (Z.compare_spec (cd_month a) (cd_month b));
    destruct (Z.compare_spec (cd_day a) (cd_day b));
    split; intros; try discriminate; try reflexivity; lia.
Qed.

Lemma compareDates_trans a b c :
  compareDates a b = Lt -> compareDates b c = Lt -> compareDates a c = Lt.
Proof. rewrite !compareDates_Lt. lia. Qed.

Lemma civilFromDays_succ n :
  0 <= n -> civilFromDays (n + 1) = nextDay (civilFromDays n).
Proof.
  intros H. unfold civilFromDays. destruct n as [|p|p]; [reflexivity| |lia].
  cbn [Z.add Z.iter]. rewrite Pos.add_1_r. apply Pos.iter_succ.
Qed.

Lemma civilFromDays_valid n : validDate (civilFromDays n).
Proof.
  destruct (Z.lt_ge_cases n 0) as [Hneg|Hpos].
  - destruct n; try lia. unfold validDate. cbn. lia.
  - revert n Hpos. apply natlike_ind.
    + unfold validDate. cbn. lia.
    + intros n Hn IH. unfold Z.succ. rewrite civilFromDays_succ by exact Hn.
      apply nextDay_valid. exact IH.
Qed.

Lemma civilFromDays_later n k :
  0 <= n -> 0 <= k ->
  compareDates (civilFromDays n) (civilFromDays (n + 1 + k)) = Lt.
Proof.
  intros Hn. revert k. apply natlike_ind.
  - rewrite Z.add_0_r, civilFromDays_succ by exact Hn.
    apply nextDay_later, civilFromDays_valid.
  - intros k Hk IH. unfold Z.succ. rewrite Z.add_assoc.
    rewrite civilFromDays_succ by lia.
    apply (compareDates_trans _ _ _ IH).
    apply nextDay_later, civilFromDays_valid.
Qed.

Lemma compareDates_refl a : compareDates a a = Eq.
Proof. unfold compareDates. rewrite !Z.compare_refl. reflexivity. Qed.

Lemma compareDates_antisym a b :
  compareDates a b = CompOpp (compareDates b a).
Proof.
  unfold compareDates, thenCompare.
  rewrite (Z.compare_antisym (cd_year a)), (Z.compare_antisym (cd_month a)),
    (Z.compare_antisym (cd_day a)).
  destruct (cd_year a ?= cd_year b), (cd_month a ?= cd_month b),
    (cd_day a ?= cd_day b); reflexivity.
Qed.

(** Dates follow the order of the days they belong to. *)
Lemma civilFromDays_compare n m :
  0 <= n -> 0 <= m ->
  compareDates (civilFromDays n) (civilFromDays m) = (n ?= m).
Proof.
  intros Hn Hm. destruct (Z.compare_spec n m) as [->|H|H].
  - apply compareDates_refl.
  - replace m with (n + 1 + (m - n - 1)) by lia.
    apply civilFromDays_later; lia.
  - rewrite compareDates_antisym.
    replace n with (m + 1 + (n - m - 1)) by lia.
    rewrite civilFromDays_later by lia. reflexivity.
Qed.

Lemma last_day_of_9999 :
  civilFromDays 2932896 = {| cd_year := 9999; cd_month := 12; cd_day := 31 |}.
Proof. vm_compute. reflexivity. Qed.

Lemma civilFromDays_bounds n :
  0 <= n <= 2932896 ->
  0 <= cd_year (civilFromDays n) < 10000
  /\ 0 <= cd_month (civilFromDays n) < 100
  /\ 0 <= cd_day (civilFromDays n) < 100.
Proof.
  intros Hn. destruct (civilFromDays_valid n) as [Hy [Hm Hd]].
  pose proof (daysInMonth_bounds (cd_year (civilFromDays n))
                (cd_month (civilFromDays n))).
  assert (Hle : cd_year (civilFromDays n) <= 9999).
  { pose proof (civilFromDays_compare n 2932896) as Hc.
    rewrite last_day_of_9999 in Hc.
    destruct (Z.compare_spec n 2932896) as [->|Hlt|Hgt]; [|
      |lia].
    - rewrite last_day_of_9999. cbn. lia.
    - assert (Hc' : compareDates (civilFromDays n)
                      {| cd_year := 9999; cd_month := 12; cd_day := 31 |} = Lt)
        by (apply Hc; lia).
      apply compareDates_Lt in Hc'. cbn in Hc'. lia. }
  lia.
Qed.

Lemma day_in_range t :
  fourDigitYear t -> 0 <= t / MS_PER_DAY <= 2932896.
Proof.
  unfold fourDigitYear, END_OF_9999, MS_PER_DAY, MS_PER_MINUTE. intros Ht.
  Z.div_mod_to_equations. lia.
Qed.

(** For instants from 1970 to the end of the year 9999, the order of the
    texts that [toISOString] writes is the order of the instants. *)
Lemma toISOString_compare a b :
  fourDigitYear a -> fourDigitYear b ->
  String.compare (toISOString a) (toISOString b) = (a ?= b).
Proof.
  intros Ha Hb. unfold toISOString.
  pose proof (day_in_range a Ha) as Hda. pose proof (day_in_range b Hb) as Hdb.
  destruct (civilFromDays_bounds _ Hda) as [? [? ?]].
  destruct (civilFromDays_bounds _ Hdb) as [? [? ?]].
  rewrite dateText_compare, separator_compare by assumption.
  rewrite timeText_compare
    by (apply Z.mod_pos_bound; unfold MS_PER_DAY, MS_PER_MINUTE; lia).
  rewrite civilFromDays_compare by lia.
  symmetry. apply lex_div. unfold MS_PER_DAY, MS_PER_MINUTE. lia.
Qed.

Lemma toISOString_ltb a b :
  fourDigitYear a -> fourDigitYear b ->
  String.ltb (toISOString a) (toISOString b) = (a <? b).
Proof.
  intros Ha Hb. unfold String.ltb, Z.ltb.
  rewrite toISOString_compare by assumption. reflexivity.
Qed.

(** The text without milliseconds sorts after every [toISOString] text of
    its own second, and like its second otherwise. *)
Lemma internetDateTime_ltb p now :
  fourDigitYear p -> fourDigitYear now ->
  String.ltb (internetDateTime p) (toISOString now) = (p / 1000 <? now / 1000).
Proof.
  intros Hp Hnow. unfold String.ltb, Z.ltb, internetDateTime, toISOString.
  pose proof (day_in_range p Hp) as Hdp.
  pose proof (day_in_range now Hnow) as Hdn.
  destruct (civilFromDays_bounds _ Hdp) as [? [? ?]].
  destruct (civilFromDays_bounds _ Hdn) as [? [? ?]].
  rewrite dateText_compare, separator_compare by assumption.
  unfold timeText.
  assert (Hday : 0 < MS_PER_DAY) by (unfold MS_PER_DAY, MS_PER_MINUTE; lia).
  pose proof (Z.mod_pos_bound p MS_PER_DAY Hday) as Hmp.
  pose proof (Z.mod_pos_bound now MS_PER_DAY Hday) as Hmn.
  unfold MS_PER_DAY, MS_PER_MINUTE in Hmp, Hmn.
  rewrite secondText_compare
    by (unfold MS_PER_DAY, MS_PER_MINUTE; Z.div_mod_to_equations; lia).
  rewrite civilFromDays_compare by lia.
  rewrite (lex_div 86400 (p / 1000) (now / 1000)) by lia.
  replace (p / 1000 / 86400) with (p / MS_PER_DAY)
    by (unfold MS_PER_DAY, MS_PER_MINUTE; Z.div_mod_to_equations; lia).
  replace (now / 1000 / 86400) with (now / MS_PER_DAY)
    by (unfold MS_PER_DAY, MS_PER_MINUTE; Z.div_mod_to_equations; lia).
  replace ((p / 1000) mod 86400) with (p mod MS_PER_DAY / 1000)
    by (unfold MS_PER_DAY, MS_PER_MINUTE; Z.div_mod_to_equations; lia).
  replace ((now / 1000) mod 86400) with (now mod MS_PER_DAY / 1000)
    by (unfold MS_PER_DAY, MS_PER_MINUTE; Z.div_mod_to_equations; lia).
  unfold thenCompare. cbn [String.compare].
  destruct (p / MS_PER_DAY ?= now / MS_PER_DAY); try reflexivity.
  destruct (p mod MS_PER_DAY / 1000 ?= now mod MS_PER_DAY / 1000); reflexivity.
Qed.

(** A pause text in either UTC form keeps its user out of the scans for as
    long as its instant has not passed. *)
Lemma writtenUTC_holds text p now :
  writtenUTC text p -> fourDigitYear p -> fourDigitYear now -> now <= p ->
  String.ltb text (toISOString now) = false.
Proof.
  intros [->| ->] Hp Hnow Hle.
  - rewrite toISOString_ltb by assumption. apply Z.ltb_ge. exact Hle.
  - rewrite internetDateTime_ltb by assumption. apply Z.ltb_ge.
    apply Z.div_le_mono; lia.
Qed.

(** ** Retry backoff *)

Lemma actualDelay_capped (retryCount : nat) :
  (5 <= retryCount)%nat -> Twilio.actualDelay retryCount = 30.
Proof.
  intros H. unfold Twilio.actualDelay, Twilio.Math_pow, Twilio.maxDelayMinutes.
  apply Z.min_r.
  assert (2 ^ 5 <= 2 ^ Z.of_nat retryCount) by (apply Z.pow_le_mono_r; lia).
  change (2 ^ 5) with 32 in *. lia.
Qed.

Lemma actualDelay_doubles (retryCount : nat) :
  (retryCount < 4)%nat ->
  Twilio.actualDelay (S retryCount) = 2 * Twilio.actualDelay retryCount.
Proof.
  intros H.
  do 4 (destruct retryCount as [|retryCount]; [reflexivity|]). lia.
Qed.

(** C3: the delay is [min(2^retry_count, 30)] minutes, which for retry
    counts 0..6 is 1, 2, 4, 8, 16, 30, 30, and the next retry is due that
    many minutes after now. *)
Theorem calculateNextRetry_backoff :
  (forall retryCount : nat,
      Twilio.actualDelay retryCount = Z.min (2 ^ Z.of_nat retryCount) 30)
  /\ map Twilio.actualDelay [0; 1; 2; 3; 4; 5; 6]%nat = [1; 2; 4; 8; 16; 30; 30]
  /\ (forall (now : Timestamp) (retryCount : nat),
         Twilio.calculateNextRetry now retryCount
         = now + Z.min (2 ^ Z.of_nat retryCount) 30 * MS_PER_MINUTE).
Proof.
  split; [|split]; reflexivity.
Qed.

(** ** Confirm *)

Ltac run := unfold try_catch, bind, ret, throw, getDB, putDB; cbn.

(** A confirm that resolves to a confirmed row answers from that row and
    leaves the world as it was. *)
Lemma confirm_found_confirmed env now user body w event :
  Checkin.findEvent (db w) user body = Some event ->
  status event = confirmed ->
  Checkin.confirm env now user body w
  = Returned (Json {| Checkin.r_event_id := event_id event;
                      Checkin.r_status := confirmed;
                      Checkin.r_confirmed_at := confirmed_at event;
                      Checkin.was_escalated := false;
                      Checkin.message := Some "Already confirmed"%string |}) w.
Proof.
  intros Hfind Hst. unfold Checkin.confirm. run.
  rewrite Hfind, Hst. reflexivity.
Qed.

(** C5: confirming an already confirmed event succeeds with the original
    [confirmed_at]; no row is written, no audit entry appended. *)
Theorem confirm_idempotent env now user body w event :
  Checkin.findEvent (db w) user body = Some event ->
  status event = confirmed ->
  exists r,
    Checkin.confirm env now user body w = Returned (Json r) w
    /\ Checkin.r_confirmed_at r = confirmed_at event
    /\ Checkin.r_event_id r = event_id event.
Proof.
  intros Hfind Hst. eexists. split.
  - apply confirm_found_confirmed; eassumption.
  - split; reflexivity.
Qed.

Lemma confirm_idempotent_witness :
  exists r,
    Checkin.confirm demoEnv (clock 9 20 0) alice
      {| Checkin.cr_event_id := Some "e1"%string;
         Checkin.cr_scheduled_at := None;
         Checkin.cr_confirmed_at := Some (clock 9 20 0) |}
      (storeWith [nineOClock confirmed (Some (clock 9 3 0)) 0] [] [])
    = Returned (Json r)
        (storeWith [nineOClock confirmed (Some (clock 9 3 0)) 0] [] [])
    /\ Checkin.r_confirmed_at r = Some (clock 9 3 0)
    /\ Checkin.r_event_id r = "e1"%string.
Proof.
  apply (confirm_idempotent demoEnv (clock 9 20 0) alice _
           (storeWith [nineOClock confirmed (Some (clock 9 3 0)) 0] [] [])
           (nineOClock confirmed (Some (clock 9 3 0)) 0));
    reflexivity.
Defined.

Lemma confirm_found_open env now user body w event :
  Checkin.findEvent (db w) user body = Some event ->
  status event <> confirmed ->
  exists msg,
    Checkin.confirm env now user body w
    = Returned (Json {| Checkin.r_event_id := event_id event;
                        Checkin.r_status := confirmed;
                        Checkin.r_confirmed_at := Some (confirmedAtOf body now);
                        Checkin.was_escalated :=
                          CheckinStatus_eqb (status event) alerted;
                        Checkin.message := msg |})
               (confirmedWorld env now user body w event).
Proof.
  intros Hfind Hst. unfold Checkin.confirm, confirmedWorld, confirmLog.
  unfold updateEvents, logEvent, generateUUID. run. rewrite Hfind.
  destruct (status event); try congruence; eexists; reflexivity.
Qed.

Lemma confirm_not_found env now user body w :
  Checkin.findEvent (db w) user body = None ->
  Checkin.confirm env now user body w
  = if slotTaken (db w) now user body
    then Returned (JsonError 500 "Confirmation failed")
                  {| db := db w; drawn := S (drawn w) |}
    else Returned (Json {| Checkin.r_event_id := randomUUID env (drawn w);
                           Checkin.r_status := confirmed;
                           Checkin.r_confirmed_at := Some (confirmedAtOf body now);
                           Checkin.was_escalated := false;
                           Checkin.message :=
                             Some "Check-in confirmed (new event created)"%string |})
                  (synthesizedWorld env now user body w).
Proof.
  intros Hfind. unfold Checkin.confirm, synthesizedWorld, confirmLog, slotTaken.
  unfold insertEvent, logEvent, generateUUID, idx_events_user_scheduled.
  run. rewrite Hfind. cbn.
  unfold scheduledTimeOf.
  destruct (existsb _ (checkin_events (db w))); reflexivity.
Qed.

Lemma confirm_stamped env now user body w :
  reachesWrite (db w) now user body ->
  stamped (confirmedAtOf body now) (Checkin.confirm env now user body w).
Proof.
  unfold reachesWrite. intros H.
  destruct (Checkin.findEvent (db w) user body) as [event|] eqn:Hfind.
  - destruct (confirm_found_open env now user body w event Hfind H) as [msg ->].
    cbn. split; [reflexivity|].
    exists (Checkin.setConfirmed (confirmedAtOf body now) now event).
    split; [|repeat split].
    apply in_map_iff. exists event. rewrite String.eqb_refl. split; [reflexivity|].
    unfold Checkin.findEvent in Hfind.
    destruct (truthy (Checkin.cr_event_id body)).
    + apply find_some in Hfind. tauto.
    + destruct (Checkin.cr_scheduled_at body).
      * apply find_some in Hfind. tauto.
      * assert (Hin : forall l e, mostRecent l = Some e -> In e l).
        { induction l as [|x l IH]; cbn; [discriminate|].
          intros e. destruct (mostRecent l) as [e'|].
          - destruct (scheduled_time x <? scheduled_time e');
              intros [= <-]; auto.
          - intros [= <-]; auto. }
        apply Hin in Hfind. apply filter_In in Hfind. tauto.
  - rewrite (confirm_not_found env now user body w Hfind), H.
    cbn. split; [reflexivity|].
    eexists. split; [apply in_or_app; right; left; reflexivity|].
    repeat split.
Qed.

(** C10, as amended: a confirm that reaches a write stores and returns the
    client's [confirmed_at] when the body carries one, and the server's
    clock reading when it carries none. *)
Theorem confirm_stamps_client_time env now user body w :
  reachesWrite (db w) now user body ->
  (forall t, Checkin.cr_confirmed_at body = Some t ->
             stamped t (Checkin.confirm env now user body w))
  /\ (Checkin.cr_confirmed_at body = None ->
      stamped now (Checkin.confirm env now user body w)).
Proof.
  intros H. pose proof (confirm_stamped env now user body w H) as Hs.
  unfold confirmedAtOf in Hs. split.
  - intros t Ht. rewrite Ht in Hs. exact Hs.
  - intros Hn. rewrite Hn in Hs. exact Hs.
Qed.

Lemma confirm_stamps_client_time_witness :
  (forall t, Checkin.cr_confirmed_at lateConfirm = Some t ->
             stamped t (Checkin.confirm demoEnv (clock 9 21 0) alice lateConfirm
                          (storeWith [nineOClock pending None 0] [] [])))
  /\ (Checkin.cr_confirmed_at lateConfirm = None ->
      stamped (clock 9 21 0)
              (Checkin.confirm demoEnv (clock 9 21 0) alice lateConfirm
                 (storeWith [nineOClock pending None 0] [] []))).
Proof.
  apply (confirm_stamps_client_time demoEnv (clock 9 21 0) alice lateConfirm
           (storeWith [nineOClock pending None 0] [] [])).
  unfold reachesWrite. cbn. discriminate.
Defined.

(** C10, as stated, fails on an already confirmed event: the answer carries
    the original 09:03 timestamp, not the 09:20 the client sent. *)
Lemma confirm_keeps_original_time :
  Checkin.cr_confirmed_at lateConfirm = Some (clock 9 20 0)
  /\ ~ stamped (clock 9 20 0)
         (Checkin.confirm demoEnv (clock 9 21 0) alice lateConfirm
            (storeWith [nineOClock confirmed (Some (clock 9 3 0)) 0] [] [])).
Proof.
  split; [reflexivity|].
  intros H. vm_compute in H. destruct H as [H _]. discriminate H.
Qed.

(** ** Not-found handling *)

(** A snooze whose [event_id] names no event of the user is answered 404 and
    writes nothing. *)
Lemma snooze_not_found env now user body w id :
  truthy (Checkin.sr_event_id body) = Some id ->
  Checkin.includes Checkin.snoozeMenu (Checkin.snoozeMinutesOf body) = true ->
  findOwn (db w) user id = None ->
  Checkin.snooze env now user body w
  = Returned (JsonError 404 "Event not found") w.
Proof.
  unfold findOwn. intros Hid Hmenu Hfind.
  unfold Checkin.snooze, try_catch. rewrite Hid, Hmenu.
  unfold bind, getDB, ret. cbn. rewrite Hfind. reflexivity.
Qed.

(** A confirm that finds no event synthesizes a confirmed row and logs it,
    as long as the row passes [idx_events_user_scheduled]. *)
Lemma confirm_synthesizes env now user body w :
  Checkin.findEvent (db w) user body = None ->
  slotTaken (db w) now user body = false ->
  exists r,
    Checkin.confirm env now user body w
    = Returned (Json r) (synthesizedWorld env now user body w)
    /\ Checkin.r_event_id r = randomUUID env (drawn w)
    /\ Checkin.r_status r = confirmed.
Proof.
  intros Hfind Hfree. rewrite (confirm_not_found env now user body w Hfind), Hfree.
  eexists. split; [reflexivity|]. split; reflexivity.
Qed.

(** C6: the confirm route does not always succeed when its lookup finds no
    event.  A bare confirm arriving at 09:00:00.000, when the 09:00 check-in
    is already confirmed, and a confirm with an unknown event id that is
    repeated, both have their synthesized row refused by the unique index on
    (user_id, scheduled_time); the route answers 500 and logs nothing. *)
Theorem confirm_synthesis_refused :
  (Checkin.findEvent
     (db (storeWith [nineOClock confirmed (Some (clock 8 59 40)) 0] [] []))
     alice bareConfirm = None
   /\ Checkin.confirm demoEnv (clock 9 0 0) alice bareConfirm
        (storeWith [nineOClock confirmed (Some (clock 8 59 40)) 0] [] [])
      = Returned (JsonError 500 "Confirmation failed")
          {| db := db (storeWith [nineOClock confirmed (Some (clock 8 59 40)) 0] [] []);
             drawn := 1 |})
  /\ (exists r w1,
        Checkin.confirm demoEnv (clock 9 2 1) alice staleConfirm (storeWith [] [] [])
        = Returned (Json r) w1
        /\ Checkin.findEvent (db w1) alice staleConfirm = None
        /\ Checkin.confirm demoEnv (clock 9 2 2) alice staleConfirm w1
           = Returned (JsonError 500 "Confirmation failed")
               {| db := db w1; drawn := S (drawn w1) |}).
Proof.
  split.
  - split; reflexivity.
  - eexists. eexists. split; [reflexivity|]. split; reflexivity.
Qed.

(** ** Snooze *)

Lemma find_map_same {A} (p : A -> bool) (f : A -> A) (l : list A) :
  (forall x, p (f x) = p x) ->
  find p (map f l) = option_map f (find p l).
Proof.
  intros Hp. induction l as [|x l IH]; cbn; [reflexivity|].
  rewrite Hp. destruct (p x); [reflexivity|exact IH].
Qed.

Lemma snooze_accepted env now user body w event :
  snoozable (Checkin.snoozeMinutesOf body) (db w) user body = Some event ->
  Checkin.snooze env now user body w
  = Returned
      (Json {| Checkin.s_event_id := event_id event;
               Checkin.s_status := snoozed;
               Checkin.s_snoozed_until :=
                 deadline_time event + Checkin.snoozeMinutesOf body * 60 * 1000;
               Checkin.original_deadline := deadline_time event;
               Checkin.new_deadline :=
                 deadline_time event + Checkin.snoozeMinutesOf body * 60 * 1000 |})
      (snoozedWorld env now user (Checkin.snoozeMinutesOf body) w event).
Proof.
  unfold snoozable, findOwn. intros H.
  unfold Checkin.snooze, try_catch.
  destruct (truthy (Checkin.sr_event_id body)) as [id|]; [|discriminate].
  unfold bind at 1. unfold getDB at 1. cbv beta iota.
  destruct (find _ (checkin_events (db w))) as [e|] eqn:Hfind; [|discriminate].
  destruct (isOpen (status e)) eqn:Hopen; [|discriminate].
  destruct (snooze_count e <? 1) eqn:Hcount; [|discriminate].
  change (Checkin.includes [5; 10; 15; 30]) with
    (Checkin.includes Checkin.snoozeMenu) in H.
  destruct (Checkin.includes Checkin.snoozeMenu _) eqn:Hmenu; [|discriminate].
  cbn in H. injection H as ->. cbn [negb].
  assert (Hge : (snooze_count event >=? 1) = false) by lia.
  rewrite Hfind, Hge, Hopen. reflexivity.
Qed.

Lemma snooze_rejected env now user body w :
  snoozable (Checkin.snoozeMinutesOf body) (db w) user body = None ->
  exists code err,
    Checkin.snooze env now user body w = Returned (JsonError code err) w.
Proof.
  unfold snoozable, findOwn. intros H.
  unfold Checkin.snooze, try_catch.
  destruct (truthy (Checkin.sr_event_id body)) as [id|];
    [|do 2 eexists; reflexivity].
  change (Checkin.includes [5; 10; 15; 30]) with
    (Checkin.includes Checkin.snoozeMenu) in H.
  destruct (Checkin.includes Checkin.snoozeMenu _) eqn:Hmenu;
    [|do 2 eexists; reflexivity].
  cbn [negb].
  destruct (find _ (checkin_events (db w))) as [e|] eqn:Hfind.
  - unfold bind at 1. unfold getDB at 1. cbv beta iota. rewrite Hfind.
    destruct (snooze_count e >=? 1) eqn:Hge; [do 2 eexists; reflexivity|].
    destruct (isOpen (status e)) eqn:Hopen; [|do 2 eexists; reflexivity].
    assert (Hlt : (snooze_count e <? 1) = true) by lia.
    rewrite Hlt in H. discriminate.
  - unfold bind at 1. unfold getDB at 1. cbv beta iota. rewrite Hfind.
    do 2 eexists; reflexivity.
Qed.

Lemma snooze_over_cap env now user body w id event :
  truthy (Checkin.sr_event_id body) = Some id ->
  Checkin.includes Checkin.snoozeMenu (Checkin.snoozeMinutesOf body) = true ->
  findOwn (db w) user id = Some event ->
  1 <= snooze_count event ->
  Checkin.snooze env now user body w
  = Returned (JsonError 400 "Already snoozed") w.
Proof.
  unfold findOwn. intros Hid Hmenu Hfind Hcap.
  unfold Checkin.snooze, try_catch. rewrite Hid, Hmenu.
  unfold bind, getDB, ret. cbn. rewrite Hfind.
  assert (Hge : (snooze_count event >=? 1) = true) by lia.
  rewrite Hge. reflexivity.
Qed.

Lemma snoozable_own minutes d user body event :
  snoozable minutes d user body = Some event ->
  findOwn d user (event_id event) = Some event.
Proof.
  unfold snoozable. destruct (truthy (Checkin.sr_event_id body)) as [id|];
    [|discriminate].
  destruct (findOwn d user id) as [e|] eqn:Hfind; [|discriminate].
  destruct (_ && _); [|discriminate]. intros [= <-].
  pose proof Hfind as Hid. unfold findOwn in Hid. apply find_some in Hid.
  destruct Hid as [_ Hid]. apply andb_prop in Hid. destruct Hid as [Hid _].
  apply String.eqb_eq in Hid. rewrite Hid. exact Hfind.
Qed.

(** C4, as amended: with the minutes the route works with (the requested
    ones, or 10 when the body gives none or gives 0), a snooze succeeds
    exactly when the event exists for the user, is pending or snoozed, has
    [snooze_count] below 1 and the minutes are 5, 10, 15 or 30.  On success
    the deadline moves by those minutes, the status is snoozed and the count
    goes up by one; every rejection leaves the world untouched, and the
    over-cap one answers 400 "Already snoozed". *)
Theorem snooze_contract env now user body w :
  match snoozable (Checkin.snoozeMinutesOf body) (db w) user body with
  | Some event =>
      exists r w' e',
        Checkin.snooze env now user body w = Returned (Json r) w'
        /\ Checkin.new_deadline r
           = deadline_time event + Checkin.snoozeMinutesOf body * 60 * 1000
        /\ findOwn (db w') user (event_id event) = Some e'
        /\ deadline_time e'
           = deadline_time event + Checkin.snoozeMinutesOf body * 60 * 1000
        /\ status e' = snoozed
        /\ snooze_count e' = snooze_count event + 1
  | None =>
      exists code err,
        Checkin.snooze env now user body w = Returned (JsonError code err) w
  end
  /\ (forall id event,
         truthy (Checkin.sr_event_id body) = Some id ->
         Checkin.includes [5; 10; 15; 30] (Checkin.snoozeMinutesOf body) = true ->
         findOwn (db w) user id = Some event ->
         1 <= snooze_count event ->
         Checkin.snooze env now user body w
         = Returned (JsonError 400 "Already snoozed") w)
  /\ Checkin.snoozeMinutesOf body
     = match Checkin.sr_snooze_minutes body with
       | Some 0 | None => 10
       | Some m => m
       end.
Proof.
  split; [|split; [|reflexivity]].
  - destruct (snoozable _ (db w) user body) as [event|] eqn:Hs.
    + rewrite (snooze_accepted env now user body w event Hs).
      do 3 eexists. split; [reflexivity|]. split; [reflexivity|].
      split.
      * unfold findOwn, snoozedWorld. cbn [db checkin_events withLogs withEvents].
        rewrite find_map_same.
        -- apply snoozable_own in Hs. unfold findOwn in Hs. rewrite Hs. cbn.
           rewrite String.eqb_refl. reflexivity.
        -- intros x. destruct (event_id x =? event_id event)%string eqn:E;
             cbn; rewrite ?E; reflexivity.
      * repeat split.
    + apply snooze_rejected. exact Hs.
  - intros id event Hid Hmenu Hfind Hcap.
    eapply snooze_over_cap; eassumption.
Qed.

(** C4, as stated, fails: a request that names no minutes, or names 0, is
    not one whose requested minutes are on the menu, yet the route snoozes
    the event, by ten minutes. *)
Lemma snooze_defaults_to_ten :
  snoozable (requestedMinutes snoozeNoMinutes)
            (db (storeWith [nineOClock pending None 0] [] []))
            alice snoozeNoMinutes = None
  /\ answeredOk (Checkin.snooze demoEnv (clock 9 5 0) alice snoozeNoMinutes
                   (storeWith [nineOClock pending None 0] [] [])) = true
  /\ snoozable (requestedMinutes snoozeZeroMinutes)
               (db (storeWith [nineOClock pending None 0] [] []))
               alice snoozeZeroMinutes = None
  /\ map deadline_time
       (checkin_events
          (db (worldOf (Checkin.snooze demoEnv (clock 9 5 0) alice snoozeZeroMinutes
                          (storeWith [nineOClock pending None 0] [] [])))))
     = [clock 9 20 0].
Proof.
  repeat split.
Qed.

(** ** Frame reasoning for the tick handlers *)

Section Frame.

Context (R : relation DB) {R_preorder : PreOrder R}.

Lemma keeps_ret {A} (a : A) : keeps R (ret a).
Proof. intros w. cbn. reflexivity. Qed.

Lemma keeps_throw {A} (e : string) : keeps R (@throw A e).
Proof. intros w. cbn. reflexivity. Qed.

Lemma keeps_getDB : keeps R getDB.
Proof. intros w. cbn. reflexivity. Qed.

Lemma keeps_generateUUID env : keeps R (generateUUID env).
Proof. intros w. cbn. reflexivity. Qed.

Lemma keeps_bind {A B} (m : Eff A) (k : A -> Eff B) :
  keeps R m -> (forall a, keeps R (k a)) -> keeps R (bind m k).
Proof.
  intros Hm Hk w. unfold bind. specialize (Hm w).
  destruct (m w) as [a w'|e w']; cbn in *; [|exact Hm].
  etransitivity; [exact Hm|apply Hk].
Qed.

Lemma keeps_try_catch {A} (body : Eff A) (handler : string -> Eff A) :
  keeps R body -> (forall e, keeps R (handler e)) -> keeps R (try_catch body handler).
Proof.
  intros Hb Hh w. unfold try_catch. specialize (Hb w).
  destruct (body w) as [a w'|e w']; cbn in *; [exact Hb|].
  etransitivity; [exact Hb|apply Hh].
Qed.

Lemma keeps_forEach {A} (l : list A) (body : A -> Eff unit) :
  (forall x, In x l -> keeps R (body x)) -> keeps R (Scheduler.forEach l body).
Proof.
  induction l as [|x l IH]; intros H; cbn.
  - apply keeps_ret.
  - apply keeps_bind; [apply H; left; reflexivity|].
    intros _. apply IH. intros y Hy. apply H. right. exact Hy.
Qed.

Lemma keeps_putDB_after (g : DB -> DB) :
  (forall d, R d (g d)) -> keeps R (bind getDB (fun d => putDB (g d))).
Proof. intros H w. cbn. apply H. Qed.

Lemma keeps_logEvent env userId eventId eventType eventTime res :
  (forall d ls, R d (withLogs d ls)) ->
  keeps R (logEvent env userId eventId eventType eventTime res).
Proof. intros H w. cbn. apply H. Qed.

Lemma keeps_updateEvents (p : CheckinEvent -> bool)
    (f : CheckinEvent -> CheckinEvent) :
  (forall d, R d (withEvents d (map (fun e => if p e then f e else e)
                                    (checkin_events d)))) ->
  keeps R (updateEvents p f).
Proof. intros H w. cbn. apply H. Qed.

Lemma keeps_insertEvent e :
  (forall d, idx_events_user_scheduled (checkin_events d) e = false ->
             R d (withEvents d (checkin_events d ++ [e]))) ->
  keeps R (insertEvent e).
Proof.
  intros H w. unfold insertEvent, bind, getDB.
  destruct (idx_events_user_scheduled (checkin_events (db w)) e) eqn:Hidx; cbn.
  - reflexivity.
  - apply H. exact Hidx.
Qed.

Lemma keeps_insertDelivery x :
  (forall d, idx_deliveries_event_contact (alert_deliveries d) x = false ->
             R d (withDeliveries d (alert_deliveries d ++ [x]))) ->
  keeps R (insertDelivery x).
Proof.
  intros H w. unfold insertDelivery, bind, getDB.
  destruct (idx_deliveries_event_contact (alert_deliveries (db w)) x) eqn:Hidx;
    cbn.
  - reflexivity.
  - apply H. exact Hidx.
Qed.

Lemma keeps_updateDelivery (id : string) (f : AlertDelivery -> AlertDelivery) :
  (forall d, R d (withDeliveries d
                    (map (fun x => if (delivery_id x =? id)%string then f x else x)
                         (alert_deliveries d)))) ->
  keeps R (updateDelivery id f).
Proof. intros H w. cbn. apply H. Qed.

End Frame.

#[export] Instance sameOn_preorder {B} (f : DB -> B) : PreOrder (sameOn f).
Proof.
  split.
  - intros d. reflexivity.
  - intros a b c Hab Hbc. unfold sameOn in *. congruence.
Qed.

Ltac frame_step :=
  lazymatch goal with
  | |- keeps _ (ret _) => apply keeps_ret; exact _
  | |- keeps _ (throw _) => apply keeps_throw; exact _
  | |- keeps _ getDB => apply keeps_getDB; exact _
  | |- keeps _ (generateUUID _) => apply keeps_generateUUID; exact _
  | |- keeps _ (bind _ _) => apply keeps_bind; [exact _ | | intros ?]
  | |- keeps _ (try_catch _ _) => apply keeps_try_catch; [exact _ | | intros ?]
  | |- keeps _ (logEvent _ _ _ _ _ _) => apply keeps_logEvent
  | |- keeps _ (updateEvents _ _) => apply keeps_updateEvents
  | |- keeps _ (insertEvent _) => apply keeps_insertEvent; [exact _ | ]
  | |- keeps _ (insertDelivery _) => apply keeps_insertDelivery; [exact _ | ]
  | |- keeps _ (updateDelivery _ _) => apply keeps_updateDelivery
  | |- keeps _ (if ?b then _ else _) => destruct b
  | |- keeps _ (match ?x with Some _ => _ | None => _ end) => destruct x
  | |- keeps _ (match ?x with PushReturned _ => _ | PushThrew => _ end) =>
      destruct x
  end.

Ltac frame := repeat frame_step.

(** ** Pause *)

Lemma createPendingEvent_other env now user slot uid :
  u_user_id user <> uid ->
  keeps (sameOn (eventsOf uid)) (Scheduler.createPendingEvent env now user slot).
Proof.
  intros Hne. unfold Scheduler.createPendingEvent. frame.
  - intros d _. unfold sameOn, eventsOf. cbn.
    rewrite filter_app. cbn.
    apply String.eqb_neq in Hne. rewrite Hne. apply app_nil_r.
  - intros d ls. reflexivity.
Qed.

Lemma processUser_other env now user uid :
  u_user_id user <> uid ->
  keeps (sameOn (eventsOf uid)) (Scheduler.processUser env now user).
Proof.
  intros Hne. unfold Scheduler.processUser. frame.
  apply keeps_forEach; [exact _|].
  intros slot _. unfold Scheduler.checkSlot. cbv zeta. frame.
  apply createPendingEvent_other. exact Hne.
Qed.

(** The scheduler scan creates nothing for a user whose stored pause text
    does not sort before [now.toISOString()]. *)
Lemma scan_skips_paused env now uid text w :
  pausedUntil (db w) uid text -> String.ltb text (toISOString now) = false ->
  eventsOf uid (db (worldOf (Scheduler.handleScheduledCheckins env now w)))
  = eventsOf uid (db w).
Proof.
  intros Hp Hnow.
  assert (H : keeps (sameOn (eventsOf uid))
                (Scheduler.forEach (filter (Scheduler.notPaused now) (users (db w)))
                                   (Scheduler.processUser env now))).
  { apply keeps_forEach; [exact _|]. intros u Hu. apply filter_In in Hu.
    destruct Hu as [Hin Hact]. apply processUser_other.
    intros Heq. unfold Scheduler.notPaused in Hact.
    rewrite (Hp u Hin Heq) in Hact. congruence. }
  exact (H w).
Qed.

(** ** Escalation touches one event row *)

Section DeliveryFrame.

Context (R : relation DB) {R_preorder : PreOrder R}.
Variable eventId : string.
Variable served : Contact -> Prop.
Hypothesis R_logs : forall d ls, R d (withLogs d ls).
Hypothesis R_insert :
  forall d x c,
    served c ->
    idx_deliveries_event_contact (alert_deliveries d) x = false ->
    d_event_id x = eventId -> d_contact_id x = c_contact_id c ->
    R d (withDeliveries d (alert_deliveries d ++ [x])).
Hypothesis R_update :
  forall d id (f : AlertDelivery -> AlertDelivery),
    (forall x, keyOf (f x) = keyOf x) ->
    R d (withDeliveries d
           (map (fun x => if (delivery_id x =? id)%string then f x else x)
                (alert_deliveries d))).

Lemma notifyContact_keeps env now message contact acc :
  served contact ->
  keeps R (Scheduler.notifyContact env now eventId message contact acc).
Proof.
  intros Hc. unfold Scheduler.notifyContact, Scheduler.pushAlert. frame;
    try (intros d Hidx; apply (R_insert d _ contact Hc Hidx); reflexivity).
  all: cbv zeta; frame; intros d; apply R_update; intros x; reflexivity.
Qed.

Lemma notifyContacts_keeps env now message cs :
  Forall served cs ->
  forall acc, keeps R (Scheduler.notifyContacts env now eventId message cs acc).
Proof.
  induction 1 as [|c cs Hc Hcs IH]; intros acc; cbn.
  - apply keeps_ret; exact _.
  - frame.
    + apply notifyContact_keeps. exact Hc.
    + apply IH.
Qed.

Lemma alertContacts_keeps env now event u :
  (forall d, Forall served (Scheduler.contactsOf d event)) ->
  keeps R (Scheduler.alertContacts env now eventId event u).
Proof.
  intros Hserved. unfold Scheduler.alertContacts. frame; try apply R_logs.
  match goal with
  | |- keeps _ (match Scheduler.contactsOf ?d _ with _ => _ end) =>
      pose proof (Hserved d) as Hcs;
      destruct (Scheduler.contactsOf d event) as [|c cs]
  end.
  - apply keeps_ret; exact _.
  - cbv zeta. frame; try apply R_logs. apply notifyContacts_keeps. exact Hcs.
Qed.

End DeliveryFrame.

Lemma triggerEscalation_unfold env now id w :
  Scheduler.triggerEscalation env now id w
  = match Scheduler.findEventWithUser (db w) id with
    | Some (event, u) =>
        Scheduler.alertContacts env now id event u
          {| db := withEvents (db w)
                     (map (alertRow now id) (checkin_events (db w)));
             drawn := drawn w |}
    | None => Thrown "Event not found" w
    end.
Proof.
  unfold Scheduler.triggerEscalation, bind, getDB.
  destruct (Scheduler.findEventWithUser (db w) id) as [[event u]|];
    reflexivity.
Qed.

(** Whether it returns or throws, [triggerEscalation] either leaves the
    events table alone or sets the rows with the given id to alerted. *)
Lemma triggerEscalation_events env now id w :
  let w' := worldOf (Scheduler.triggerEscalation env now id w) in
  checkin_events (db w') = checkin_events (db w)
  \/ (Scheduler.findEventWithUser (db w) id <> None
      /\ checkin_events (db w') = map (alertRow now id) (checkin_events (db w))).
Proof.
  rewrite triggerEscalation_unfold.
  destruct (Scheduler.findEventWithUser (db w) id) as [[event u]|] eqn:Hfind.
  - right. split; [discriminate|].
    exact (alertContacts_keeps (sameOn checkin_events) id (fun _ => True)
             (fun _ _ => eq_refl) (fun _ _ _ _ _ _ _ => eq_refl)
             (fun _ _ _ _ => eq_refl)
             env now event u
             (fun d => proj2 (Forall_forall _ _) (fun _ _ => I)) _).
  - left. reflexivity.
Qed.

Lemma escalateOne_events env now x w :
  let w' := worldOf (Scheduler.escalateOne env now x w) in
  checkin_events (db w') = checkin_events (db w)
  \/ checkin_events (db w')
     = map (alertRow now (event_id x)) (checkin_events (db w)).
Proof.
  pose proof (triggerEscalation_events env now (event_id x) w) as H.
  unfold Scheduler.escalateOne, try_catch, bind.
  destruct (Scheduler.triggerEscalation env now (event_id x) w) as [r w1|e w1];
    cbn in *; tauto.
Qed.

Lemma NoDup_map_eq {A B} (f : A -> B) (l : list A) (a b : A) :
  NoDup (map f l) -> In a l -> In b l -> f a = f b -> a = b.
Proof.
  induction l as [|x l IH]; cbn; [tauto|].
  intros Hnd Ha Hb Hf. inversion Hnd as [|? ? Hnotin Hnd']; subst.
  destruct Ha as [<-|Ha], Hb as [<-|Hb]; auto.
  - exfalso. apply Hnotin. rewrite Hf. apply in_map. exact Hb.
  - exfalso. apply Hnotin. rewrite <- Hf. apply in_map. exact Ha.
Qed.

Lemma Forall2_map_in {A B} (R : A -> B -> Prop) (f : B -> B) (l : list A)
    (l' : list B) :
  (forall a b, In a l -> R a b -> R a (f b)) ->
  Forall2 R l l' -> Forall2 R l (map f l').
Proof.
  intros H HF. induction HF as [|a b l l' Hab HF IH]; cbn; constructor.
  - apply H; [left; reflexivity|exact Hab].
  - apply IH. intros a' b' Hin. apply H. right. exact Hin.
Qed.

Lemma Forall2_same {A} (R : A -> A -> Prop) (l : list A) :
  (forall a, R a a) -> Forall2 R l l.
Proof. intros H. induction l; constructor; auto. Qed.

Lemma escalated_step d0 now x e0 e :
  NoDup (map event_id (checkin_events d0)) ->
  In x (checkin_events d0) -> Scheduler.overdue d0 now x = true ->
  In e0 (checkin_events d0) ->
  escalated d0 now e0 e -> escalated d0 now e0 (alertRow now (event_id x) e).
Proof.
  intros Hnd Hx Hover He0 Hesc. unfold alertRow.
  destruct (event_id e =? event_id x)%string eqn:Hid; [|exact Hesc].
  apply String.eqb_eq in Hid. right.
  assert (e0 = x) as ->.
  { apply (NoDup_map_eq event_id (checkin_events d0)); auto.
    destruct Hesc as [->|[_ ->]]; exact Hid. }
  split; [exact Hover|].
  destruct Hesc as [->|[_ ->]]; reflexivity.
Qed.

Lemma escalation_loop env now d0 (L : list CheckinEvent) :
  NoDup (map event_id (checkin_events d0)) ->
  (forall x, In x L ->
             In x (checkin_events d0) /\ Scheduler.overdue d0 now x = true) ->
  forall w,
    Forall2 (escalated d0 now) (checkin_events d0) (checkin_events (db w)) ->
    Forall2 (escalated d0 now) (checkin_events d0)
      (checkin_events
         (db (worldOf (Scheduler.forEach L (Scheduler.escalateOne env now) w)))).
Proof.
  intros Hnd. induction L as [|x L IH]; intros HL w Hinv; cbn.
  - exact Hinv.
  - assert (Hstep : Forall2 (escalated d0 now) (checkin_events d0)
                      (checkin_events
                         (db (worldOf (Scheduler.escalateOne env now x w))))).
    { destruct (escalateOne_events env now x w) as [-> | ->]; [exact Hinv|].
      apply Forall2_map_in; [|exact Hinv].
      intros e0 e He0 Hesc. destruct (HL x (or_introl eq_refl)) as [Hx Hover].
      apply escalated_step; assumption. }
    unfold bind.
    destruct (Scheduler.escalateOne env now x w) as [[] w1|e w1]; cbn in *.
    + apply IH; [|exact Hstep]. intros y Hy. apply HL. right. exact Hy.
    + exact Hstep.
Qed.

(** Each row after the escalation scan is the row before it, or the alerted
    copy of a row the scan selected as overdue. *)
Lemma handleEscalations_rows env now w :
  NoDup (map event_id (checkin_events (db w))) ->
  Forall2 (escalated (db w) now) (checkin_events (db w))
    (checkin_events (db (worldOf (Scheduler.handleEscalations env now w)))).
Proof.
  intros Hnd. unfold Scheduler.handleEscalations, bind, getDB.
  apply escalation_loop; [exact Hnd| |].
  - intros x Hx. apply filter_In in Hx. exact Hx.
  - apply Forall2_same. intros a. left. reflexivity.
Qed.

Lemma overdue_paused d uid text now e :
  pausedUntil d uid text -> String.ltb text (toISOString now) = false ->
  user_id e = uid ->
  Scheduler.overdue d now e = false.
Proof.
  intros Hp Hnow He. unfold Scheduler.overdue.
  destruct (existsb _ (users d)) eqn:Hex; [|apply andb_false_r].
  apply existsb_exists in Hex. destruct Hex as [u [Hin Hu]].
  apply andb_prop in Hu. destruct Hu as [Hid Hact].
  apply String.eqb_eq in Hid. unfold Scheduler.notPaused in Hact.
  rewrite (Hp u Hin) in Hact by congruence. congruence.
Qed.

Lemma Forall2_filter_user (R : CheckinEvent -> CheckinEvent -> Prop) uid l l' :
  (forall e e', R e e' -> user_id e' = user_id e) ->
  (forall e e', R e e' -> user_id e = uid -> e' = e) ->
  Forall2 R l l' ->
  filter (fun e => (user_id e =? uid)%string) l'
  = filter (fun e => (user_id e =? uid)%string) l.
Proof.
  intros Hid Hsame HF. induction HF as [|e e' l l' He HF IH]; cbn; [reflexivity|].
  rewrite (Hid e e' He).
  destruct (user_id e =? uid)%string eqn:Hu; [|exact IH].
  apply String.eqb_eq in Hu. rewrite (Hsame e e' He Hu), IH. reflexivity.
Qed.

(** The escalation scan leaves the events of such a user as they are. *)
Lemma escalation_skips_paused env now uid text w :
  pausedUntil (db w) uid text -> String.ltb text (toISOString now) = false ->
  NoDup (map event_id (checkin_events (db w))) ->
  eventsOf uid (db (worldOf (Scheduler.handleEscalations env now w)))
  = eventsOf uid (db w).
Proof.
  intros Hp Hnow Hnd. unfold eventsOf.
  apply (Forall2_filter_user (escalated (db w) now)).
  - intros e e' [->|[_ ->]]; reflexivity.
  - intros e e' [->|[Hover _]] Hu; [reflexivity|].
    rewrite (overdue_paused (db w) uid text now e Hp Hnow Hu) in Hover.
    discriminate.
  - apply handleEscalations_rows. exact Hnd.
Qed.

Lemma pause_sets env now user text w :
  accepted env now text = true ->
  Settings.pause env now user {| Settings.pause_until := Some text |} w
  = Returned (Json {| Settings.paused_flag := true;
                      Settings.r_pause_until := Some text |})
             (pausedWorld env now user text w).
Proof.
  unfold accepted. intros Hacc. destruct text as [|c rest]; [discriminate|].
  unfold Settings.pause, Settings.validatePause, try_catch.
  cbn [Settings.pause_until truthy].
  destruct (parseDate env (String c rest)) as [p|]; [|discriminate].
  assert (Hle : (p <=? now) = false) by lia. rewrite Hle. reflexivity.
Qed.

(** X28: an accepted pause request answers [paused: true], stores the
    client's text on the user and turns each pending or snoozed event of
    the user into a paused one, keeping its other columns but
    [updated_at]; every other row of the events table stays as it was. *)
Theorem pause_flips_open_events env now user text w :
  accepted env now text = true ->
  exists w',
    Settings.pause env now user {| Settings.pause_until := Some text |} w
    = Returned (Json {| Settings.paused_flag := true;
                        Settings.r_pause_until := Some text |}) w'
    /\ pausedUntil (db w') (u_user_id user) text
    /\ Forall2 (flipped now (u_user_id user))
               (checkin_events (db w)) (checkin_events (db w')).
Proof.
  intros Hacc. exists (pausedWorld env now user text w).
  split; [exact (pause_sets env now user text w Hacc)|]. split.
  - intros u Hin Hu. cbn in Hin. apply in_map_iff in Hin.
    destruct Hin as [u0 [<- _]]. unfold pauseUserRow in *.
    destruct (u_user_id u0 =? u_user_id user)%string eqn:E; [reflexivity|].
    apply String.eqb_neq in E. contradiction.
  - cbn [pausedWorld db checkin_events].
    induction (checkin_events (db w)) as [|e l IH]; cbn [map]; constructor;
      [|exact IH].
    unfold flipped, pauseRow.
    destruct ((user_id e =? u_user_id user)%string && isOpen (status e));
      [|reflexivity].
    cbn. repeat split; reflexivity.
Qed.

Lemma pause_flips_open_events_witness :
  exists w',
    Settings.pause demoEnv (clock 8 5 0) dana
      {| Settings.pause_until := Some fiveAMPacific |} danaAtEight
    = Returned (Json {| Settings.paused_flag := true;
                        Settings.r_pause_until := Some fiveAMPacific |}) w'
    /\ pausedUntil (db w') (u_user_id dana) fiveAMPacific
    /\ Forall2 (flipped (clock 8 5 0) (u_user_id dana))
               (checkin_events (db danaAtEight)) (checkin_events (db w')).
Proof.
  apply (pause_flips_open_events demoEnv (clock 8 5 0) dana fiveAMPacific
           danaAtEight).
  vm_compute. reflexivity.
Defined.

(** While the stored pause text does not sort before [now.toISOString()],
    the scheduler scan creates no event for the user, and the escalation
    scan selects none of the user's events and changes none of them. *)
Lemma held_pause_suppresses_scans env now uid text w :
  pausedUntil (db w) uid text ->
  String.ltb text (toISOString now) = false ->
  NoDup (map event_id (checkin_events (db w))) ->
  eventsOf uid (db (worldOf (Scheduler.handleScheduledCheckins env now w)))
  = eventsOf uid (db w)
  /\ Forall (fun e => user_id e <> uid)
            (filter (Scheduler.overdue (db w) now) (checkin_events (db w)))
  /\ eventsOf uid (db (worldOf (Scheduler.handleEscalations env now w)))
     = eventsOf uid (db w).
Proof.
  intros Hp Hnow Hnd. split; [|split].
  - exact (scan_skips_paused env now uid text w Hp Hnow).
  - apply Forall_forall. intros e He Hu. apply filter_In in He.
    destruct He as [_ Hover].
    rewrite (overdue_paused (db w) uid text now e Hp Hnow Hu) in Hover.
    discriminate.
  - exact (escalation_skips_paused env now uid text w Hp Hnow Hnd).
Qed.

(** X29: a pause written in UTC, with milliseconds as [toISOString] writes
    it or without them as the iOS client does, is honoured by both scans
    until its instant has passed: the scheduler scan creates no event for
    the user, and the escalation scan selects none of the user's events
    and changes none of them (event ids distinct). *)
Theorem utc_pause_suppresses_scans env now uid text p w :
  pausedUntil (db w) uid text ->
  writtenUTC text p -> fourDigitYear p -> fourDigitYear now ->
  now <= p ->
  NoDup (map event_id (checkin_events (db w))) ->
  eventsOf uid (db (worldOf (Scheduler.handleScheduledCheckins env now w)))
  = eventsOf uid (db w)
  /\ Forall (fun e => user_id e <> uid)
            (filter (Scheduler.overdue (db w) now) (checkin_events (db w)))
  /\ eventsOf uid (db (worldOf (Scheduler.handleEscalations env now w)))
     = eventsOf uid (db w).
Proof.
  intros Hp Hutc Hrp Hrn Hle Hnd.
  apply (held_pause_suppresses_scans env now uid text w Hp); [|exact Hnd].
  exact (writtenUTC_holds text p now Hutc Hrp Hrn Hle).
Qed.

Lemma utc_pause_suppresses_scans_witness :
  eventsOf "bob"
    (db (worldOf (Scheduler.handleScheduledCheckins demoEnv (clock 9 11 0) twoUsers)))
  = eventsOf "bob" (db twoUsers)
  /\ Forall (fun e => user_id e <> "bob"%string)
            (filter (Scheduler.overdue (db twoUsers) (clock 9 11 0))
                    (checkin_events (db twoUsers)))
  /\ eventsOf "bob"
       (db (worldOf (Scheduler.handleEscalations demoEnv (clock 9 11 0) twoUsers)))
     = eventsOf "bob" (db twoUsers).
Proof.
  apply (utc_pause_suppresses_scans demoEnv (clock 9 11 0) "bob" elevenPM
           (clock 23 0 0) twoUsers).
  - intros u [<-|[<-|[]]] Hu; [discriminate Hu|reflexivity].
  - left. vm_compute. reflexivity.
  - unfold fourDigitYear, END_OF_9999, clock, newYear. lia.
  - unfold fourDigitYear, END_OF_9999, clock, newYear. lia.
  - unfold clock. lia.
  - repeat constructor; cbn; intuition discriminate.
Defined.

(** C9: a pause whose [pause_until] lies in the future is not always
    honoured by the scans.  Dana pauses at 08:05 until 13:00 UTC, written
    as 05:00 at UTC-8.  The route reads the text as a date, finds it in the
    future and accepts it, stores the text as written and flips her pending
    08:00 check-in to paused; the pause query reports her paused at
    08:59:30 and at 09:11.  The scans compare the stored text with
    [now.toISOString()] byte by byte, where "...T05..." sorts before
    "...T08...": the 08:59:30 scan creates her 09:00 check-in and the 09:11
    scan escalates it and sends the SMS. *)
Theorem offset_pause_is_not_enforced :
  parseDate demoEnv fiveAMPacific = Some (clock 13 0 0)
  /\ Settings.pause demoEnv (clock 8 5 0) dana
       {| Settings.pause_until := Some fiveAMPacific |} danaAtEight
     = Returned (Json {| Settings.paused_flag := true;
                         Settings.r_pause_until := Some fiveAMPacific |})
                danaPaused
  /\ users (db danaPaused) = [pausedDana]
  /\ u_pause_until pausedDana = Some "2026-01-01T05:00:00-08:00"%string
  /\ map (fun e => (event_id e, scheduled_time e, status e))
         (checkin_events (db danaAtEight))
     = [("e8"%string, clock 8 0 0, pending)]
  /\ map (fun e => (event_id e, scheduled_time e, status e))
         (checkin_events (db danaPaused))
     = [("e8"%string, clock 8 0 0, paused)]
  /\ reportsPaused demoEnv (clock 8 59 30) pausedDana = true
  /\ reportsPaused demoEnv (clock 9 11 0) pausedDana = true
  /\ toISOString (clock 8 59 30) = "2026-01-01T08:59:30.000Z"%string
  /\ Scheduler.notPaused (clock 8 59 30) pausedDana = true
  /\ Scheduler.notPaused (clock 9 11 0) pausedDana = true
  /\ map (fun e => (user_id e, scheduled_time e, deadline_time e, status e))
         (checkin_events (db danaScheduled))
     = [("dana"%string, clock 8 0 0, clock 8 10 0, paused);
        ("dana"%string, clock 9 0 0, clock 9 10 0, pending)]
  /\ map (fun e => (user_id e, scheduled_time e, status e, escalated_at e))
         (checkin_events (db danaEscalated))
     = [("dana"%string, clock 8 0 0, paused, None);
        ("dana"%string, clock 9 0 0, alerted, Some (clock 9 11 0))]
  /\ map (fun x => (d_contact_id x, channel x, d_status x))
         (alert_deliveries (db danaEscalated))
     = [("c9"%string, sms, d_sent)].
Proof. vm_compute. repeat split. Qed.

(** At the 09:11 tick Alice's overdue check-in is escalated, Bob's is not. *)
Example escalation_scan_twoUsers :
  map status
    (checkin_events
       (db (worldOf (Scheduler.handleEscalations demoEnv (clock 9 11 0) twoUsers))))
  = [alerted; pending].
Proof. reflexivity. Qed.

(** ** The status machine *)

Lemma evolves_same step (l : list CheckinEvent) :
  (forall a, step a a) -> evolves step l l.
Proof.
  intros H. exists l, []. split; [symmetry; apply app_nil_r|].
  apply Forall2_same. intros e. split; [reflexivity|apply H].
Qed.

Lemma evolves_map step (f : CheckinEvent -> CheckinEvent)
    (l : list CheckinEvent) :
  (forall e, In e l -> moved step e (f e)) -> evolves step l (map f l).
Proof.
  intros H. exists (map f l), []. split; [symmetry; apply app_nil_r|].
  induction l as [|e l IH]; cbn; constructor.
  - apply H. left. reflexivity.
  - apply IH. intros e' He'. apply H. right. exact He'.
Qed.

Lemma confirm_evolves env now user body w :
  evolves confirmStep (checkin_events (db w))
    (checkin_events (db (worldOf (Checkin.confirm env now user body w)))).
Proof.
  destruct (Checkin.findEvent (db w) user body) as [event|] eqn:Hfind.
  - destruct (CheckinStatus_eqb (status event) confirmed) eqn:Hst.
    + assert (status event = confirmed) as Hc
        by (destruct (status event); (reflexivity || discriminate)).
      rewrite (confirm_found_confirmed env now user body w event Hfind Hc).
      apply evolves_same. intros a. left. reflexivity.
    + assert (status event <> confirmed) as Hc
        by (intros Hc; rewrite Hc in Hst; discriminate).
      destruct (confirm_found_open env now user body w event Hfind Hc) as [msg ->].
      cbn. apply evolves_map. intros e _.
      destruct (event_id e =? event_id event)%string.
      * split; [reflexivity|]. cbn.
        destruct (status e); try (right; split; [discriminate|reflexivity]).
        left. reflexivity.
      * split; [reflexivity|left; reflexivity].
  - rewrite (confirm_not_found env now user body w Hfind).
    destruct (slotTaken (db w) now user body); cbn.
    + apply evolves_same. intros a. left. reflexivity.
    + eexists _, _. split; [reflexivity|].
      apply Forall2_same. intros e. split; [reflexivity|left; reflexivity].
Qed.

Lemma snoozable_open minutes d user body event :
  snoozable minutes d user body = Some event ->
  In event (checkin_events d) /\ isOpen (status event) = true.
Proof.
  unfold snoozable, findOwn.
  destruct (truthy (Checkin.sr_event_id body)) as [id|]; [|discriminate].
  destruct (find _ (checkin_events d)) as [e|] eqn:Hfind; [|discriminate].
  destruct (isOpen (status e)) eqn:Ho; [|discriminate].
  destruct (_ && _); [|discriminate]. intros [= <-].
  apply find_some in Hfind. tauto.
Qed.

Lemma snooze_evolves env now user body w :
  NoDup (map event_id (checkin_events (db w))) ->
  evolves snoozeStep (checkin_events (db w))
    (checkin_events (db (worldOf (Checkin.snooze env now user body w)))).
Proof.
  intros Hnd.
  destruct (snoozable (Checkin.snoozeMinutesOf body) (db w) user body)
    as [event|] eqn:Hs.
  - rewrite (snooze_accepted env now user body w event Hs). cbn.
    apply snoozable_open in Hs. destruct Hs as [Hin Hopen].
    apply evolves_map. intros e He.
    destruct (event_id e =? event_id event)%string eqn:Hid.
    + apply String.eqb_eq in Hid.
      assert (e = event) as ->
        by (apply (NoDup_map_eq event_id (checkin_events (db w))); auto).
      split; [reflexivity|]. right. split; [exact Hopen|reflexivity].
    + split; [reflexivity|left; reflexivity].
  - destruct (snooze_rejected env now user body w Hs) as [code [err ->]].
    apply evolves_same. intros a. left. reflexivity.
Qed.

Lemma Forall2_impl {A B} (R S : A -> B -> Prop) (l : list A) (l' : list B) :
  (forall a b, R a b -> S a b) -> Forall2 R l l' -> Forall2 S l l'.
Proof. intros H HF. induction HF; constructor; auto. Qed.

Lemma handleEscalations_evolves env now w :
  NoDup (map event_id (checkin_events (db w))) ->
  evolves escalateStep (checkin_events (db w))
    (checkin_events (db (worldOf (Scheduler.handleEscalations env now w)))).
Proof.
  intros Hnd. eexists _, []. split; [symmetry; apply app_nil_r|].
  apply (Forall2_impl (escalated (db w) now)); [|apply handleEscalations_rows; exact Hnd].
  intros e e' [->|[Hover ->]].
  - split; [reflexivity|left; reflexivity].
  - split; [reflexivity|]. right. split; [|reflexivity].
    unfold Scheduler.overdue in Hover.
    apply andb_prop in Hover. destruct Hover as [Hover _].
    apply andb_prop in Hover. tauto.
Qed.

Lemma triggerEscalation_evolves env now id w :
  evolves triggerStep (checkin_events (db w))
    (checkin_events (db (worldOf (Scheduler.triggerEscalation env now id w)))).
Proof.
  destruct (triggerEscalation_events env now id w) as [-> | [_ ->]].
  - apply evolves_same. intros a. left. reflexivity.
  - apply evolves_map. intros e _. unfold alertRow.
    destruct (event_id e =? id)%string.
    + split; [reflexivity|right; reflexivity].
    + split; [reflexivity|left; reflexivity].
Qed.

(** C1, as amended: confirm moves a row only into confirmed, from any other
    status (flagging [was_escalated] when it was alerted); snooze moves only
    a pending or snoozed row, into snoozed; the escalation scan moves only
    a pending or snoozed row, into alerted.  So confirmed is terminal under
    all three, paused is left alone by snooze and by the scan, and every
    move is a legal one except confirm's paused -> confirmed.
    [triggerEscalation] called on its own sets alerted whatever the status
    was. *)
Theorem status_changes_by_operation env now w :
  NoDup (map event_id (checkin_events (db w))) ->
  (forall user body,
      evolves confirmStep (checkin_events (db w))
        (checkin_events (db (worldOf (Checkin.confirm env now user body w)))))
  /\ (forall user body,
         evolves snoozeStep (checkin_events (db w))
           (checkin_events (db (worldOf (Checkin.snooze env now user body w)))))
  /\ evolves escalateStep (checkin_events (db w))
       (checkin_events (db (worldOf (Scheduler.handleEscalations env now w))))
  /\ (forall id,
         evolves triggerStep (checkin_events (db w))
           (checkin_events (db (worldOf (Scheduler.triggerEscalation env now id w)))))
  /\ (forall user body event r w',
         Checkin.findEvent (db w) user body = Some event ->
         status event = alerted ->
         Checkin.confirm env now user body w = Returned (Json r) w' ->
         Checkin.was_escalated r = true)
  /\ (forall a b,
         confirmStep a b \/ snoozeStep a b \/ escalateStep a b ->
         follows a b \/ (a = paused /\ b = confirmed))
  /\ (forall b,
         (confirmStep confirmed b \/ snoozeStep confirmed b
          \/ escalateStep confirmed b -> b = confirmed)
         /\ (snoozeStep paused b \/ escalateStep paused b -> b = paused)).
Proof.
  intros Hnd. repeat apply conj.
  - intros user body. apply confirm_evolves.
  - intros user body. apply snooze_evolves. exact Hnd.
  - apply handleEscalations_evolves. exact Hnd.
  - intros id. apply triggerEscalation_evolves.
  - intros user body event r w' Hfind Hst Hrun.
    assert (Hc : status event <> confirmed) by (rewrite Hst; discriminate).
    destruct (confirm_found_open env now user body w event Hfind Hc) as [msg Heq].
    rewrite Heq in Hrun. injection Hrun as <- _. cbn. rewrite Hst. reflexivity.
  - unfold confirmStep, snoozeStep, escalateStep, follows.
    intros a b [[->|[Ha ->]] | [[->|[Ha ->]] | [->|[Ha ->]]]];
      try (left; left; reflexivity);
      destruct a; cbn in *; try discriminate; try congruence;
      try (left; left; reflexivity); try (left; right; reflexivity).
    right. split; reflexivity.
  - intros b. unfold confirmStep, snoozeStep, escalateStep. split.
    + intros [[<-|[Ha _]] | [[<-|[Ha _]] | [<-|[Ha _]]]];
        try reflexivity; try discriminate. congruence.
    + intros [[<-|[Ha _]] | [<-|[Ha _]]]; try reflexivity; discriminate.
Qed.

Lemma status_changes_by_operation_witness :
  (forall user body,
      evolves confirmStep (checkin_events (db twoUsers))
        (checkin_events
           (db (worldOf (Checkin.confirm demoEnv (clock 9 11 0) user body twoUsers)))))
  /\ (forall user body,
         evolves snoozeStep (checkin_events (db twoUsers))
           (checkin_events
              (db (worldOf (Checkin.snooze demoEnv (clock 9 11 0) user body twoUsers)))))
  /\ evolves escalateStep (checkin_events (db twoUsers))
       (checkin_events
          (db (worldOf (Scheduler.handleEscalations demoEnv (clock 9 11 0) twoUsers))))
  /\ (forall id,
         evolves triggerStep (checkin_events (db twoUsers))
           (checkin_events
              (db (worldOf (Scheduler.triggerEscalation demoEnv (clock 9 11 0) id
                              twoUsers)))))
  /\ (forall user body event r w',
         Checkin.findEvent (db twoUsers) user body = Some event ->
         status event = alerted ->
         Checkin.confirm demoEnv (clock 9 11 0) user body twoUsers
         = Returned (Json r) w' ->
         Checkin.was_escalated r = true)
  /\ (forall a b,
         confirmStep a b \/ snoozeStep a b \/ escalateStep a b ->
         follows a b \/ (a = paused /\ b = confirmed))
  /\ (forall b,
         (confirmStep confirmed b \/ snoozeStep confirmed b
          \/ escalateStep confirmed b -> b = confirmed)
         /\ (snoozeStep paused b \/ escalateStep paused b -> b = paused)).
Proof.
  apply (status_changes_by_operation demoEnv (clock 9 11 0) twoUsers).
  repeat constructor; cbn; intuition discriminate.
Defined.

(** C1, as stated, fails: paused is not terminal under confirm, and
    [triggerEscalation] called by id (as the debug route does) moves a
    confirmed event to alerted. *)
Lemma confirm_revives_paused :
  ~ follows paused confirmed
  /\ map status
       (checkin_events
          (db (worldOf (Checkin.confirm demoEnv (clock 10 0 1) alice confirmE1
                          (storeWith [nineOClock paused None 0] [] [])))))
     = [confirmed]
  /\ ~ follows confirmed alerted
  /\ map status
       (checkin_events
          (db (worldOf (Scheduler.triggerEscalation demoEnv (clock 10 0 1) "e1"
                          (storeWith [nineOClock confirmed (Some (clock 9 1 0)) 0]
                                     [] [])))))
     = [alerted].
Proof.
  unfold follows. repeat split; try reflexivity;
    intros [H|H]; discriminate H.
Qed.

(** ** The scheduler scan *)

#[export] Instance appended_preorder P now : PreOrder (appended P now).
Proof.
  split.
  - intros d. exists []. split; [symmetry; apply app_nil_r|constructor].
  - intros a b c [l1 [H1 F1]] [l2 [H2 F2]]. exists (l1 ++ l2). split.
    + rewrite H2, H1. symmetry. apply app_assoc.
    + apply Forall_app. split; assumption.
Qed.

Lemma appended_same P now d d' :
  checkin_events d' = checkin_events d -> appended P now d d'.
Proof.
  intros H. exists []. split; [rewrite H; symmetry; apply app_nil_r|constructor].
Qed.

Lemma createPendingEvent_appends env now user slot :
  In slot (u_checkin_times user) ->
  Scheduler.isTimeMatch (toTimeString now) slot = true ->
  keeps (appended (eq user) now)
        (Scheduler.createPendingEvent env now user slot).
Proof.
  intros Hslot Hmatch. unfold Scheduler.createPendingEvent.
  apply keeps_bind; [exact _|apply keeps_generateUUID; exact _|].
  intros eventId. cbv zeta.
  destruct (setHours now (hh slot) (mm slot) <? now) eqn:Hpast;
    [apply keeps_ret; exact _|].
  frame; try (intros; apply appended_same; reflexivity).
  intros d _. eexists. split; [reflexivity|].
  constructor; [|constructor].
  exists user, slot. cbn. apply Z.ltb_ge in Hpast. repeat split; auto.
Qed.

Lemma processUser_appends env now user :
  keeps (appended (eq user) now) (Scheduler.processUser env now user).
Proof.
  unfold Scheduler.processUser. frame.
  apply keeps_forEach; [exact _|]. intros slot Hslot.
  unfold Scheduler.checkSlot. cbv zeta.
  destruct (Scheduler.isTimeMatch (toTimeString now) slot) eqn:Hmatch; frame.
  apply createPendingEvent_appends; assumption.
Qed.

Lemma keeps_weaken (R S : relation DB) {A} (m : Eff A) :
  (forall d d', R d d' -> S d d') -> keeps R m -> keeps S m.
Proof. intros H Hm w. apply H, Hm. Qed.

Lemma created_weaken (P Q : User -> Prop) now e :
  (forall u, P u -> Q u) -> created P now e -> created Q now e.
Proof.
  intros H [u [slot [Hu Hrest]]]. exists u, slot. split; [apply H, Hu|exact Hrest].
Qed.

(** The scan only appends rows, each one [created] for an active user. *)
Lemma scan_appends env now w :
  appended (activeIn (db w) now) now (db w)
    (db (worldOf (Scheduler.handleScheduledCheckins env now w))).
Proof.
  assert (H : keeps (appended (activeIn (db w) now) now)
                (Scheduler.forEach (filter (Scheduler.notPaused now) (users (db w)))
                                   (Scheduler.processUser env now))).
  { apply keeps_forEach; [exact _|]. intros u Hu. apply filter_In in Hu.
    apply (keeps_weaken (appended (eq u) now)); [|apply processUser_appends].
    intros d d' [added [Heq HF]]. exists added. split; [exact Heq|].
    eapply Forall_impl; [|exact HF].
    intros e. apply created_weaken. intros u' <-. exact Hu. }
  exact (H w).
Qed.

Ltac clock_arith :=
  unfold setHours, startOfDay, toTimeString, MS_PER_DAY, MS_PER_MINUTE in *;
  cbn [hh mm] in *; Z.div_mod_to_equations; lia.

Lemma startOfDay_setHours now s :
  validSlot s -> startOfDay now <= setHours now (hh s) (mm s).
Proof. intros [Hh Hm]. clock_arith. Qed.

Lemma toTimeString_setHours now s :
  validSlot s -> toTimeString (setHours now (hh s) (mm s)) = s.
Proof.
  intros [Hh Hm]. destruct s as [h m]. cbn [hh mm] in *.
  assert (Hmod : setHours now h m mod MS_PER_DAY = (h * 60 + m) * MS_PER_MINUTE).
  { unfold setHours, startOfDay.
    replace (now - now mod MS_PER_DAY + (h * 60 + m) * MS_PER_MINUTE)
      with ((h * 60 + m) * MS_PER_MINUTE + (now / MS_PER_DAY) * MS_PER_DAY).
    - rewrite Z.mod_add by (unfold MS_PER_DAY, MS_PER_MINUTE; lia).
      apply Z.mod_small. unfold MS_PER_DAY, MS_PER_MINUTE. lia.
    - pose proof (Z.div_mod now MS_PER_DAY) as H.
      assert (MS_PER_DAY <> 0) by (unfold MS_PER_DAY, MS_PER_MINUTE; lia).
      specialize (H ltac:(assumption)). lia. }
  unfold toTimeString. rewrite Hmod.
  rewrite Z.div_mul by (unfold MS_PER_MINUTE; lia).
  f_equal; Z.div_mod_to_equations; lia.
Qed.

Lemma existing_none_free now user slot d id deadline created :
  validSlot slot ->
  Scheduler.existingEvent d now user slot = None ->
  idx_events_user_scheduled (checkin_events d)
    (Scheduler.pendingEvent id (u_user_id user)
       (setHours now (hh slot) (mm slot)) deadline created)
  = false.
Proof.
  intros Hvalid Hnone. unfold idx_events_user_scheduled. cbn.
  destruct (existsb _ (checkin_events d)) eqn:Hex; [|reflexivity].
  apply existsb_exists in Hex. destruct Hex as [x [Hin Hx]].
  apply andb_prop in Hx. destruct Hx as [Hu Hs]. apply Z.eqb_eq in Hs.
  unfold Scheduler.existingEvent in Hnone.
  pose proof (find_none _ _ Hnone x Hin) as Hf. cbn in Hf.
  rewrite Hu, Hs in Hf. unfold likeTimeOfDay in Hf.
  rewrite (toTimeString_setHours now slot Hvalid), !Z.eqb_refl in Hf.
  pose proof (startOfDay_setHours now slot Hvalid) as Hle.
  apply Z.leb_le in Hle. rewrite Hle in Hf. discriminate.
Qed.

(** For a valid slot [checkSlot] returns; it appends [slotEvent] when the
    slot is due and leaves the events table alone otherwise. *)
Lemma checkSlot_runs env now user slot w :
  validSlot slot ->
  exists w',
    Scheduler.checkSlot env now user slot w = Returned tt w'
    /\ checkin_events (db w')
       = if slotDue now user slot (db w)
         then checkin_events (db w) ++ [slotEvent env now user slot w]
         else checkin_events (db w).
Proof.
  intros Hvalid. unfold Scheduler.checkSlot, slotDue. cbv zeta.
  destruct (Scheduler.isTimeMatch (toTimeString now) slot);
    [|eexists; split; reflexivity].
  unfold bind at 1. unfold getDB at 1. cbv beta iota.
  destruct (Scheduler.existingEvent (db w) now user slot) eqn:Hex;
    [eexists; split; reflexivity|].
  unfold Scheduler.createPendingEvent, bind at 1, generateUUID at 1.
  cbv beta iota zeta.
  destruct (setHours now (hh slot) (mm slot) <? now);
    [eexists; split; reflexivity|].
  unfold bind at 1, insertEvent, bind at 1, getDB at 1. cbv beta iota.
  cbn [db].
  rewrite (existing_none_free now user slot (db w) _ _ _ Hvalid Hex).
  unfold putDB, bind, try_catch, logEvent, generateUUID, getDB, putDB.
  cbn [db drawn].
  destruct (truthy (u_apns_token user));
    [destruct (sendCheckinReminder env user)|];
    eexists; split; reflexivity.
Qed.

Lemma find_app_none {A} (p : A -> bool) (l : list A) (x : A) :
  find p l = None -> p x = false -> find p (l ++ [x]) = None.
Proof.
  induction l as [|y l IH]; cbn.
  - intros _ ->. reflexivity.
  - destruct (p y); [discriminate|exact IH].
Qed.

Lemma slotSettled_step env now user slot s w w' :
  validSlot s ->
  Scheduler.checkSlot env now user s w = Returned tt w' ->
  checkin_events (db w')
  = (if slotDue now user s (db w)
     then checkin_events (db w) ++ [slotEvent env now user s w]
     else checkin_events (db w)) ->
  slotSettled now user slot (db w) -> slotSettled now user slot (db w').
Proof.
  intros Hs _ Hev Hinv. unfold slotSettled in *.
  destruct (slotDue now user s (db w)) eqn:Hdue.
  - destruct Hinv as [Hfree|[e [Hin Ht]]].
    + destruct (likeTimeOfDay (setHours now (hh s) (mm s)) slot) eqn:Hlike.
      * right. exists (slotEvent env now user s w). split.
        -- rewrite Hev. apply in_or_app. right. left. reflexivity.
        -- unfold likeTimeOfDay in Hlike.
           rewrite (toTimeString_setHours now s Hs) in Hlike.
           apply andb_prop in Hlike. destruct Hlike as [Hh Hm].
           apply Z.eqb_eq in Hh. apply Z.eqb_eq in Hm.
           unfold targetOf, slotEvent. cbn. rewrite Hh, Hm. repeat split.
      * left. unfold Scheduler.existingEvent in *. rewrite Hev.
        apply find_app_none; [exact Hfree|]. cbn. rewrite Hlike.
        apply andb_false_r.
    + right. exists e. split; [|exact Ht]. rewrite Hev.
      apply in_or_app. left. exact Hin.
  - unfold Scheduler.existingEvent in *. rewrite Hev. exact Hinv.
Qed.

Lemma slots_prefix env now user slot (T : list HHMM) :
  Forall validSlot T ->
  forall w,
    slotSettled now user slot (db w) ->
    exists w',
      Scheduler.forEach T (Scheduler.checkSlot env now user) w = Returned tt w'
      /\ slotSettled now user slot (db w').
Proof.
  induction 1 as [|s T Hs HT IH]; intros w Hinv; cbn.
  - exists w. split; [reflexivity|exact Hinv].
  - destruct (checkSlot_runs env now user s w Hs) as [w1 [Hrun Hev]].
    destruct (IH w1 (slotSettled_step env now user slot s w w1 Hs Hrun Hev Hinv))
      as [w2 [Hrest Hinv2]].
    exists w2. unfold bind. rewrite Hrun. split; assumption.
Qed.

(** When the slot itself is processed in time, its event exists afterwards. *)
Lemma slot_reached env now user slot w :
  validSlot slot ->
  Scheduler.isTimeMatch (toTimeString now) slot = true ->
  now <= setHours now (hh slot) (mm slot) ->
  slotSettled now user slot (db w) ->
  exists w',
    Scheduler.checkSlot env now user slot w = Returned tt w'
    /\ exists e, In e (checkin_events (db w')) /\ targetOf now user slot e.
Proof.
  intros Hvalid Hmatch Hfuture Hinv.
  destruct (checkSlot_runs env now user slot w Hvalid) as [w' [Hrun Hev]].
  exists w'. split; [exact Hrun|].
  destruct Hinv as [Hfree|[e [Hin Ht]]].
  - assert (Hdue : slotDue now user slot (db w) = true).
    { unfold slotDue. rewrite Hmatch, Hfree. cbn.
      apply negb_true_iff. apply Z.ltb_ge. exact Hfuture. }
    rewrite Hdue in Hev. exists (slotEvent env now user slot w). split.
    + rewrite Hev. apply in_or_app. right. left. reflexivity.
    + unfold targetOf, slotEvent. cbn. repeat split.
  - exists e. split; [|exact Ht].
    rewrite Hev. destruct (slotDue now user slot (db w)); [|exact Hin].
    apply in_or_app. left. exact Hin.
Qed.

Lemma forEach_app {A} (l1 l2 : list A) (body : A -> Eff unit) (w : World) :
  Scheduler.forEach (l1 ++ l2) body w
  = match Scheduler.forEach l1 body w with
    | Returned _ w1 => Scheduler.forEach l2 body w1
    | Thrown e w1 => Thrown e w1
    end.
Proof.
  revert w. induction l1 as [|x l1 IH]; intros w; cbn; [reflexivity|].
  unfold bind. destruct (body x w) as [[] w1|e w1]; [apply IH|reflexivity].
Qed.

Lemma appended_keeps_target P now user slot d d' :
  appended P now d d' ->
  (exists e, In e (checkin_events d) /\ targetOf now user slot e) ->
  exists e, In e (checkin_events d') /\ targetOf now user slot e.
Proof.
  intros [added [Heq _]] [e [Hin Ht]]. exists e. split; [|exact Ht].
  rewrite Heq. apply in_or_app. left. exact Hin.
Qed.

Lemma slots_append env now user (T : list HHMM) :
  (forall s, In s T -> In s (u_checkin_times user)) ->
  keeps (appended (eq user) now)
        (Scheduler.forEach T (Scheduler.checkSlot env now user)).
Proof.
  intros HT. apply keeps_forEach; [exact _|]. intros slot Hslot.
  unfold Scheduler.checkSlot. cbv zeta.
  destruct (Scheduler.isTimeMatch (toTimeString now) slot) eqn:Hmatch; frame.
  apply createPendingEvent_appends; auto.
Qed.

Lemma processUser_returns env now user w :
  exists w', Scheduler.processUser env now user w = Returned tt w'.
Proof.
  unfold Scheduler.processUser, try_catch.
  destruct (Scheduler.forEach _ _ w) as [[] w'|e w']; eexists; reflexivity.
Qed.

Lemma processUser_reaches env now user slot w :
  Forall validSlot (u_checkin_times user) ->
  In slot (u_checkin_times user) ->
  Scheduler.isTimeMatch (toTimeString now) slot = true ->
  now <= setHours now (hh slot) (mm slot) ->
  slotSettled now user slot (db w) ->
  exists e,
    In e (checkin_events (db (worldOf (Scheduler.processUser env now user w))))
    /\ targetOf now user slot e.
Proof.
  intros Hvalid Hslot Hmatch Hfuture Hinv.
  destruct (in_split _ _ Hslot) as [T1 [T2 HT]].
  assert (Hv1 : Forall validSlot T1 /\ validSlot slot).
  { rewrite HT in Hvalid. apply Forall_app in Hvalid.
    destruct Hvalid as [H1 H2]. inversion H2; subst. tauto. }
  destruct Hv1 as [Hv1 Hvs].
  destruct (slots_prefix env now user slot T1 Hv1 w Hinv) as [w1 [Hrun1 Hinv1]].
  destruct (slot_reached env now user slot w1 Hvs Hmatch Hfuture Hinv1)
    as [w2 [Hrun2 Htarget]].
  assert (Hrest : keeps (appended (eq user) now)
                    (Scheduler.forEach T2 (Scheduler.checkSlot env now user))).
  { apply slots_append. intros s Hs. rewrite HT.
    apply in_or_app. right. right. exact Hs. }
  specialize (Hrest w2).
  apply (appended_keeps_target _ _ _ _ _ _ Hrest) in Htarget.
  unfold Scheduler.processUser, try_catch. rewrite HT, forEach_app, Hrun1.
  cbn [Scheduler.forEach]. unfold bind at 1. rewrite Hrun2.
  destruct (Scheduler.forEach T2 _ w2) as [[] w3|err w3]; exact Htarget.
Qed.

Lemma find_filter {A} (f p q : A -> bool) (l : list A) :
  (forall x, f x = p x && q x) -> find f l = find q (filter p l).
Proof.
  intros H. induction l as [|x l IH]; cbn; [reflexivity|].
  rewrite H. destruct (p x); cbn; [|exact IH].
  destruct (q x); [reflexivity|exact IH].
Qed.

Lemma slotSettled_eventsOf now user slot d d' :
  eventsOf (u_user_id user) d' = eventsOf (u_user_id user) d ->
  slotSettled now user slot d -> slotSettled now user slot d'.
Proof.
  intros Hsame [Hfree|[e [Hin Ht]]].
  - left. unfold Scheduler.existingEvent in *.
    rewrite (find_filter _ (fun e => (user_id e =? u_user_id user)%string)
               (fun e => (startOfDay now <=? scheduled_time e)
                         && likeTimeOfDay (scheduled_time e) slot))
      in * by (intros x; symmetry; apply andb_assoc).
    unfold eventsOf in Hsame. rewrite Hsame. exact Hfree.
  - right. exists e. split; [|exact Ht].
    assert (Hin' : In e (eventsOf (u_user_id user) d)).
    { apply filter_In. split; [exact Hin|].
      destruct Ht as [Hu _]. rewrite Hu. apply String.eqb_refl. }
    rewrite <- Hsame in Hin'. apply filter_In in Hin'. tauto.
Qed.

Lemma users_loop env now user slot (L : list User) :
  NoDup (map u_user_id L) ->
  In user L ->
  Forall validSlot (u_checkin_times user) ->
  In slot (u_checkin_times user) ->
  Scheduler.isTimeMatch (toTimeString now) slot = true ->
  now <= setHours now (hh slot) (mm slot) ->
  forall w,
    slotSettled now user slot (db w) ->
    exists e,
      In e (checkin_events
              (db (worldOf (Scheduler.forEach L (Scheduler.processUser env now) w))))
      /\ targetOf now user slot e.
Proof.
  intros Hnd Hin Hvalid Hslot Hmatch Hfuture.
  induction L as [|x L IH]; [destruct Hin|]. intros w Hinv.
  cbn [Scheduler.forEach]. unfold bind.
  destruct (processUser_returns env now x w) as [w1 Hrun].
  inversion Hnd as [|? ? Hnotin Hnd']; subst.
  destruct Hin as [->|Hin].
  - pose proof (processUser_reaches env now user slot w Hvalid Hslot Hmatch
                  Hfuture Hinv) as Htarget.
    rewrite Hrun in *. cbn [worldOf] in Htarget.
    assert (Hrest : keeps (appended (fun _ => True) now)
                      (Scheduler.forEach L (Scheduler.processUser env now))).
    { apply keeps_forEach; [exact _|]. intros u _.
      apply (keeps_weaken (appended (eq u) now)); [|apply processUser_appends].
      intros d d' [added [Heq HF]]. exists added. split; [exact Heq|].
      eapply Forall_impl; [|exact HF]. intros e. apply created_weaken. auto. }
    exact (appended_keeps_target _ _ _ _ _ _ (Hrest w1) Htarget).
  - rewrite Hrun. apply (IH Hnd' Hin).
    assert (Hne : u_user_id x <> u_user_id user).
    { intros Heq. apply Hnotin. rewrite Heq. apply in_map. exact Hin. }
    pose proof (processUser_other env now x (u_user_id user) Hne w) as Hsame.
    rewrite Hrun in Hsame. cbn [worldOf] in Hsame.
    apply (slotSettled_eventsOf now user slot (db w)); assumption.
Qed.

Lemma distinct_after_filter {Row Key} (rows : list Row) (keep : Row -> bool)
    (key : Row -> Key) :
  NoDup (map key rows) -> NoDup (map key (filter keep rows)).
Proof.
  induction rows as [|r rows IH]; cbn; [auto|].
  intros Hnd. inversion Hnd as [|? ? Hnotin Hnd']; subst.
  destruct (keep r); cbn; [|auto].
  constructor; [|auto].
  intros Hin. apply Hnotin. apply in_map_iff in Hin.
  destruct Hin as [y [Hy Hin]]. apply filter_In in Hin.
  rewrite <- Hy. apply in_map. tauto.
Qed.





(** The skip at work: at the 09:00:30 and the 09:01:00 tick Alice is
    active, her 09:00 time is within the tolerance and the slot has no
    event; 09:00:00 being already past, the scan creates nothing.  The
    check-in of 09:00 is the work of the tick of 08:59. *)
Example late_tick_creates_nothing :
  In alice (users (db (storeWith [] [] [])))
  /\ Scheduler.notPaused (clock 9 0 30) alice = true
  /\ In nine (u_checkin_times alice)
  /\ Scheduler.isTimeMatch (toTimeString (clock 9 0 30)) nine = true
  /\ Scheduler.existingEvent (db (storeWith [] [] [])) (clock 9 0 30) alice nine
     = None
  /\ checkin_events
       (db (worldOf (Scheduler.handleScheduledCheckins demoEnv (clock 9 0 30)
                       (storeWith [] [] []))))
     = []
  /\ Scheduler.isTimeMatch (toTimeString (clock 9 1 0)) nine = true
  /\ checkin_events
       (db (worldOf (Scheduler.handleScheduledCheckins demoEnv (clock 9 1 0)
                       (storeWith [] [] []))))
     = [].
Proof.
  repeat split; try reflexivity; left; reflexivity.
Qed.

(** ** One escalation pass *)

Lemma expectedReport_ext env message d d' eventId contact :
  hasDelivery d' eventId contact = hasDelivery d eventId contact ->
  expectedReport env message d' eventId contact
  = expectedReport env message d eventId contact.
Proof.
  unfold hasDelivery, expectedReport.
  destruct (Scheduler.existingDelivery d' eventId contact),
           (Scheduler.existingDelivery d eventId contact);
    (reflexivity || discriminate).
Qed.

Lemma find_none_existsb {A} (p : A -> bool) (l : list A) :
  find p l = None -> existsb p l = false.
Proof.
  induction l as [|x l IH]; cbn; [reflexivity|].
  destruct (p x); [discriminate|exact IH].
Qed.

Lemma find_app_miss {A} (p : A -> bool) (l : list A) (x : A) :
  p x = false -> find p (l ++ [x]) = find p l.
Proof.
  intros Hx. induction l as [|y l IH]; cbn.
  - rewrite Hx. reflexivity.
  - destruct (p y); [reflexivity|exact IH].
Qed.

(** The push attempt always returns, and adds no SMS row. *)
Lemma pushAlert_runs env now eventId contact w :
  exists w',
    Scheduler.pushAlert env now eventId contact w = Returned tt w'
    /\ forall c, Scheduler.existingDelivery (db w') eventId c
                 = Scheduler.existingDelivery (db w) eventId c.
Proof.
  unfold Scheduler.pushAlert.
  destruct (negb (c_has_app contact =? 0)); [|exists w; split; reflexivity].
  destruct (truthy (c_apns_token contact)); [|exists w; split; reflexivity].
  unfold try_catch.
  destruct (sendContactAlert env contact); [|exists w; split; reflexivity].
  unfold bind, generateUUID, insertDelivery, bind, getDB, putDB. cbn [db drawn].
  destruct (idx_deliveries_event_contact _ _).
  - eexists. split; [reflexivity|]. intros c. reflexivity.
  - eexists. split; [reflexivity|]. intros c.
    unfold Scheduler.existingDelivery. cbn [db alert_deliveries withDeliveries].
    apply find_app_miss. cbn. apply andb_false_r.
Qed.

(** One turn of the contact loop returns, with one more report: the
    expected one. *)
Lemma notifyContact_outcome env now eventId message contact acc w :
  exists w',
    try_catch (Scheduler.notifyContact env now eventId message contact acc)
              (caught contact acc) w
    = Returned (acc ++ [expectedReport env message (db w) eventId contact]) w'.
Proof.
  unfold try_catch, Scheduler.notifyContact, expectedReport.
  unfold bind at 1. unfold getDB at 1. cbv beta iota.
  destruct (Scheduler.existingDelivery (db w) eventId contact) eqn:Hex;
    [eexists; reflexivity|].
  unfold bind at 1.
  destruct (pushAlert_runs env now eventId contact w) as [w1 [-> Hsame]].
  unfold bind at 1.
  destruct (decrypt env (c_phone_enc contact)) as [phone|];
    [|eexists; reflexivity].
  unfold ret at 1. unfold bind at 1. unfold generateUUID at 1.
  unfold bind at 1. unfold insertDelivery, bind at 1, getDB at 1.
  cbv beta iota. cbn [db].
  assert (Hidx : idx_deliveries_event_contact (alert_deliveries (db w1))
            (Scheduler.newDelivery (randomUUID env (drawn w1)) eventId
               (c_contact_id contact) sms d_pending None now) = false).
  { apply find_none_existsb. rewrite <- Hex, <- (Hsame contact). reflexivity. }
  rewrite Hidx. cbv zeta.
  destruct (Twilio.success (sendSMS env phone message)); eexists; reflexivity.
Qed.

Lemma keyOf_fields (x y : AlertDelivery) :
  keyOf x = keyOf y ->
  d_event_id x = d_event_id y /\ d_contact_id x = d_contact_id y
  /\ channel x = channel y.
Proof. unfold keyOf. intros [= H1 H2 H3]. auto. Qed.

Lemma existingDelivery_update d eventId c id (f : AlertDelivery -> AlertDelivery) :
  (forall x, keyOf (f x) = keyOf x) ->
  hasDelivery
    (withDeliveries d
       (map (fun x => if (delivery_id x =? id)%string then f x else x)
            (alert_deliveries d)))
    eventId c
  = hasDelivery d eventId c.
Proof.
  intros Hkey. unfold hasDelivery, Scheduler.existingDelivery.
  cbn [alert_deliveries withDeliveries]. rewrite find_map_same.
  - destruct (find _ (alert_deliveries d)); reflexivity.
  - intros x. destruct (delivery_id x =? id)%string; [|reflexivity].
    destruct (keyOf_fields _ _ (Hkey x)) as [-> [-> ->]]. reflexivity.
Qed.

(** Serving one contact does not change whether another has an SMS row. *)
Lemma notifyContact_other env now eventId message contact acc c' :
  c_contact_id contact <> c_contact_id c' ->
  keeps (sameOn (fun d => hasDelivery d eventId c'))
        (try_catch (Scheduler.notifyContact env now eventId message contact acc)
                   (caught contact acc)).
Proof.
  intros Hne. apply keeps_try_catch; [exact _| |intros e; apply keeps_ret; exact _].
  apply (notifyContact_keeps _ eventId
           (fun c => c_contact_id c <> c_contact_id c')).
  - intros d x c Hc _ _ Hx. unfold sameOn, hasDelivery, Scheduler.existingDelivery.
    cbn [alert_deliveries withDeliveries]. rewrite find_app_miss; [reflexivity|].
    rewrite Hx. apply String.eqb_neq in Hc. rewrite Hc.
    rewrite andb_false_r. reflexivity.
  - intros d id f Hkey. apply existingDelivery_update. exact Hkey.
  - exact Hne.
Qed.

(** The contact loop returns one report per contact, in order, each the
    expected one for its contact. *)
Lemma notifyContacts_outcome env now eventId message (cs : list Contact) :
  NoDup (map c_contact_id cs) ->
  forall acc w,
    exists w',
      Scheduler.notifyContacts env now eventId message cs acc w
      = Returned (acc ++ map (expectedReport env message (db w) eventId) cs) w'.
Proof.
  induction cs as [|c cs IH]; intros Hnd acc w; cbn.
  - exists w. rewrite app_nil_r. reflexivity.
  - inversion Hnd as [|? ? Hnotin Hnd']; subst.
    destruct (notifyContact_outcome env now eventId message c acc w)
      as [w1 Hrun].
    unfold bind. unfold caught in Hrun. rewrite Hrun.
    destruct (IH Hnd' (acc ++ [expectedReport env message (db w) eventId c]) w1)
      as [w2 Hrest].
    exists w2. rewrite Hrest. rewrite <- app_assoc. cbn. do 3 f_equal.
    apply map_ext_in. intros c' Hc'. apply expectedReport_ext.
    assert (Hne : c_contact_id c <> c_contact_id c').
    { intros Heq. apply Hnotin. rewrite Heq. apply in_map. exact Hc'. }
    pose proof (notifyContact_other env now eventId message c acc c' Hne w) as H.
    unfold caught in H. rewrite Hrun in H. exact H.
Qed.

Lemma insertByLevel_perm c l :
  Permutation (c :: l) (Scheduler.insertByLevel c l).
Proof.
  induction l as [|x l IH]; cbn; [reflexivity|].
  destruct (c_level c <=? c_level x); [reflexivity|].
  rewrite perm_swap. constructor. exact IH.
Qed.

Lemma orderByLevel_perm l : Permutation l (Scheduler.orderByLevel l).
Proof.
  induction l as [|x l IH]; cbn; [constructor|].
  rewrite <- insertByLevel_perm. constructor. exact IH.
Qed.

Lemma contactsOf_NoDup d event :
  NoDup (map c_contact_id (contacts d)) ->
  NoDup (map c_contact_id (Scheduler.contactsOf d event)).
Proof.
  intros Hnd. unfold Scheduler.contactsOf.
  eapply Permutation_NoDup.
  - apply Permutation_map. apply orderByLevel_perm.
  - apply distinct_after_filter. exact Hnd.
Qed.

Lemma alertContacts_outcome env now eventId event u w :
  u_sms_alerts_enabled u <> 0 ->
  NoDup (map c_contact_id (contacts (db w))) ->
  exists w',
    Scheduler.alertContacts env now eventId event u w
    = Returned
        {| Scheduler.r_event_id := eventId;
           Scheduler.contacts_notified :=
             Scheduler.countSent
               (map (expectedReport env (alertMessage env u event) (db w) eventId)
                    (Scheduler.contactsOf (db w) event));
           Scheduler.deliveries :=
             map (expectedReport env (alertMessage env u event) (db w) eventId)
                 (Scheduler.contactsOf (db w) event) |}
        w'.
Proof.
  intros Hsms Hnd. unfold Scheduler.alertContacts.
  unfold bind at 1. unfold logEvent, bind, generateUUID, getDB, putDB.
  cbn [db drawn].
  apply Z.eqb_neq in Hsms. rewrite Hsms. cbv beta iota. cbn [db drawn].
  change (Scheduler.contactsOf (withLogs (db w) _) event)
    with (Scheduler.contactsOf (db w) event).
  pose proof (contactsOf_NoDup (db w) event Hnd) as Hcs.
  destruct (Scheduler.contactsOf (db w) event) as [|c cs] eqn:Hcontacts.
  - eexists. reflexivity.
  - cbv zeta.
    match goal with
    | |- context [Scheduler.notifyContacts env now eventId ?m (c :: cs) [] ?w1] =>
        destruct (notifyContacts_outcome env now eventId m (c :: cs) Hcs [] w1)
          as [w2 Hrun]
    end.
    rewrite Hrun. eexists. reflexivity.
Qed.

Lemma triggerEscalation_outcome env now eventId w event u :
  Scheduler.findEventWithUser (db w) eventId = Some (event, u) ->
  u_sms_alerts_enabled u <> 0 ->
  NoDup (map c_contact_id (contacts (db w))) ->
  exists w',
    Scheduler.triggerEscalation env now eventId w
    = Returned
        {| Scheduler.r_event_id := eventId;
           Scheduler.contacts_notified :=
             Scheduler.countSent
               (map (expectedReport env (alertMessage env u event) (db w) eventId)
                    (Scheduler.contactsOf (db w) event));
           Scheduler.deliveries :=
             map (expectedReport env (alertMessage env u event) (db w) eventId)
                 (Scheduler.contactsOf (db w) event) |}
        w'.
Proof.
  intros Hfind Hsms Hnd. rewrite triggerEscalation_unfold, Hfind.
  exact (alertContacts_outcome env now eventId event u
           {| db := withEvents (db w)
                      (map (alertRow now eventId) (checkin_events (db w)));
              drawn := drawn w |} Hsms Hnd).
Qed.

Lemma expectedReport_contact env message d eventId c :
  Scheduler.r_contact_id (expectedReport env message d eventId c)
  = c_contact_id c.
Proof.
  unfold expectedReport.
  destruct (Scheduler.existingDelivery d eventId c); [reflexivity|].
  destruct (decrypt env (c_phone_enc c)); [|reflexivity].
  destruct (Twilio.success _); reflexivity.
Qed.

#[export] Instance rowsKept_preorder : PreOrder rowsKept.
Proof.
  split.
  - intros d. split; [exists []; symmetry; apply app_nil_r|auto].
  - intros a b c [[e1 H1] K1] [[e2 H2] K2]. split.
    + exists (e1 ++ e2). rewrite H2, H1. symmetry. apply app_assoc.
    + intros Hnd x Hx. apply K2; [exact Hnd|]. apply K1; [|exact Hx].
      rewrite H2 in Hnd. apply NoDup_app_remove_r in Hnd. exact Hnd.
Qed.

Lemma rowsKept_same d d' :
  alert_deliveries d' = alert_deliveries d -> rowsKept d d'.
Proof.
  intros H. unfold rowsKept, deliveryIds. rewrite H.
  split; [exists []; symmetry; apply app_nil_r|auto].
Qed.

Lemma rowsKept_insert d x :
  rowsKept d (withDeliveries d (alert_deliveries d ++ [x])).
Proof.
  unfold rowsKept, deliveryIds. cbn [alert_deliveries withDeliveries]. split.
  - exists [delivery_id x]. apply map_app.
  - intros _ y Hy. apply in_or_app. left. exact Hy.
Qed.

(** A row with a new id is inserted and then updated through that id: the
    rows that were there stay as they are, unless the id was taken. *)
Lemma rowsKept_attempt d x (f : AlertDelivery -> AlertDelivery) :
  (forall y, delivery_id (f y) = delivery_id y) ->
  rowsKept d
    (withDeliveries (withDeliveries d (alert_deliveries d ++ [x]))
       (map (fun y => if (delivery_id y =? delivery_id x)%string then f y else y)
            (alert_deliveries d ++ [x]))).
Proof.
  intros Hf. unfold rowsKept, deliveryIds.
  cbn [alert_deliveries withDeliveries].
  assert (Hids : map delivery_id
                   (map (fun y => if (delivery_id y =? delivery_id x)%string
                                  then f y else y)
                        (alert_deliveries d ++ [x]))
                 = map delivery_id (alert_deliveries d) ++ [delivery_id x]).
  { rewrite map_map, <- (map_app delivery_id _ [x]). apply map_ext.
    intros y. destruct (_ =? _)%string; [apply Hf|reflexivity]. }
  rewrite Hids. split; [eexists; reflexivity|].
  intros Hnd y Hy. apply NoDup_remove_2 in Hnd. rewrite app_nil_r in Hnd.
  apply in_map_iff. exists y. split; [|apply in_or_app; left; exact Hy].
  destruct (delivery_id y =? delivery_id x)%string eqn:E; [|reflexivity].
  apply String.eqb_eq in E. exfalso. apply Hnd. rewrite <- E.
  apply in_map. exact Hy.
Qed.

Lemma pushAlert_kept env now eventId contact :
  keeps rowsKept (Scheduler.pushAlert env now eventId contact).
Proof.
  unfold Scheduler.pushAlert. frame. intros d _. apply rowsKept_insert.
Qed.

Lemma notifyContact_kept env now eventId message contact acc :
  keeps rowsKept (Scheduler.notifyContact env now eventId message contact acc).
Proof.
  unfold Scheduler.notifyContact.
  apply keeps_bind; [exact _|frame|]. intros d.
  destruct (Scheduler.existingDelivery d eventId contact); [frame|].
  apply keeps_bind; [exact _|apply pushAlert_kept|]. intros _.
  apply keeps_bind; [exact _|destruct (decrypt env (c_phone_enc contact)); frame|].
  intros phone w.
  cbv [bind generateUUID insertDelivery getDB putDB updateDelivery ret throw].
  cbn [db drawn].
  destruct (idx_deliveries_event_contact _ _); [reflexivity|].
  destruct (Twilio.success _); cbn [worldOf db];
    apply (rowsKept_attempt (db w)); reflexivity.
Qed.

Lemma hasDelivery_ext d d' eventId c :
  alert_deliveries d' = alert_deliveries d ->
  hasDelivery d' eventId c = hasDelivery d eventId c.
Proof.
  intros H. unfold hasDelivery, Scheduler.existingDelivery. rewrite H.
  reflexivity.
Qed.

(** The turn of a contact whose phone decrypts leaves the SMS row of the
    attempt, with the status the send decided. *)
Lemma notifyContact_records env now eventId message contact acc phone w :
  hasDelivery (db w) eventId contact = false ->
  decrypt env (c_phone_enc contact) = Some phone ->
  exists x,
    In x (alert_deliveries
            (db (worldOf (Scheduler.notifyContact env now eventId message
                            contact acc w))))
    /\ recordsAttempt env now message eventId contact phone x.
Proof.
  intros Hnone Hphone. unfold hasDelivery in Hnone.
  unfold Scheduler.notifyContact.
  unfold bind at 1. unfold getDB at 1. cbv beta iota.
  destruct (Scheduler.existingDelivery (db w) eventId contact) eqn:Hex;
    [discriminate|].
  unfold bind at 1.
  destruct (pushAlert_runs env now eventId contact w) as [w1 [-> Hsame]].
  unfold bind at 1. rewrite Hphone.
  unfold ret at 1. unfold bind at 1. unfold generateUUID at 1.
  unfold bind at 1. unfold insertDelivery, bind at 1, getDB at 1.
  cbv beta iota. cbn [db].
  assert (Hidx : idx_deliveries_event_contact (alert_deliveries (db w1))
            (Scheduler.newDelivery (randomUUID env (drawn w1)) eventId
               (c_contact_id contact) sms d_pending None now) = false).
  { apply find_none_existsb. rewrite <- Hex, <- (Hsame contact). reflexivity. }
  rewrite Hidx. cbv zeta. unfold recordsAttempt.
  destruct (Twilio.success (sendSMS env phone message)) eqn:Hsent.
  - eexists. split.
    + cbn. apply in_map_iff. eexists. split; [|apply in_or_app; right; left; reflexivity].
      cbn [delivery_id Scheduler.newDelivery]. rewrite String.eqb_refl. reflexivity.
    + cbn. repeat split.
  - eexists. split.
    + cbn. apply in_map_iff. eexists. split; [|apply in_or_app; right; left; reflexivity].
      cbn [delivery_id Scheduler.newDelivery]. rewrite String.eqb_refl. reflexivity.
    + cbn. repeat split.
Qed.

(** The turn of a contact whose phone does not decrypt leaves no SMS row
    for it. *)
Lemma notifyContact_unrecorded env now eventId message contact acc w :
  hasDelivery (db w) eventId contact = false ->
  decrypt env (c_phone_enc contact) = None ->
  hasDelivery
    (db (worldOf (Scheduler.notifyContact env now eventId message contact acc w)))
    eventId contact
  = false.
Proof.
  intros Hnone Hphone. unfold Scheduler.notifyContact.
  unfold bind at 1. unfold getDB at 1. cbv beta iota.
  pose proof Hnone as Hex. unfold hasDelivery in Hex.
  destruct (Scheduler.existingDelivery (db w) eventId contact); [discriminate|].
  unfold bind at 1.
  destruct (pushAlert_runs env now eventId contact w) as [w1 [-> Hsame]].
  unfold bind at 1. rewrite Hphone. cbn [throw worldOf].
  unfold hasDelivery. rewrite (Hsame contact). exact Hnone.
Qed.

(** What the contact loop leaves in the deliveries table. *)
Lemma notifyContacts_rows env now eventId message (cs : list Contact) :
  NoDup (map c_contact_id cs) ->
  forall acc w,
    let w' := worldOf (Scheduler.notifyContacts env now eventId message cs acc w) in
    rowsKept (db w) (db w')
    /\ (NoDup (deliveryIds (db w')) ->
        forall c phone,
          In c cs ->
          hasDelivery (db w) eventId c = false ->
          decrypt env (c_phone_enc c) = Some phone ->
          exists x,
            In x (alert_deliveries (db w'))
            /\ recordsAttempt env now message eventId c phone x)
    /\ (forall c,
          In c cs ->
          hasDelivery (db w) eventId c = false ->
          decrypt env (c_phone_enc c) = None ->
          hasDelivery (db w') eventId c = false).
Proof.
  induction cs as [|c0 cs IH]; intros Hnd acc w; cbn zeta.
  - cbn. split; [reflexivity|]. split; intros; contradiction.
  - inversion Hnd as [|? ? Hnotin Hnd']; subst.
    cbn [Scheduler.notifyContacts].
    destruct (notifyContact_outcome env now eventId message c0 acc w)
      as [w1 Hrun].
    assert (Hw1 : w1 = worldOf (Scheduler.notifyContact env now eventId
                                  message c0 acc w)).
    { pose proof Hrun as Hcopy. unfold caught, try_catch in Hcopy.
      destruct (Scheduler.notifyContact env now eventId message c0 acc w)
        as [a wa|e wa]; cbn in Hcopy |- *; injection Hcopy as _ Hw;
        symmetry; exact Hw. }
    unfold bind. unfold caught in Hrun. rewrite Hrun.
    destruct (IH Hnd' (acc ++ [expectedReport env message (db w) eventId c0]) w1)
      as [Hkept [Hrec Herr]].
    set (w' := worldOf (Scheduler.notifyContacts env now eventId message cs
                          (acc ++ [expectedReport env message (db w) eventId c0])
                          w1)) in *.
    assert (Hstep : rowsKept (db w) (db w1))
      by (rewrite Hw1; apply notifyContact_kept).
    assert (Hother :
              forall c, In c cs ->
                        hasDelivery (db w1) eventId c = hasDelivery (db w) eventId c).
    { intros c Hc.
      assert (Hne : c_contact_id c0 <> c_contact_id c).
      { intros Heq. apply Hnotin. rewrite Heq. apply in_map. exact Hc. }
      pose proof (notifyContact_other env now eventId message c0 acc c Hne w)
        as H.
      unfold caught in H. rewrite Hrun in H. exact H. }
    split; [etransitivity; eassumption|]. split.
    + intros Hfinal c phone [<-|Hc] Hnone Hphone.
      * destruct (notifyContact_records env now eventId message c0 acc phone w
                    Hnone Hphone) as [x [Hx Hok]].
        rewrite <- Hw1 in Hx.
        exists x. split; [|exact Hok].
        destruct Hkept as [_ Hrows]. apply Hrows; assumption.
      * apply (Hrec Hfinal c phone Hc); [|exact Hphone].
        rewrite (Hother c Hc). exact Hnone.
    + intros c [<-|Hc] Hnone Hphone.
      * pose proof (notifyContact_unrecorded env now eventId message c0 acc w
                      Hnone Hphone) as H.
        rewrite <- Hw1 in H.
        assert (Hrest : keeps (sameOn (fun d => hasDelivery d eventId c0))
                          (Scheduler.notifyContacts env now eventId message cs
                             (acc ++ [expectedReport env message (db w) eventId c0]))).
        { apply (notifyContacts_keeps _ eventId
                   (fun c => c_contact_id c <> c_contact_id c0)).
          - intros d x c Hc _ _ Hx. unfold sameOn, hasDelivery,
              Scheduler.existingDelivery.
            cbn [alert_deliveries withDeliveries].
            rewrite find_app_miss; [reflexivity|].
            rewrite Hx. apply String.eqb_neq in Hc. rewrite Hc.
            rewrite andb_false_r. reflexivity.
          - intros d id f Hkey. apply existingDelivery_update. exact Hkey.
          - apply Forall_forall. intros c Hc Heq. apply Hnotin.
            rewrite <- Heq. apply in_map. exact Hc. }
        specialize (Hrest w1). unfold sameOn in Hrest. fold w' in Hrest.
        rewrite Hrest. exact H.
      * apply (Herr c Hc); [|exact Hphone]. rewrite (Hother c Hc). exact Hnone.
Qed.

(** The deliveries table after [triggerEscalation] is the one its contact
    loop leaves, started from a store with the deliveries of [w]. *)
Lemma triggerEscalation_deliveries env now eventId w event u :
  Scheduler.findEventWithUser (db w) eventId = Some (event, u) ->
  u_sms_alerts_enabled u <> 0 ->
  NoDup (map c_contact_id (contacts (db w))) ->
  exists start,
    alert_deliveries (db start) = alert_deliveries (db w)
    /\ alert_deliveries (db (worldOf (Scheduler.triggerEscalation env now eventId w)))
       = alert_deliveries
           (db (worldOf (Scheduler.notifyContacts env now eventId
                           (alertMessage env u event)
                           (Scheduler.contactsOf (db w) event) [] start))).
Proof.
  intros Hfind Hsms Hnd. rewrite triggerEscalation_unfold, Hfind.
  unfold Scheduler.alertContacts.
  unfold bind at 1. unfold logEvent, bind, generateUUID, getDB, putDB.
  cbn [db drawn].
  apply Z.eqb_neq in Hsms. rewrite Hsms. cbv beta iota. cbn [db drawn].
  change (Scheduler.contactsOf (withLogs (withEvents (db w) _) _) event)
    with (Scheduler.contactsOf (db w) event).
  pose proof (contactsOf_NoDup (db w) event Hnd) as Hcs.
  destruct (Scheduler.contactsOf (db w) event) as [|c cs] eqn:Hcontacts.
  - exists w. split; reflexivity.
  - cbv zeta.
    match goal with
    | |- context [Scheduler.notifyContacts env now eventId ?m (c :: cs) [] ?w1] =>
        destruct (notifyContacts_outcome env now eventId m (c :: cs) Hcs [] w1)
          as [w2 Hrun]; exists w1
    end.
    split; [reflexivity|]. unfold alertMessage. rewrite Hrun. reflexivity.
Qed.

(** C8: when SMS alerts are on, [triggerEscalation] returns with one report
    per contact of the user, in contact order; each report is decided by
    that contact alone (its existing SMS row, its ciphertext, its send).  A
    contact whose processing throws is reported as an error and gets no SMS
    row; every other contact still gets its own outcome, and each contact
    that is attempted has its attempt recorded in the deliveries table: a
    row for (event, contact, sms) that is sent, with the provider's
    reference, or failed, with the provider's error and the first retry
    time.  The rows the table held before are still there.  The statements
    on the rows suppose that the table the call leaves has distinct
    delivery ids, [delivery_id] being its primary key. *)
Theorem escalation_isolates_failures env now eventId w event u :
  Scheduler.findEventWithUser (db w) eventId = Some (event, u) ->
  u_sms_alerts_enabled u <> 0 ->
  NoDup (map c_contact_id (contacts (db w))) ->
  exists r w',
    Scheduler.triggerEscalation env now eventId w = Returned r w'
    /\ Scheduler.deliveries r
       = map (expectedReport env (alertMessage env u event) (db w) eventId)
             (Scheduler.contactsOf (db w) event)
    /\ map Scheduler.r_contact_id (Scheduler.deliveries r)
       = map c_contact_id (Scheduler.contactsOf (db w) event)
    /\ (forall c,
           In c (Scheduler.contactsOf (db w) event) ->
           hasDelivery (db w) eventId c = false ->
           decrypt env (c_phone_enc c) = None ->
           In (Scheduler.report c "error" (Some "decryption failed"%string))
              (Scheduler.deliveries r)
           /\ hasDelivery (db w') eventId c = false)
    /\ (NoDup (deliveryIds (db w')) ->
        (forall x, In x (alert_deliveries (db w)) ->
                   In x (alert_deliveries (db w')))
        /\ forall c phone,
             In c (Scheduler.contactsOf (db w) event) ->
             hasDelivery (db w) eventId c = false ->
             decrypt env (c_phone_enc c) = Some phone ->
             exists x,
               In x (alert_deliveries (db w'))
               /\ recordsAttempt env now (alertMessage env u event) eventId
                                 c phone x).
Proof.
  intros Hfind Hsms Hnd.
  destruct (triggerEscalation_outcome env now eventId w event u Hfind Hsms Hnd)
    as [w' Hrun].
  destruct (triggerEscalation_deliveries env now eventId w event u Hfind Hsms Hnd)
    as [start [Hstart Hrows]].
  rewrite Hrun in Hrows. cbn [worldOf] in Hrows.
  destruct (notifyContacts_rows env now eventId (alertMessage env u event)
              (Scheduler.contactsOf (db w) event)
              (contactsOf_NoDup (db w) event Hnd) [] start)
    as [Hkept [Hrec Herr]].
  set (loop := worldOf (Scheduler.notifyContacts env now eventId
                          (alertMessage env u event)
                          (Scheduler.contactsOf (db w) event) [] start)) in *.
  assert (Hbefore : forall c, hasDelivery (db start) eventId c
                              = hasDelivery (db w) eventId c)
    by (intros c; apply hasDelivery_ext; exact Hstart).
  assert (Hafter : forall c, hasDelivery (db w') eventId c
                             = hasDelivery (db loop) eventId c)
    by (intros c; apply hasDelivery_ext; exact Hrows).
  do 2 eexists. split; [exact Hrun|]. cbn [Scheduler.deliveries].
  split; [reflexivity|]. split; [|split].
  - rewrite map_map. apply map_ext. intros c. apply expectedReport_contact.
  - intros c Hin Hnone Hdec. split.
    + apply in_map_iff. exists c. split; [|exact Hin].
      unfold expectedReport. unfold hasDelivery in Hnone.
      destruct (Scheduler.existingDelivery (db w) eventId c); [discriminate|].
      rewrite Hdec. reflexivity.
    + rewrite Hafter. apply (Herr c Hin); [|exact Hdec].
      rewrite Hbefore. exact Hnone.
  - unfold deliveryIds. rewrite Hrows. intros Hids. split.
    + intros x Hx. destruct Hkept as [_ Hkeep]. apply Hkeep; [exact Hids|].
      rewrite Hstart. exact Hx.
    + intros c phone Hin Hnone Hdec.
      destruct (Hrec Hids c phone Hin) as [x [Hx Hok]];
        [rewrite Hbefore; exact Hnone|exact Hdec|].
      exists x. split; [exact Hx|exact Hok].
Qed.


Lemma escalation_isolates_failures_witness :
  exists r w',
    Scheduler.triggerEscalation demoEnv (clock 9 11 0) "e1" threeContacts
    = Returned r w'
    /\ Scheduler.deliveries r
       = map (expectedReport demoEnv
                (alertMessage demoEnv alice (nineOClock pending None 0))
                (db threeContacts) "e1")
             (Scheduler.contactsOf (db threeContacts) (nineOClock pending None 0))
    /\ map Scheduler.r_contact_id (Scheduler.deliveries r)
       = map c_contact_id
             (Scheduler.contactsOf (db threeContacts) (nineOClock pending None 0))
    /\ (forall c,
           In c (Scheduler.contactsOf (db threeContacts)
                   (nineOClock pending None 0)) ->
           hasDelivery (db threeContacts) "e1" c = false ->
           decrypt demoEnv (c_phone_enc c) = None ->
           In (Scheduler.report c "error" (Some "decryption failed"%string))
              (Scheduler.deliveries r)
           /\ hasDelivery (db w') "e1" c = false)
    /\ (NoDup (deliveryIds (db w')) ->
        (forall x, In x (alert_deliveries (db threeContacts)) ->
                   In x (alert_deliveries (db w')))
        /\ forall c phone,
             In c (Scheduler.contactsOf (db threeContacts)
                     (nineOClock pending None 0)) ->
             hasDelivery (db threeContacts) "e1" c = false ->
             decrypt demoEnv (c_phone_enc c) = Some phone ->
             exists x,
               In x (alert_deliveries (db w'))
               /\ recordsAttempt demoEnv (clock 9 11 0)
                    (alertMessage demoEnv alice (nineOClock pending None 0))
                    "e1" c phone x).
Proof.
  apply (escalation_isolates_failures demoEnv (clock 9 11 0) "e1" threeContacts
           (nineOClock pending None 0) alice).
  - reflexivity.
  - discriminate.
  - repeat constructor; cbn; intuition discriminate.
Defined.

(** The three-contact scenario: the second contact's failure is reported as
    an error and leaves no row; the first and the third are reported sent
    and their rows, with distinct ids, are recorded as sent. *)
Example three_contacts_second_throws :
  match Scheduler.triggerEscalation demoEnv (clock 9 11 0) "e1" threeContacts with
  | Returned r w' =>
      map (fun x => (Scheduler.r_contact_id x, Scheduler.r_status x))
          (Scheduler.deliveries r)
      = [("c1", "sent"); ("c2", "error"); ("c3", "sent")]%string
      /\ Scheduler.contacts_notified r = 2%nat
      /\ map (fun x => (keyOf x, d_status x, sent_at x))
             (alert_deliveries (db w'))
         = [(("e1", "c1", sms), d_sent, Some (clock 9 11 0));
            (("e1", "c3", sms), d_sent, Some (clock 9 11 0))]%string
      /\ deliveryIds (db w') = ["1-uuid"; "2-uuid"]%string
  | Thrown _ _ => False
  end.
Proof. vm_compute. repeat split. Qed.

(** The same scenario with a provider that rejects every message and a
    cipher that reads every phone: each contact is reported failed and its
    row is recorded as failed, with a retry one minute later. *)
Example three_contacts_provider_down :
  match Scheduler.triggerEscalation failingEnv (clock 9 11 0) "e1" threeContacts with
  | Returned r w' =>
      map (fun x => (Scheduler.r_contact_id x, Scheduler.r_status x))
          (Scheduler.deliveries r)
      = [("c1", "failed"); ("c2", "failed"); ("c3", "failed")]%string
      /\ Scheduler.contacts_notified r = 0%nat
      /\ map (fun x => (keyOf x, d_status x, next_retry_at x))
             (alert_deliveries (db w'))
         = [(("e1", "c1", sms), d_failed, Some (clock 9 12 0));
            (("e1", "c2", sms), d_failed, Some (clock 9 12 0));
            (("e1", "c3", sms), d_failed, Some (clock 9 12 0))]%string
  | Thrown _ _ => False
  end.
Proof. vm_compute. repeat split. Qed.


(** ** Idempotent delivery *)

#[export] Instance carries_preorder (P : DB -> Prop) : PreOrder (carries P).
Proof.
  split.
  - intros d H. exact H.
  - intros a b c Hab Hbc H. apply Hbc, Hab, H.
Qed.

Lemma Channel_eqb_eq (a b : Channel) : Channel_eqb a b = true <-> a = b.
Proof. destruct a, b; cbn; split; (reflexivity || discriminate). Qed.

Lemma idx_false_fresh ds x :
  idx_deliveries_event_contact ds x = false -> ~ In (keyOf x) (map keyOf ds).
Proof.
  intros Hidx Hin. apply in_map_iff in Hin. destruct Hin as [y [Hkey Hy]].
  unfold idx_deliveries_event_contact in Hidx.
  assert (Hex : existsb (fun y => (d_event_id y =? d_event_id x)%string
                                  && (d_contact_id y =? d_contact_id x)%string
                                  && Channel_eqb (channel y) (channel x)) ds
                = true).
  { apply existsb_exists. exists y. split; [exact Hy|].
    destruct (keyOf_fields _ _ Hkey) as [-> [-> ->]].
    rewrite !String.eqb_refl. cbn. apply Channel_eqb_eq. reflexivity. }
  rewrite Hex in Hidx. discriminate.
Qed.

Lemma NoDup_snoc {A} (l : list A) (x : A) :
  NoDup l -> ~ In x l -> NoDup (l ++ [x]).
Proof.
  intros Hnd Hx. induction Hnd as [|y l Hy Hnd IH]; cbn.
  - constructor; [tauto|constructor].
  - constructor.
    + intros Hin. apply in_app_or in Hin. destruct Hin as [Hin|[->|[]]].
      * contradiction.
      * apply Hx. left. reflexivity.
    + apply IH. intros Hin. apply Hx. right. exact Hin.
Qed.

Lemma keys_update d id (f : AlertDelivery -> AlertDelivery) :
  (forall x, keyOf (f x) = keyOf x) ->
  deliveryKeys
    (withDeliveries d
       (map (fun x => if (delivery_id x =? id)%string then f x else x)
            (alert_deliveries d)))
  = deliveryKeys d.
Proof.
  intros Hkey. unfold deliveryKeys. cbn [alert_deliveries withDeliveries].
  rewrite map_map. apply map_ext. intros x.
  destruct (delivery_id x =? id)%string; [apply Hkey|reflexivity].
Qed.

(** [triggerEscalation] never breaks the uniqueness of
    (event_id, contact_id, channel). *)
Lemma triggerEscalation_unique env now eventId w :
  uniqueDeliveries (db w) ->
  uniqueDeliveries (db (worldOf (Scheduler.triggerEscalation env now eventId w))).
Proof.
  rewrite triggerEscalation_unfold.
  destruct (Scheduler.findEventWithUser (db w) eventId) as [[event u]|];
    [|auto].
  assert (Hkeeps : keeps (carries uniqueDeliveries)
                     (Scheduler.alertContacts env now eventId event u)).
  { apply (alertContacts_keeps (carries uniqueDeliveries) eventId
             (fun _ => True)).
    - intros d ls H. exact H.
    - intros d x c _ Hidx _ _ H. unfold uniqueDeliveries, deliveryKeys in *.
      cbn [alert_deliveries withDeliveries]. rewrite map_app. cbn.
      apply NoDup_snoc; [exact H|]. apply idx_false_fresh. exact Hidx.
    - intros d id f Hkey H. unfold uniqueDeliveries in *.
      rewrite keys_update; assumption.
    - intros d. apply Forall_forall. intros c _. exact I. }
  intros H.
  exact (Hkeeps {| db := withEvents (db w)
                           (map (alertRow now eventId) (checkin_events (db w)));
                   drawn := drawn w |} H).
Qed.

(** A contact that has an SMS row for the event is skipped: nothing is sent,
    nothing is written, the report says so. *)
Lemma notifyContact_skips env now eventId message contact acc w :
  hasDelivery (db w) eventId contact = true ->
  Scheduler.notifyContact env now eventId message contact acc w
  = Returned (acc ++ [Scheduler.report contact "already_exists" None]) w.
Proof.
  unfold hasDelivery, Scheduler.notifyContact, bind, getDB.
  destruct (Scheduler.existingDelivery (db w) eventId contact);
    [reflexivity|discriminate].
Qed.

Lemma notifyContacts_skips env now eventId message (cs : list Contact) :
  forall acc w,
    Forall (fun c => hasDelivery (db w) eventId c = true) cs ->
    Scheduler.notifyContacts env now eventId message cs acc w
    = Returned
        (acc ++ map (fun c => Scheduler.report c "already_exists" None) cs) w.
Proof.
  induction cs as [|c cs IH]; intros acc w Hall; cbn.
  - rewrite app_nil_r. reflexivity.
  - inversion Hall as [|? ? Hc Hcs]; subst.
    unfold bind, try_catch.
    rewrite (notifyContact_skips env now eventId message c acc w Hc).
    rewrite (IH _ w Hcs), <- app_assoc. reflexivity.
Qed.

Lemma countSent_skipped (cs : list Contact) :
  Scheduler.countSent
    (map (fun c => Scheduler.report c "already_exists" None) cs) = 0%nat.
Proof.
  unfold Scheduler.countSent. induction cs as [|c cs IH]; cbn; [reflexivity|].
  exact IH.
Qed.

(** Re-running escalation for an event whose contacts all have their SMS row
    writes no delivery row and reports every contact as already existing. *)
Lemma triggerEscalation_rerun env now eventId w event u :
  Scheduler.findEventWithUser (db w) eventId = Some (event, u) ->
  Forall (fun c => hasDelivery (db w) eventId c = true)
         (Scheduler.contactsOf (db w) event) ->
  exists r w',
    Scheduler.triggerEscalation env now eventId w = Returned r w'
    /\ alert_deliveries (db w') = alert_deliveries (db w)
    /\ Scheduler.contacts_notified r = 0%nat
    /\ (u_sms_alerts_enabled u <> 0 ->
        Scheduler.deliveries r
        = map (fun c => Scheduler.report c "already_exists" None)
              (Scheduler.contactsOf (db w) event)).
Proof.
  intros Hfind Hall. rewrite triggerEscalation_unfold, Hfind.
  unfold Scheduler.alertContacts.
  unfold bind at 1. unfold logEvent, bind, generateUUID, getDB, putDB.
  cbn [db drawn].
  destruct (u_sms_alerts_enabled u =? 0) eqn:Hsms.
  - do 2 eexists. split; [reflexivity|]. split; [reflexivity|].
    split; [reflexivity|]. intros Hne. apply Z.eqb_eq in Hsms. contradiction.
  - cbv beta iota. cbn [db drawn].
    change (Scheduler.contactsOf (withLogs (withEvents (db w) _) _) event)
      with (Scheduler.contactsOf (db w) event).
    destruct (Scheduler.contactsOf (db w) event) as [|c cs] eqn:Hcontacts.
    + do 2 eexists. split; [reflexivity|]. split; [reflexivity|].
      split; reflexivity.
    + cbv zeta.
      match goal with
      | |- context [Scheduler.notifyContacts env now eventId ?m (c :: cs) [] ?w1] =>
          rewrite (notifyContacts_skips env now eventId m (c :: cs) [] w1 Hall)
      end.
      do 2 eexists. split; [reflexivity|]. split; [reflexivity|].
      split; [|intros _; reflexivity].
      cbn [Scheduler.contacts_notified app].
      apply (countSent_skipped (c :: cs)).
Qed.

(** C7, as amended: the idempotency guard is the SMS row.  A contact that
    has an SMS row for the event is skipped and reported "already_exists";
    re-running escalation when every contact has its SMS row creates no
    delivery row and reports all of them so; in any pass over distinct
    contacts those that had their SMS row are reported so; and the
    uniqueness of (event_id, contact_id, channel) is preserved. *)
Theorem escalation_is_idempotent env now eventId w :
  (forall message contact acc,
      hasDelivery (db w) eventId contact = true ->
      Scheduler.notifyContact env now eventId message contact acc w
      = Returned (acc ++ [Scheduler.report contact "already_exists" None]) w)
  /\ (forall event u,
         Scheduler.findEventWithUser (db w) eventId = Some (event, u) ->
         Forall (fun c => hasDelivery (db w) eventId c = true)
                (Scheduler.contactsOf (db w) event) ->
         exists r w',
           Scheduler.triggerEscalation env now eventId w = Returned r w'
           /\ alert_deliveries (db w') = alert_deliveries (db w)
           /\ Scheduler.contacts_notified r = 0%nat
           /\ (u_sms_alerts_enabled u <> 0 ->
               Scheduler.deliveries r
               = map (fun c => Scheduler.report c "already_exists" None)
                     (Scheduler.contactsOf (db w) event)))
  /\ (forall event u,
         Scheduler.findEventWithUser (db w) eventId = Some (event, u) ->
         u_sms_alerts_enabled u <> 0 ->
         NoDup (map c_contact_id (contacts (db w))) ->
         exists r w',
           Scheduler.triggerEscalation env now eventId w = Returned r w'
           /\ forall c,
                In c (Scheduler.contactsOf (db w) event) ->
                hasDelivery (db w) eventId c = true ->
                In (Scheduler.report c "already_exists" None)
                   (Scheduler.deliveries r))
  /\ (uniqueDeliveries (db w) ->
      uniqueDeliveries
        (db (worldOf (Scheduler.triggerEscalation env now eventId w)))).
Proof.
  repeat apply conj.
  - intros message contact acc. apply notifyContact_skips.
  - intros event u. apply triggerEscalation_rerun.
  - intros event u Hfind Hsms Hnd.
    destruct (triggerEscalation_outcome env now eventId w event u Hfind Hsms Hnd)
      as [w' Hrun].
    do 2 eexists. split; [exact Hrun|]. cbn [Scheduler.deliveries].
    intros c Hin Hhas. apply in_map_iff. exists c. split; [|exact Hin].
    unfold expectedReport. unfold hasDelivery in Hhas.
    destruct (Scheduler.existingDelivery (db w) eventId c);
      [reflexivity|discriminate].
  - apply triggerEscalation_unique.
Qed.

Lemma escalation_is_idempotent_witness :
  exists r w',
    Scheduler.triggerEscalation demoEnv (clock 9 12 0) "e1" alreadyAlerted
    = Returned r w'
    /\ alert_deliveries (db w') = alert_deliveries (db alreadyAlerted)
    /\ Scheduler.contacts_notified r = 0%nat
    /\ (u_sms_alerts_enabled alice <> 0 ->
        Scheduler.deliveries r
        = map (fun c => Scheduler.report c "already_exists" None)
              (Scheduler.contactsOf (db alreadyAlerted)
                 (Scheduler.setAlerted (clock 9 11 0) (nineOClock pending None 0)))).
Proof.
  apply (proj1 (proj2 (escalation_is_idempotent demoEnv (clock 9 12 0) "e1"
                         alreadyAlerted))
           (Scheduler.setAlerted (clock 9 11 0) (nineOClock pending None 0))
           alice).
  - reflexivity.
  - repeat constructor.
Defined.

(** C7, as stated, fails for the push channel: a delivery row exists for
    (event, contact, push), yet the contact is not skipped; it is reported
    as sent and a new row is written. *)
Lemma push_row_is_no_guard :
  In ("e1", "c1", push)%string (deliveryKeys (db pushOnly))
  /\ match Scheduler.triggerEscalation demoEnv (clock 9 12 0) "e1" pushOnly with
     | Returned r w' =>
         map (fun x => (Scheduler.r_contact_id x, Scheduler.r_status x))
             (Scheduler.deliveries r)
         = [("c1", "sent")]%string
         /\ deliveryKeys (db w')
            = [("e1", "c1", push); ("e1", "c1", sms)]%string
     | Thrown _ _ => False
     end.
Proof.
  split; [left; reflexivity|]. vm_compute. split; reflexivity.
Qed.

(** ** Confirming twice *)

(** X24: a second confirm that names the same event id gets the timestamp
    of the first and changes nothing: no row is written, no audit entry
    added. *)
Lemma confirm_twice env now now' user body body' w event id :
  truthy (Checkin.cr_event_id body) = Some id ->
  truthy (Checkin.cr_event_id body') = Some id ->
  Checkin.findEvent (db w) user body = Some event ->
  status event <> confirmed ->
  exists r,
    Checkin.confirm env now' user body'
      (worldOf (Checkin.confirm env now user body w))
    = Returned (Json r) (worldOf (Checkin.confirm env now user body w))
    /\ Checkin.r_confirmed_at r = Some (confirmedAtOf body now)
    /\ Checkin.r_event_id r = event_id event.
Proof.
  intros Hid Hid' Hfind Hst.
  destruct (confirm_found_open env now user body w event Hfind Hst) as [msg ->].
  cbn [worldOf].
  assert (Hown : findOwn (db w) user id = Some event /\ event_id event = id).
  { unfold Checkin.findEvent in Hfind. rewrite Hid in Hfind. split; [exact Hfind|].
    apply find_some in Hfind. destruct Hfind as [_ Hp].
    apply andb_prop in Hp. destruct Hp as [Hp _]. apply String.eqb_eq, Hp. }
  destruct Hown as [Hown Heq].
  assert (Hfind' : Checkin.findEvent
                     (db (confirmedWorld env now user body w event)) user body'
                   = Some (Checkin.setConfirmed (confirmedAtOf body now) now event)).
  { unfold Checkin.findEvent. rewrite Hid'. unfold confirmedWorld.
    cbn [db checkin_events withLogs withEvents]. rewrite find_map_same.
    - unfold findOwn in Hown. rewrite Hown. cbn. rewrite String.eqb_refl.
      reflexivity.
    - intros x. destruct (event_id x =? event_id event)%string; reflexivity. }
  eexists. split.
  - apply (confirm_found_confirmed env now' user body' _ _ Hfind'). reflexivity.
  - split; reflexivity.
Qed.


(** ** A day in the life of one check-in *)

(** The tick before 09:00 creates the pending event with deadline 09:10; the
    09:11 tick alerts it and sends one SMS; the confirm at 09:15 succeeds
    and is flagged as escalated. *)
Example end_to_end :
  map (fun e => (status e, scheduled_time e, deadline_time e))
      (checkin_events (db afterSchedulerTick))
  = [(pending, clock 9 0 0, clock 9 10 0)]
  /\ map status (checkin_events (db afterEscalationTick)) = [alerted]
  /\ map (fun x => (keyOf x, d_status x)) (alert_deliveries (db afterEscalationTick))
     = [(("0-uuid", "c1", sms), d_sent)]%string
  /\ match Checkin.confirm demoEnv (clock 9 15 0) alice
             {| Checkin.cr_event_id := Some "0-uuid"%string;
                Checkin.cr_scheduled_at := None;
                Checkin.cr_confirmed_at := Some (clock 9 15 0) |}
             afterEscalationTick with
     | Returned (Json r) w' =>
         Checkin.was_escalated r = true
         /\ map status (checkin_events (db w')) = [confirmed]
     | _ => False
     end.
Proof. vm_compute. repeat split. Qed.

(** ** The retry manager *)

Lemma withDeliveries_same d : withDeliveries d (alert_deliveries d) = d.
Proof. destruct d; reflexivity. Qed.

Lemma world_same (w : World) : {| db := db w; drawn := drawn w |} = w.
Proof. destruct w; reflexivity. Qed.

Lemma unchanged_rows {Row} (touch : Row -> Row) (rows : list Row) :
  (forall row, touch row = row) -> map touch rows = rows.
Proof.
  intros H. induction rows as [|row rows IH]; cbn; [reflexivity|].
  rewrite H, IH. reflexivity.
Qed.

Lemma retryEffect_fixed env now r x :
  fixedColumns (retryEffect env now r x) = fixedColumns x.
Proof.
  unfold retryEffect. destruct (decrypt env _); [|reflexivity].
  cbv zeta. destruct (Twilio.success _); reflexivity.
Qed.

Lemma retryStep_fixed env now r x :
  fixedColumns (retryStep env now r x) = fixedColumns x.
Proof.
  unfold retryStep. destruct (_ =? _)%string; [apply retryEffect_fixed|reflexivity].
Qed.

Lemma applyRetries_fixed env now rows :
  forall x, fixedColumns (applyRetries env now rows x) = fixedColumns x.
Proof.
  unfold applyRetries. induction rows as [|r rows IH]; intros x; cbn; [reflexivity|].
  rewrite IH. apply retryStep_fixed.
Qed.

Lemma fixedColumns_id x y :
  fixedColumns x = fixedColumns y -> delivery_id x = delivery_id y.
Proof. unfold fixedColumns. congruence. Qed.

(** One turn of the loop is one UPDATE by delivery id; it neither throws
    nor draws a UUID. *)
Lemma retryOne_runs env now r w :
  Scheduler.retryOne env now r w
  = Returned tt
      {| db := withDeliveries (db w)
                 (map (retryStep env now r) (alert_deliveries (db w)));
         drawn := drawn w |}.
Proof.
  unfold Scheduler.retryOne, retryStep, retryEffect, retryMessage, nextRetryAfter.
  unfold try_catch, bind.
  destruct (decrypt env (Scheduler.rr_phone_enc r)) as [phone|].
  - cbv zeta. unfold ret at 1.
    destruct (Twilio.success _); reflexivity.
  - cbn. rewrite unchanged_rows, withDeliveries_same, world_same; [reflexivity|].
    intros x. destruct (_ =? _)%string; reflexivity.
Qed.

Lemma retry_loop env now (rows : list Scheduler.RetryRow) :
  forall w,
    Scheduler.forEach rows (Scheduler.retryOne env now) w
    = Returned tt
        {| db := withDeliveries (db w)
                   (map (applyRetries env now rows) (alert_deliveries (db w)));
           drawn := drawn w |}.
Proof.
  induction rows as [|r rows IH]; intros w.
  - cbn. unfold ret.
    rewrite unchanged_rows, withDeliveries_same, world_same; reflexivity.
  - cbn [Scheduler.forEach]. unfold bind. rewrite retryOne_runs, IH.
    cbn [db drawn alert_deliveries withDeliveries]. rewrite map_map.
    reflexivity.
Qed.

Lemma handleRetries_loop env now w :
  Scheduler.handleRetries env now w
  = Returned tt
      {| db := withDeliveries (db w)
                 (map (applyRetries env now (retryRows (db w) now
                                               (alert_deliveries (db w))))
                      (alert_deliveries (db w)));
         drawn := drawn w |}.
Proof.
  unfold Scheduler.handleRetries, bind, getDB. apply retry_loop.
Qed.

Lemma joinRetry_delivery d x r :
  Scheduler.joinRetry d x = Some r -> Scheduler.rr_delivery r = x.
Proof.
  unfold Scheduler.joinRetry. destruct (find _ (contacts d)); [|discriminate].
  destruct (Scheduler.findEventWithUser d _) as [[e u]|]; [|discriminate].
  intros H. injection H as <-. reflexivity.
Qed.

Lemma retryRows_selected d now l r :
  In r (retryRows d now l) ->
  In (Scheduler.rr_delivery r) l
  /\ Scheduler.retryDue now (Scheduler.rr_delivery r) = true
  /\ Scheduler.joinRetry d (Scheduler.rr_delivery r) = Some r.
Proof.
  unfold retryRows. intros H. apply in_flat_map in H. destruct H as [x [Hx Hr]].
  apply filter_In in Hx. destruct Hx as [Hin Hdue].
  destruct (Scheduler.joinRetry d x) as [r'|] eqn:Hjoin; [|contradiction].
  destruct Hr as [<-|[]]. rewrite (joinRetry_delivery _ _ _ Hjoin). auto.
Qed.

Lemma retryRows_app d now l1 l2 :
  retryRows d now (l1 ++ l2) = retryRows d now l1 ++ retryRows d now l2.
Proof. unfold retryRows. rewrite filter_app, flat_map_app. reflexivity. Qed.

Lemma applyRetries_app env now rows1 rows2 x :
  applyRetries env now (rows1 ++ rows2) x
  = applyRetries env now rows2 (applyRetries env now rows1 x).
Proof. unfold applyRetries. apply fold_left_app. Qed.

Lemma applyRetries_miss env now rows :
  forall x,
    (forall r, In r rows ->
               delivery_id (Scheduler.rr_delivery r) <> delivery_id x) ->
    applyRetries env now rows x = x.
Proof.
  unfold applyRetries. induction rows as [|r rows IH]; intros x H; [reflexivity|].
  cbn. unfold retryStep at 2.
  destruct (delivery_id x =? _)%string eqn:E.
  - apply String.eqb_eq in E. exfalso. apply (H r); [left; reflexivity|].
    symmetry. exact E.
  - apply IH. intros r' Hr'. apply H. right. exact Hr'.
Qed.

(** With distinct delivery ids the loop comes to one step per row. *)
Lemma pass_row env now d (l : list AlertDelivery) x :
  NoDup (map delivery_id l) -> In x l ->
  applyRetries env now (retryRows d now l) x = retried env now d x.
Proof.
  intros Hnd Hin. apply in_split in Hin. destruct Hin as [l1 [l2 ->]].
  rewrite map_app in Hnd. cbn [map] in Hnd.
  pose proof (NoDup_remove_2 _ _ _ Hnd) as Hfresh.
  assert (Hother : forall r, In r (retryRows d now l1) \/ In r (retryRows d now l2) ->
                             delivery_id (Scheduler.rr_delivery r) <> delivery_id x).
  { intros r Hr Heq. apply Hfresh. rewrite <- Heq. apply in_or_app.
    destruct Hr as [Hr|Hr]; apply retryRows_selected in Hr;
      destruct Hr as [Hr _]; [left|right]; apply in_map; exact Hr. }
  change (l1 ++ x :: l2) with (l1 ++ [x] ++ l2).
  rewrite !retryRows_app, !applyRetries_app.
  rewrite (applyRetries_miss env now (retryRows d now l1) x)
    by (intros r Hr; apply Hother; left; exact Hr).
  assert (Hmid : applyRetries env now (retryRows d now [x]) x = retried env now d x).
  { unfold retryRows, retried. cbn [filter].
    destruct (Scheduler.retryDue now x); [|reflexivity].
    cbn [flat_map app].
    destruct (Scheduler.joinRetry d x) as [r|] eqn:Hjoin; [|reflexivity].
    cbn. unfold retryStep. rewrite (joinRetry_delivery _ _ _ Hjoin).
    rewrite String.eqb_refl. reflexivity. }
  rewrite Hmid. apply applyRetries_miss. intros r Hr.
  assert (Hid : delivery_id (retried env now d x) = delivery_id x).
  { rewrite <- Hmid. apply fixedColumns_id, applyRetries_fixed. }
  rewrite Hid. apply Hother. right. exact Hr.
Qed.

(** A retry pass over a table with distinct delivery ids rewrites each row
    by [retried], and nothing else. *)
Lemma handleRetries_rows env now w :
  NoDup (deliveryIds (db w)) ->
  Scheduler.handleRetries env now w
  = Returned tt
      {| db := withDeliveries (db w)
                 (map (retried env now (db w)) (alert_deliveries (db w)));
         drawn := drawn w |}.
Proof.
  intros Hnd. rewrite handleRetries_loop. do 3 f_equal.
  apply map_ext_in. intros x Hx. apply pass_row; assumption.
Qed.

Lemma related_rows {Row} (R : Row -> Row -> Prop) (touch : Row -> Row)
    (rows : list Row) :
  (forall row, In row rows -> R row (touch row)) ->
  Forall2 R rows (map touch rows).
Proof.
  induction rows as [|row rows IH]; intros H; cbn; constructor.
  - apply H. left. reflexivity.
  - apply IH. intros r Hr. apply H. right. exact Hr.
Qed.

(** X1: a retry pass always completes, whatever decryption and the provider
    do, and draws no UUID; it leaves users, contacts, events and the audit
    log as they were, adds and removes no delivery row, and never changes
    the id of a row, its (event, contact, channel), its [max_retries] or
    its creation time. *)
Theorem handleRetries_completes env now w :
  exists w',
    Scheduler.handleRetries env now w = Returned tt w'
    /\ drawn w' = drawn w
    /\ users (db w') = users (db w)
    /\ contacts (db w') = contacts (db w)
    /\ checkin_events (db w') = checkin_events (db w)
    /\ event_logs (db w') = event_logs (db w)
    /\ map fixedColumns (alert_deliveries (db w'))
       = map fixedColumns (alert_deliveries (db w)).
Proof.
  rewrite handleRetries_loop. eexists. split; [reflexivity|].
  cbn [db drawn users contacts checkin_events event_logs alert_deliveries
       withDeliveries].
  repeat apply conj; try reflexivity.
  rewrite map_map. apply map_ext. intros x. apply applyRetries_fixed.
Qed.

Lemma notYetDue_spec now x :
  notYetDue now x <-> Scheduler.retryDue now x = false.
Proof.
  unfold notYetDue, settled, Scheduler.retryDue. split.
  - intros [[H|[H|H]]|[t [H Ht]]].
    + destruct (d_status x); try reflexivity. congruence.
    + apply Nat.ltb_ge in H. rewrite H. rewrite andb_false_r. reflexivity.
    + rewrite H. apply andb_false_r.
    + rewrite H. replace (t <=? now) with false by (symmetry; apply Z.leb_gt; lia).
      apply andb_false_r.
  - intros H. destruct (d_status x) eqn:Hst;
      try (left; left; congruence).
    destruct (retry_count x <? max_retries x)%nat eqn:Hc.
    + destruct (next_retry_at x) as [t|] eqn:Hn.
      * right. exists t. split; [reflexivity|]. cbn in H. apply Z.leb_gt in H. lia.
      * left. right. right. reflexivity.
    + left. right. left. apply Nat.ltb_ge. exact Hc.
Qed.

(** X2: with distinct delivery ids, a retry pass rewrites no row that is
    not a failed delivery with retries left whose [next_retry_at] has come:
    a sent or exhausted row, a row without a retry time and a row due later
    are all left exactly as they were. *)
Theorem retry_waits_until_due env now w :
  NoDup (deliveryIds (db w)) ->
  Forall2 (fun x y => notYetDue now x -> y = x)
    (alert_deliveries (db w))
    (alert_deliveries (db (worldOf (Scheduler.handleRetries env now w)))).
Proof.
  intros Hnd. rewrite (handleRetries_rows env now w Hnd).
  cbn [worldOf db alert_deliveries withDeliveries].
  apply related_rows. intros x _ Hx. apply notYetDue_spec in Hx.
  unfold retried. rewrite Hx. reflexivity.
Qed.

Lemma retry_waits_until_due_witness :
  Forall2 (fun x y => notYetDue (clock 9 11 30) x -> y = x)
    (alert_deliveries (db (retryWorld 0 (Some (clock 9 12 0)))))
    (alert_deliveries
       (db (worldOf (Scheduler.handleRetries failingEnv (clock 9 11 30)
                       (retryWorld 0 (Some (clock 9 12 0))))))).
Proof.
  apply (retry_waits_until_due failingEnv (clock 9 11 30)
           (retryWorld 0 (Some (clock 9 12 0)))).
  repeat constructor. cbn. tauto.
Defined.

Lemma retried_cases env now d x :
  retried env now d x = x
  \/ (Scheduler.retryDue now x = true
      /\ exists r phone,
           Scheduler.joinRetry d x = Some r
           /\ decrypt env (Scheduler.rr_phone_enc r) = Some phone
           /\ retried env now d x
              = if Twilio.success (sendSMS env phone (retryMessage env r))
                then Scheduler.setResent
                       (sendSMS env phone (retryMessage env r)) now x
                else Scheduler.setRetried (retry_count x + 1)
                       (sendSMS env phone (retryMessage env r))
                       (nextRetryAfter now (retry_count x + 1) (max_retries x))
                       now x).
Proof.
  unfold retried. destruct (Scheduler.retryDue now x) eqn:Hdue; [|left; reflexivity].
  destruct (Scheduler.joinRetry d x) as [r|] eqn:Hjoin; [|left; reflexivity].
  unfold retryEffect. rewrite (joinRetry_delivery _ _ _ Hjoin).
  destruct (decrypt env (Scheduler.rr_phone_enc r)) as [phone|] eqn:Hdec;
    [|left; reflexivity].
  right. split; [reflexivity|]. exists r, phone. repeat split; assumption.
Qed.

Lemma retryDue_room now x :
  Scheduler.retryDue now x = true ->
  d_status x = d_failed /\ (retry_count x < max_retries x)%nat.
Proof.
  unfold Scheduler.retryDue. intros H.
  apply andb_prop in H. destruct H as [H _].
  apply andb_prop in H. destruct H as [Hst Hc]. split.
  - destruct (d_status x); try discriminate. reflexivity.
  - apply Nat.ltb_lt. exact Hc.
Qed.

(** X3: with distinct delivery ids, a retry pass makes at most one attempt
    per delivery, each attempt uses up one of the attempts the row has
    left ([max_retries - retry_count] while it is failed), and the retry
    count never passes [max_retries]. *)
Theorem retry_budget env now w :
  NoDup (deliveryIds (db w)) ->
  Forall2 (fun x y =>
             (y = x \/ (attemptsLeft y < attemptsLeft x)%nat)
             /\ (retry_count x <= retry_count y <= retry_count x + 1)%nat
             /\ ((retry_count x <= max_retries x)%nat ->
                 (retry_count y <= max_retries y)%nat))
    (alert_deliveries (db w))
    (alert_deliveries (db (worldOf (Scheduler.handleRetries env now w)))).
Proof.
  intros Hnd. rewrite (handleRetries_rows env now w Hnd).
  cbn [worldOf db alert_deliveries withDeliveries].
  apply related_rows. intros x _.
  destruct (retried_cases env now (db w) x)
    as [->|[Hdue [r [phone [_ [_ ->]]]]]].
  - repeat split; auto; lia.
  - apply retryDue_room in Hdue. destruct Hdue as [Hst Hc].
    destruct (Twilio.success _).
    + split; [right|]; unfold attemptsLeft; cbn; rewrite ?Hst; lia.
    + split; [right|]; unfold attemptsLeft; cbn; rewrite ?Hst; lia.
Qed.

Lemma retry_budget_witness :
  Forall2 (fun x y =>
             (y = x \/ (attemptsLeft y < attemptsLeft x)%nat)
             /\ (retry_count x <= retry_count y <= retry_count x + 1)%nat
             /\ ((retry_count x <= max_retries x)%nat ->
                 (retry_count y <= max_retries y)%nat))
    (alert_deliveries (db (retryWorld 2 (Some (clock 9 18 0)))))
    (alert_deliveries
       (db (worldOf (Scheduler.handleRetries failingEnv (clock 9 18 2)
                       (retryWorld 2 (Some (clock 9 18 0))))))).
Proof.
  apply (retry_budget failingEnv (clock 9 18 2)
           (retryWorld 2 (Some (clock 9 18 0)))).
  repeat constructor. cbn. tauto.
Defined.

(** X4: what a retry pass does to a due row whose contact, event and user
    exist and whose phone decrypts (ids distinct).  If the provider accepts
    the message the row becomes sent, with [sent_at] now and no retry time.
    If not, it stays failed, its count goes up by one and the next retry is
    set [min(2^count, 30)] minutes after now for the new count, or
    to NULL once the new count has reached [max_retries]. *)
Theorem retry_outcome env now w x r phone :
  NoDup (deliveryIds (db w)) ->
  In x (alert_deliveries (db w)) ->
  Scheduler.retryDue now x = true ->
  Scheduler.joinRetry (db w) x = Some r ->
  decrypt env (Scheduler.rr_phone_enc r) = Some phone ->
  exists y,
    In y (alert_deliveries (db (worldOf (Scheduler.handleRetries env now w))))
    /\ delivery_id y = delivery_id x
    /\ if Twilio.success (sendSMS env phone (retryMessage env r))
       then d_status y = d_sent
            /\ sent_at y = Some now
            /\ next_retry_at y = None
            /\ retry_count y = retry_count x
       else d_status y = d_failed
            /\ retry_count y = S (retry_count x)
            /\ error_message y
               = Twilio.errorMessage (sendSMS env phone (retryMessage env r))
            /\ next_retry_at y
               = if (S (retry_count x) <? max_retries x)%nat
                 then Some (now + Z.min (2 ^ Z.of_nat (S (retry_count x))) 30
                                  * MS_PER_MINUTE)
                 else None.
Proof.
  intros Hnd Hin Hdue Hjoin Hdec. rewrite (handleRetries_rows env now w Hnd).
  cbn [worldOf db alert_deliveries withDeliveries].
  exists (retried env now (db w) x). split; [apply in_map; exact Hin|].
  destruct (retryDue_room _ _ Hdue) as [Hst _].
  unfold retried. rewrite Hdue, Hjoin. unfold retryEffect.
  rewrite (joinRetry_delivery _ _ _ Hjoin), Hdec. cbv zeta.
  destruct (Twilio.success _).
  - repeat split.
  - rewrite Nat.add_1_r. repeat split. exact Hst.
Qed.

Lemma retry_outcome_witness :
  exists y,
    In y (alert_deliveries
            (db (worldOf (Scheduler.handleRetries failingEnv (clock 9 12 2)
                            (retryWorld 0 (Some (clock 9 12 0)))))))
    /\ delivery_id y = "d1"%string
    /\ d_status y = d_failed
    /\ retry_count y = 1%nat
    /\ error_message y = Some "Twilio error: 503"%string
    /\ next_retry_at y = Some (clock 9 14 2).
Proof.
  apply (retry_outcome failingEnv (clock 9 12 2)
           (retryWorld 0 (Some (clock 9 12 0)))
           (failedRow 0 (Some (clock 9 12 0)))
           {| Scheduler.rr_delivery := failedRow 0 (Some (clock 9 12 0));
              Scheduler.rr_phone_enc := "+15550001";
              Scheduler.rr_scheduled_time := clock 9 0 0;
              Scheduler.rr_user_name := "Alice" |}
           "+15550001"%string).
  - repeat constructor. cbn. tauto.
  - left. reflexivity.
  - reflexivity.
  - reflexivity.
  - reflexivity.
Defined.

Lemma calculateNextRetry_later now retryCount :
  now < Twilio.calculateNextRetry now retryCount.
Proof.
  unfold Twilio.calculateNextRetry, Twilio.actualDelay, Twilio.Math_pow,
    Twilio.maxDelayMinutes, MS_PER_MINUTE.
  assert (0 < 2 ^ Z.of_nat retryCount) by (apply Z.pow_pos_nonneg; lia).
  lia.
Qed.

Lemma deliveryIds_retried env now d0 d :
  deliveryIds (withDeliveries d (map (retried env now d0) (alert_deliveries d)))
  = deliveryIds d.
Proof.
  unfold deliveryIds. cbn. rewrite map_map. apply map_ext. intros x.
  unfold retried. destruct (Scheduler.retryDue now x); [|reflexivity].
  destruct (Scheduler.joinRetry d0 x); [|reflexivity].
  apply fixedColumns_id, retryEffect_fixed.
Qed.

(** X5: a delivery that is sent, or has used up its retries, or has no
    retry time, is final for the retry manager: through any sequence of
    retry passes, at any times and whatever the provider answers, the row
    stays exactly as it is (ids distinct). *)
Theorem settled_delivery_is_final ticks w x :
  NoDup (deliveryIds (db w)) ->
  In x (alert_deliveries (db w)) ->
  settled x ->
  In x (alert_deliveries (db (worldOf (retryPasses ticks w)))).
Proof.
  intros Hnd Hin Hx. unfold retryPasses. revert w Hnd Hin.
  induction ticks as [|[env now] ticks IH]; intros w Hnd Hin; [exact Hin|].
  cbn [Scheduler.forEach fst snd]. unfold bind.
  rewrite (handleRetries_rows env now w Hnd). apply IH.
  - cbn [db]. rewrite deliveryIds_retried. exact Hnd.
  - cbn [db alert_deliveries withDeliveries].
    replace x with (retried env now (db w) x) at 1; [apply in_map; exact Hin|].
    unfold retried.
    replace (Scheduler.retryDue now x) with false; [reflexivity|].
    symmetry. apply notYetDue_spec. left. exact Hx.
Qed.

Lemma settled_delivery_is_final_witness :
  In (failedRow 3 None)
     (alert_deliveries
        (db (worldOf (retryPasses [(demoEnv, clock 9 20 0); (demoEnv, clock 9 50 0)]
                        (retryWorld 3 None))))).
Proof.
  apply (settled_delivery_is_final
           [(demoEnv, clock 9 20 0); (demoEnv, clock 9 50 0)]
           (retryWorld 3 None) (failedRow 3 None)).
  - repeat constructor. cbn. tauto.
  - left. reflexivity.
  - right. left. cbn. lia.
Defined.

Lemma findEventWithUser_map d d' (f : CheckinEvent -> CheckinEvent)
    (g : User -> User) id :
  checkin_events d' = map f (checkin_events d) ->
  users d' = map g (users d) ->
  (forall e, event_id (f e) = event_id e /\ user_id (f e) = user_id e) ->
  (forall u, u_user_id (g u) = u_user_id u) ->
  Scheduler.findEventWithUser d' id
  = option_map (fun p => (f (fst p), g (snd p)))
               (Scheduler.findEventWithUser d id).
Proof.
  intros He Hu Hf Hg. unfold Scheduler.findEventWithUser. rewrite He, Hu.
  rewrite find_map_same by (intros e; destruct (Hf e) as [-> _]; reflexivity).
  destruct (find _ (checkin_events d)) as [e|]; [|reflexivity]. cbn.
  destruct (Hf e) as [_ ->].
  rewrite find_map_same by (intros u; rewrite Hg; reflexivity).
  destruct (find _ (users d)); reflexivity.
Qed.

(** The retry query reads of an event its id, user and scheduled time, and
    of a user the id and the name. *)
Lemma joinRetry_map d d' (f : CheckinEvent -> CheckinEvent) (g : User -> User) x :
  contacts d' = contacts d ->
  checkin_events d' = map f (checkin_events d) ->
  users d' = map g (users d) ->
  (forall e, event_id (f e) = event_id e /\ user_id (f e) = user_id e) ->
  (forall e, scheduled_time (f e) = scheduled_time e) ->
  (forall u, u_user_id (g u) = u_user_id u) ->
  (forall u, u_name (g u) = u_name u) ->
  Scheduler.joinRetry d' x = Scheduler.joinRetry d x.
Proof.
  intros Hc He Hu Hf Hs Hg Hn. unfold Scheduler.joinRetry. rewrite Hc.
  rewrite (findEventWithUser_map d d' f g _ He Hu Hf Hg).
  destruct (find _ (contacts d)); [|reflexivity].
  destruct (Scheduler.findEventWithUser d _) as [[e u]|]; [|reflexivity].
  cbn. rewrite Hs, Hn. reflexivity.
Qed.

Lemma retried_map env now d d' (f : CheckinEvent -> CheckinEvent)
    (g : User -> User) x :
  contacts d' = contacts d ->
  checkin_events d' = map f (checkin_events d) ->
  users d' = map g (users d) ->
  (forall e, event_id (f e) = event_id e /\ user_id (f e) = user_id e) ->
  (forall e, scheduled_time (f e) = scheduled_time e) ->
  (forall u, u_user_id (g u) = u_user_id u) ->
  (forall u, u_name (g u) = u_name u) ->
  retried env now d' x = retried env now d x.
Proof.
  intros. unfold retried. rewrite (joinRetry_map d d' f g); auto.
Qed.

Lemma retried_same_tables env now d d' x :
  contacts d' = contacts d ->
  checkin_events d' = checkin_events d ->
  users d' = users d ->
  retried env now d' x = retried env now d x.
Proof.
  intros Hc He Hu.
  apply (retried_map env now d d' (fun e => e) (fun u => u));
    rewrite ?map_id; auto.
Qed.

Lemma retried_settles env now d x :
  retried env now d (retried env now d x) = retried env now d x.
Proof.
  destruct (retried_cases env now d x)
    as [Hsame|[Hdue [r [phone [_ [_ ->]]]]]]; [rewrite Hsame; exact Hsame|].
  assert (Hlater : forall n m,
             match nextRetryAfter now n m with
             | Some t => t <=? now
             | None => false
             end = false).
  { intros n m. unfold nextRetryAfter. destruct (n <? m)%nat; [|reflexivity].
    apply Z.leb_gt, calculateNextRetry_later. }
  destruct (Twilio.success _); unfold retried at 1, Scheduler.retryDue; cbn.
  - reflexivity.
  - rewrite Hlater, andb_false_r. reflexivity.
Qed.

(** X6: a retry pass repeated at the same instant, as when the cron
    trigger is delivered twice, changes nothing: what the first pass sent
    is not sent again, and what it failed to send is due later (ids
    distinct, collaborators answering as before). *)
Theorem retry_pass_is_idempotent env now w :
  NoDup (deliveryIds (db w)) ->
  Scheduler.handleRetries env now
    (worldOf (Scheduler.handleRetries env now w))
  = Returned tt (worldOf (Scheduler.handleRetries env now w)).
Proof.
  intros Hnd. rewrite (handleRetries_rows env now w Hnd). cbn [worldOf].
  rewrite handleRetries_rows
    by (cbn [db]; rewrite deliveryIds_retried; exact Hnd).
  cbn [db drawn alert_deliveries withDeliveries].
  do 2 f_equal. destruct (db w) as [us cs evs ds ls]. unfold withDeliveries.
  cbn [users contacts checkin_events alert_deliveries event_logs].
  f_equal. rewrite map_map. apply map_ext. intros x.
  rewrite (retried_same_tables env now
             {| users := us; contacts := cs; checkin_events := evs;
                alert_deliveries := ds; event_logs := ls |}); try reflexivity.
  apply retried_settles.
Qed.

Lemma retry_pass_is_idempotent_witness :
  Scheduler.handleRetries failingEnv (clock 9 12 2)
    (worldOf (Scheduler.handleRetries failingEnv (clock 9 12 2)
                (retryWorld 0 (Some (clock 9 12 0)))))
  = Returned tt
      (worldOf (Scheduler.handleRetries failingEnv (clock 9 12 2)
                  (retryWorld 0 (Some (clock 9 12 0))))).
Proof.
  apply (retry_pass_is_idempotent failingEnv (clock 9 12 2)
           (retryWorld 0 (Some (clock 9 12 0)))).
  repeat constructor. cbn. tauto.
Defined.

Lemma retries_after env now w w' (f : CheckinEvent -> CheckinEvent)
    (g : User -> User) :
  NoDup (deliveryIds (db w)) ->
  alert_deliveries (db w') = alert_deliveries (db w) ->
  contacts (db w') = contacts (db w) ->
  checkin_events (db w') = map f (checkin_events (db w)) ->
  users (db w') = map g (users (db w)) ->
  (forall e, event_id (f e) = event_id e /\ user_id (f e) = user_id e) ->
  (forall e, scheduled_time (f e) = scheduled_time e) ->
  (forall u, u_user_id (g u) = u_user_id u) ->
  (forall u, u_name (g u) = u_name u) ->
  alert_deliveries (db (worldOf (Scheduler.handleRetries env now w')))
  = alert_deliveries (db (worldOf (Scheduler.handleRetries env now w))).
Proof.
  intros Hnd Hds Hc He Hu Hf Hs Hg Hn.
  rewrite (handleRetries_rows env now w Hnd).
  rewrite (handleRetries_rows env now w')
    by (unfold deliveryIds; rewrite Hds; exact Hnd).
  cbn [worldOf db alert_deliveries withDeliveries]. rewrite Hds.
  apply map_ext. intros x. apply (retried_map env now (db w) (db w') f g); auto.
Qed.

(** X7: the retry manager looks at neither the status of the event nor the
    pause of the user.  A confirmation of an existing event (on time or
    late) and a pause change nothing in what the next retry pass does to
    the deliveries: a failed alert keeps being retried after the user has
    confirmed or paused (ids distinct). *)
Theorem retries_ignore_confirm_and_pause env now w :
  NoDup (deliveryIds (db w)) ->
  (forall env0 now0 user body event,
      Checkin.findEvent (db w) user body = Some event ->
      alert_deliveries
        (db (worldOf (Scheduler.handleRetries env now
                        (worldOf (Checkin.confirm env0 now0 user body w)))))
      = alert_deliveries (db (worldOf (Scheduler.handleRetries env now w))))
  /\ (forall env0 now0 user text,
         accepted env0 now0 text = true ->
         alert_deliveries
           (db (worldOf (Scheduler.handleRetries env now
                           (worldOf (Settings.pause env0 now0 user
                                       {| Settings.pause_until := Some text |} w)))))
         = alert_deliveries (db (worldOf (Scheduler.handleRetries env now w)))).
Proof.
  intros Hnd. split.
  - intros env0 now0 user body event Hfind.
    destruct (CheckinStatus_eqb (status event) confirmed) eqn:Hst.
    + rewrite (confirm_found_confirmed env0 now0 user body w event Hfind)
        by (destruct (status event); try discriminate; reflexivity).
      reflexivity.
    + destruct (confirm_found_open env0 now0 user body w event Hfind)
        as [msg ->]; [intros E; rewrite E in Hst; discriminate|].
      cbn [worldOf].
      apply (retries_after env now w _
               (fun e => if (event_id e =? event_id event)%string
                         then Checkin.setConfirmed (confirmedAtOf body now0) now0 e
                         else e)
               (fun u => u)); try reflexivity; auto.
      * unfold confirmedWorld. cbn. symmetry. apply map_id.
      * intros e. destruct (_ =? _)%string; split; reflexivity.
      * intros e. destruct (_ =? _)%string; reflexivity.
  - intros env0 now0 user text Ht.
    rewrite (pause_sets env0 now0 user text w Ht).
    cbn [worldOf].
    apply (retries_after env now w _ (pauseRow now0 (u_user_id user))
             (pauseUserRow text (u_user_id user))); try reflexivity; auto.
    + intros e. unfold pauseRow. destruct (_ && _); split; reflexivity.
    + intros e. unfold pauseRow. destruct (_ && _); reflexivity.
    + intros u. unfold pauseUserRow. destruct (_ =? _)%string; reflexivity.
    + intros u. unfold pauseUserRow. destruct (_ =? _)%string; reflexivity.
Qed.

Lemma retries_ignore_confirm_and_pause_witness :
  (forall env0 now0 user body event,
      Checkin.findEvent (db (retryWorld 0 (Some (clock 9 12 0)))) user body
      = Some event ->
      alert_deliveries
        (db (worldOf (Scheduler.handleRetries demoEnv (clock 9 12 2)
                        (worldOf (Checkin.confirm env0 now0 user body
                                    (retryWorld 0 (Some (clock 9 12 0))))))))
      = alert_deliveries
          (db (worldOf (Scheduler.handleRetries demoEnv (clock 9 12 2)
                          (retryWorld 0 (Some (clock 9 12 0)))))))
  /\ (forall env0 now0 user text,
         accepted env0 now0 text = true ->
         alert_deliveries
           (db (worldOf (Scheduler.handleRetries demoEnv (clock 9 12 2)
                           (worldOf (Settings.pause env0 now0 user
                                       {| Settings.pause_until := Some text |}
                                       (retryWorld 0 (Some (clock 9 12 0))))))))
         = alert_deliveries
             (db (worldOf (Scheduler.handleRetries demoEnv (clock 9 12 2)
                             (retryWorld 0 (Some (clock 9 12 0))))))).
Proof.
  apply (retries_ignore_confirm_and_pause demoEnv (clock 9 12 2)
           (retryWorld 0 (Some (clock 9 12 0)))).
  repeat constructor. cbn. tauto.
Defined.

(** ** The current check-in *)

Lemma mostRecent_latest (evs : list CheckinEvent) :
  match mostRecent evs with
  | None => evs = []
  | Some e =>
      In e evs
      /\ forall e', In e' evs -> scheduled_time e' <= scheduled_time e
  end.
Proof.
  induction evs as [|x evs IH]; cbn; [reflexivity|].
  destruct (mostRecent evs) as [e|].
  - destruct IH as [Hin Hmax].
    destruct (scheduled_time x <? scheduled_time e) eqn:Hlt.
    + apply Z.ltb_lt in Hlt. split; [right; exact Hin|].
      intros e' [<-|He']; [lia|apply Hmax; exact He'].
    + apply Z.ltb_ge in Hlt. split; [left; reflexivity|].
      intros e' [<-|He']; [lia|]. specialize (Hmax e' He'). lia.
  - subst evs. split; [left; reflexivity|]. intros e' [<-|[]]. lia.
Qed.

Lemma openEventsOf_In user d e :
  In e (openEventsOf user d)
  <-> In e (checkin_events d) /\ user_id e = u_user_id user
      /\ isOpen (status e) = true.
Proof.
  unfold openEventsOf. rewrite filter_In, andb_true_iff, String.eqb_eq. tauto.
Qed.

Lemma current_runs user w :
  Checkin.current user w
  = Returned (Json match mostRecent (openEventsOf user (db w)) with
                   | Some e => {| Checkin.has_pending := true;
                                  Checkin.current_event := Some (shown e) |}
                   | None => nothingPending
                   end) w.
Proof.
  unfold Checkin.current, openEventsOf. run.
  destruct (mostRecent _); reflexivity.
Qed.

(** X8: [GET /checkin/current] reads and never writes.  It answers
    [has_pending = false] exactly when the user has no pending or snoozed
    event; otherwise it shows one of the user's pending or snoozed events,
    and no other such event of the user is scheduled later. *)
Theorem current_shows_latest_open user w :
  exists r,
    Checkin.current user w = Returned (Json r) w
    /\ match Checkin.current_event r with
       | None =>
           Checkin.has_pending r = false
           /\ forall e, In e (checkin_events (db w)) ->
                        user_id e = u_user_id user ->
                        isOpen (status e) = false
       | Some c =>
           Checkin.has_pending r = true
           /\ exists e,
                c = shown e
                /\ In e (checkin_events (db w))
                /\ user_id e = u_user_id user
                /\ isOpen (status e) = true
                /\ forall e', In e' (checkin_events (db w)) ->
                              user_id e' = u_user_id user ->
                              isOpen (status e') = true ->
                              scheduled_time e' <= scheduled_time e
       end.
Proof.
  rewrite current_runs. eexists. split; [reflexivity|].
  pose proof (mostRecent_latest (openEventsOf user (db w))) as H.
  destruct (mostRecent (openEventsOf user (db w))) as [e|]; cbn.
  - destruct H as [Hin Hmax]. apply openEventsOf_In in Hin.
    destruct Hin as [Hin [Hu Ho]]. split; [reflexivity|].
    exists e. repeat split; auto.
    intros e' He' Hu' Ho'. apply Hmax, openEventsOf_In. auto.
  - split; [reflexivity|]. intros e He Hu.
    destruct (isOpen (status e)) eqn:Ho; [|reflexivity].
    assert (Hin : In e (openEventsOf user (db w)))
      by (apply openEventsOf_In; auto).
    rewrite H in Hin. destruct Hin.
Qed.

Lemma none_pass {Row} (keep : Row -> bool) (rows : list Row) :
  (forall row, In row rows -> keep row = false) -> filter keep rows = [].
Proof.
  induction rows as [|row rows IH]; intros H; cbn; [reflexivity|].
  rewrite (H row) by (left; reflexivity).
  apply IH. intros r Hr. apply H. right. exact Hr.
Qed.

(** X9: once a pause is accepted, [GET /checkin/current] reports nothing
    pending for that user, whatever events the user had. *)
Theorem pause_clears_current env now user text w :
  accepted env now text = true ->
  Checkin.current user
    (worldOf (Settings.pause env now user {| Settings.pause_until := Some text |} w))
  = Returned (Json nothingPending)
      (worldOf (Settings.pause env now user
                  {| Settings.pause_until := Some text |} w)).
Proof.
  intros Ht. rewrite current_runs. rewrite (pause_sets env now user text w Ht).
  cbn [worldOf]. unfold openEventsOf, pausedWorld.
  cbn [db checkin_events]. rewrite none_pass; [reflexivity|].
  intros e' He'. apply in_map_iff in He'. destruct He' as [e [<- _]].
  unfold pauseRow.
  destruct ((user_id e =? u_user_id user)%string && isOpen (status e)) eqn:E.
  - cbn. apply andb_false_r.
  - exact E.
Qed.

Lemma pause_clears_current_witness :
  Checkin.current alice
    (worldOf (Settings.pause demoEnv (clock 9 5 0) alice
                {| Settings.pause_until := Some elevenPM |}
                (storeWith [nineOClock pending None 0] [] [])))
  = Returned (Json nothingPending)
      (worldOf (Settings.pause demoEnv (clock 9 5 0) alice
                  {| Settings.pause_until := Some elevenPM |}
                  (storeWith [nineOClock pending None 0] [] []))).
Proof.
  apply (pause_clears_current demoEnv (clock 9 5 0) alice elevenPM
           (storeWith [nineOClock pending None 0] [] [])).
  reflexivity.
Defined.

(** X10: confirming by id the event that [GET /checkin/current] shows
    succeeds, and afterwards the route no longer shows that event: it shows
    nothing, or another event of the user with a different id (event ids
    distinct). *)
Theorem confirm_clears_current env now user body w c :
  NoDup (map event_id (checkin_events (db w))) ->
  currentOf (Checkin.current user w) = Some c ->
  truthy (Checkin.cr_event_id body) = Some (Checkin.ce_event_id c) ->
  exists r w',
    Checkin.confirm env now user body w = Returned (Json r) w'
    /\ Checkin.r_event_id r = Checkin.ce_event_id c
    /\ Checkin.r_status r = confirmed
    /\ forall c', currentOf (Checkin.current user w') = Some c' ->
                  Checkin.ce_event_id c' <> Checkin.ce_event_id c.
Proof.
  intros Hnd Hcur Hid. rewrite current_runs in Hcur. cbn in Hcur.
  pose proof (mostRecent_latest (openEventsOf user (db w))) as H.
  destruct (mostRecent (openEventsOf user (db w))) as [e|]; [|discriminate].
  cbn in Hcur. injection Hcur as <-. destruct H as [Hin _].
  apply openEventsOf_In in Hin. destruct Hin as [Hin [Hu Ho]].
  cbn [shown Checkin.ce_event_id] in *.
  assert (Hfind : Checkin.findEvent (db w) user body = Some e).
  { unfold Checkin.findEvent. rewrite Hid.
    destruct (find _ (checkin_events (db w))) as [e0|] eqn:Hf.
    - apply find_some in Hf. destruct Hf as [Hin0 Hp].
      apply andb_prop in Hp. destruct Hp as [Hp _]. apply String.eqb_eq in Hp.
      f_equal. apply (NoDup_map_eq event_id (checkin_events (db w))); auto.
    - exfalso. apply (find_none _ _ Hf) in Hin.
      rewrite String.eqb_refl, Hu, String.eqb_refl in Hin. discriminate. }
  assert (Hst : status e <> confirmed)
    by (intros E; rewrite E in Ho; discriminate).
  destruct (confirm_found_open env now user body w e Hfind Hst) as [msg ->].
  do 2 eexists. split; [reflexivity|]. cbn [Checkin.r_event_id Checkin.r_status].
  repeat split. intros c' Hc'. rewrite current_runs in Hc'. cbn in Hc'.
  pose proof (mostRecent_latest
                (openEventsOf user (db (confirmedWorld env now user body w e))))
    as H'.
  destruct (mostRecent _) as [e'|]; [|discriminate].
  cbn in Hc'. injection Hc' as <-. cbn. destruct H' as [Hin' _].
  apply openEventsOf_In in Hin'. destruct Hin' as [Hin' [_ Ho']].
  unfold confirmedWorld in Hin'. cbn in Hin'.
  apply in_map_iff in Hin'. destruct Hin' as [e0 [<- _]].
  destruct (event_id e0 =? event_id e)%string eqn:E.
  - cbn in Ho'. discriminate.
  - apply String.eqb_neq. exact E.
Qed.

Lemma confirm_clears_current_witness :
  exists r w',
    Checkin.confirm demoEnv (clock 9 5 0) alice confirmE1
      (storeWith [nineOClock pending None 0] [] [])
    = Returned (Json r) w'
    /\ Checkin.r_event_id r = "e1"%string
    /\ Checkin.r_status r = confirmed
    /\ forall c', currentOf (Checkin.current alice w') = Some c' ->
                  Checkin.ce_event_id c' <> "e1"%string.
Proof.
  apply (confirm_clears_current demoEnv (clock 9 5 0) alice confirmE1
           (storeWith [nineOClock pending None 0] [] [])
           (shown (nineOClock pending None 0))).
  - repeat constructor. cbn. tauto.
  - reflexivity.
  - reflexivity.
Defined.

(** ** The escalation scan, row by row *)

Lemma escalateOne_world env now x w :
  Scheduler.escalateOne env now x w
  = Returned tt (worldOf (Scheduler.triggerEscalation env now (event_id x) w)).
Proof.
  unfold Scheduler.escalateOne, try_catch, bind, ret.
  destruct (Scheduler.triggerEscalation env now (event_id x) w); reflexivity.
Qed.

Lemma triggerEscalation_users env now id w :
  users (db (worldOf (Scheduler.triggerEscalation env now id w)))
  = users (db w).
Proof.
  rewrite triggerEscalation_unfold.
  destruct (Scheduler.findEventWithUser (db w) id) as [[event u]|];
    [|reflexivity].
  exact (alertContacts_keeps (sameOn users) id (fun _ => True)
           (fun _ _ => eq_refl) (fun _ _ _ _ _ _ _ => eq_refl)
           (fun _ _ _ _ => eq_refl)
           env now event u
           (fun d => proj2 (Forall_forall _ _) (fun _ _ => I)) _).
Qed.

Lemma triggerEscalation_alerts env now id w :
  Scheduler.findEventWithUser (db w) id <> None ->
  checkin_events (db (worldOf (Scheduler.triggerEscalation env now id w)))
  = map (alertRow now id) (checkin_events (db w)).
Proof.
  intros Hfind. rewrite triggerEscalation_unfold.
  destruct (Scheduler.findEventWithUser (db w) id) as [[event u]|];
    [|contradiction].
  exact (alertContacts_keeps (sameOn checkin_events) id (fun _ => True)
           (fun _ _ => eq_refl) (fun _ _ _ _ _ _ _ => eq_refl)
           (fun _ _ _ _ => eq_refl)
           env now event u
           (fun d => proj2 (Forall_forall _ _) (fun _ _ => I)) _).
Qed.

Lemma alertedIfListed_id now listed e :
  event_id (alertedIfListed now listed e) = event_id e
  /\ user_id (alertedIfListed now listed e) = user_id e.
Proof. unfold alertedIfListed. destruct (existsb _ listed); split; reflexivity. Qed.

Lemma alertedIfListed_next now listed x e :
  alertRow now (event_id x) (alertedIfListed now listed e)
  = alertedIfListed now (listed ++ [x]) e.
Proof.
  unfold alertRow. destruct (alertedIfListed_id now listed e) as [-> _].
  unfold alertedIfListed. rewrite existsb_app. cbn [existsb].
  rewrite orb_false_r, (String.eqb_sym (event_id x)).
  destruct (existsb _ listed); destruct (event_id e =? event_id x)%string;
    reflexivity.
Qed.

(** An overdue row of the table the scan started from is still found, with
    its user, after any number of turns of the loop. *)
Lemma overdue_found d0 d now listed x :
  NoDup (map event_id (checkin_events d0)) ->
  In x (checkin_events d0) ->
  Scheduler.overdue d0 now x = true ->
  users d = users d0 ->
  checkin_events d = map (alertedIfListed now listed) (checkin_events d0) ->
  Scheduler.findEventWithUser d (event_id x) <> None.
Proof.
  intros Hnd Hx Hover Hu He. unfold Scheduler.findEventWithUser.
  rewrite He, find_map_same
    by (intros e; destruct (alertedIfListed_id now listed e) as [-> _];
        reflexivity).
  destruct (find _ (checkin_events d0)) as [e0|] eqn:Hf.
  - apply find_some in Hf. destruct Hf as [Hin0 Hid].
    apply String.eqb_eq in Hid.
    assert (e0 = x) as ->
      by (apply (NoDup_map_eq event_id (checkin_events d0)); auto).
    cbn. destruct (alertedIfListed_id now listed x) as [_ ->]. rewrite Hu.
    unfold Scheduler.overdue in Hover. apply andb_prop in Hover.
    destruct Hover as [_ Hex]. apply existsb_exists in Hex.
    destruct Hex as [u [Hin Hp]]. apply andb_prop in Hp. destruct Hp as [Hp _].
    destruct (find _ (users d0)) eqn:Hfu; [discriminate|].
    apply (find_none _ _ Hfu) in Hin. congruence.
  - apply (find_none _ _ Hf) in Hx. rewrite String.eqb_refl in Hx.
    discriminate.
Qed.

Lemma escalation_loop_exact env now d0 (L : list CheckinEvent) :
  NoDup (map event_id (checkin_events d0)) ->
  (forall x, In x L ->
             In x (checkin_events d0) /\ Scheduler.overdue d0 now x = true) ->
  forall listed w,
    users (db w) = users d0 ->
    checkin_events (db w)
    = map (alertedIfListed now listed) (checkin_events d0) ->
    exists w',
      Scheduler.forEach L (Scheduler.escalateOne env now) w = Returned tt w'
      /\ users (db w') = users d0
      /\ checkin_events (db w')
         = map (alertedIfListed now (listed ++ L)) (checkin_events d0).
Proof.
  intros Hnd. induction L as [|x L IH]; intros HL listed w Hu He.
  - exists w. rewrite app_nil_r. auto.
  - destruct (HL x (or_introl eq_refl)) as [Hx Hover].
    cbn [Scheduler.forEach]. unfold bind. rewrite escalateOne_world.
    replace (listed ++ x :: L) with ((listed ++ [x]) ++ L)
      by (rewrite <- app_assoc; reflexivity).
    apply IH.
    + intros y Hy. apply HL. right. exact Hy.
    + rewrite triggerEscalation_users. exact Hu.
    + rewrite triggerEscalation_alerts
        by (apply (overdue_found d0 (db w) now listed x); assumption).
      rewrite He, map_map. apply map_ext. intros e.
      apply alertedIfListed_next.
Qed.

Lemma listed_overdue d now e :
  NoDup (map event_id (checkin_events d)) ->
  In e (checkin_events d) ->
  alertedIfListed now (filter (Scheduler.overdue d now) (checkin_events d)) e
  = escalatedRow d now e.
Proof.
  intros Hnd He. unfold alertedIfListed, escalatedRow.
  destruct (Scheduler.overdue d now e) eqn:Hover.
  - replace (existsb _ _) with true; [reflexivity|].
    symmetry. apply existsb_exists. exists e. split.
    + apply filter_In. auto.
    + apply String.eqb_refl.
  - destruct (existsb _ _) eqn:Hex; [|reflexivity].
    apply existsb_exists in Hex. destruct Hex as [x [Hx Hid]].
    apply filter_In in Hx. destruct Hx as [Hx Hox].
    apply String.eqb_eq in Hid.
    assert (x = e) as ->
      by (apply (NoDup_map_eq event_id (checkin_events d)); auto).
    congruence.
Qed.

(** The escalation scan over a table with distinct event ids, row by row. *)
Lemma handleEscalations_exact env now w :
  NoDup (map event_id (checkin_events (db w))) ->
  exists w',
    Scheduler.handleEscalations env now w = Returned tt w'
    /\ users (db w') = users (db w)
    /\ checkin_events (db w')
       = map (escalatedRow (db w) now) (checkin_events (db w)).
Proof.
  intros Hnd. unfold Scheduler.handleEscalations, bind, getDB.
  destruct (escalation_loop_exact env now (db w)
              (filter (Scheduler.overdue (db w) now) (checkin_events (db w)))
              Hnd) with (listed := @nil CheckinEvent) (w := w)
    as [w' [Hrun [Hu He]]].
  - intros x Hx. apply filter_In in Hx. exact Hx.
  - reflexivity.
  - cbn. symmetry. apply unchanged_rows. reflexivity.
  - exists w'. split; [exact Hrun|]. split; [exact Hu|].
    rewrite He. cbn [app]. apply map_ext_in. intros e Hin.
    apply listed_overdue; assumption.
Qed.

(** X11: the escalation scan always completes, and (event ids distinct) it
    sets to alerted, with [escalated_at = now], exactly the pending or
    snoozed events whose deadline is before now and whose user exists and
    is not paused; this holds whatever happens while the contacts of an
    event are notified.  Every other event is left as it was. *)
Theorem escalation_scan_alerts_overdue env now w :
  NoDup (map event_id (checkin_events (db w))) ->
  exists w',
    Scheduler.handleEscalations env now w = Returned tt w'
    /\ users (db w') = users (db w)
    /\ checkin_events (db w')
       = map (escalatedRow (db w) now) (checkin_events (db w))
    /\ (forall e,
           In e (checkin_events (db w)) ->
           Scheduler.overdue (db w) now e = true ->
           exists e',
             In e' (checkin_events (db w'))
             /\ event_id e' = event_id e
             /\ status e' = alerted
             /\ escalated_at e' = Some now)
    /\ (forall e,
           In e (checkin_events (db w)) ->
           Scheduler.overdue (db w) now e = false ->
           In e (checkin_events (db w'))).
Proof.
  intros Hnd.
  destruct (handleEscalations_exact env now w Hnd) as [w' [Hrun [Hu Hev]]].
  exists w'. repeat apply conj; auto.
  - intros e He Hover. exists (Scheduler.setAlerted now e).
    repeat apply conj; try reflexivity.
    rewrite Hev. apply in_map_iff. exists e. split; [|exact He].
    unfold escalatedRow. rewrite Hover. reflexivity.
  - intros e He Hover. rewrite Hev. apply in_map_iff. exists e.
    split; [|exact He]. unfold escalatedRow. rewrite Hover. reflexivity.
Qed.

Lemma escalation_scan_alerts_overdue_witness :
  exists w',
    Scheduler.handleEscalations demoEnv (clock 9 11 0) twoUsers = Returned tt w'
    /\ users (db w') = users (db twoUsers)
    /\ checkin_events (db w')
       = map (escalatedRow (db twoUsers) (clock 9 11 0))
             (checkin_events (db twoUsers))
    /\ (forall e,
           In e (checkin_events (db twoUsers)) ->
           Scheduler.overdue (db twoUsers) (clock 9 11 0) e = true ->
           exists e',
             In e' (checkin_events (db w'))
             /\ event_id e' = event_id e
             /\ status e' = alerted
             /\ escalated_at e' = Some (clock 9 11 0))
    /\ (forall e,
           In e (checkin_events (db twoUsers)) ->
           Scheduler.overdue (db twoUsers) (clock 9 11 0) e = false ->
           In e (checkin_events (db w'))).
Proof.
  apply (escalation_scan_alerts_overdue demoEnv (clock 9 11 0) twoUsers).
  repeat constructor; cbn; intuition discriminate.
Defined.

Lemma row_after_scan env now w e :
  NoDup (map event_id (checkin_events (db w))) ->
  In e (checkin_events (db w)) ->
  In (escalatedRow (db w) now e)
     (checkin_events (db (worldOf (Scheduler.handleEscalations env now w)))).
Proof.
  intros Hnd He.
  destruct (handleEscalations_exact env now w Hnd) as [w' [-> [_ Hev]]].
  cbn [worldOf]. rewrite Hev. apply in_map. exact He.
Qed.

Lemma snoozed_ids env now user minutes w event :
  map event_id (checkin_events (db (snoozedWorld env now user minutes w event)))
  = map event_id (checkin_events (db w)).
Proof.
  unfold snoozedWorld. cbn. rewrite map_map. apply map_ext. intros e.
  destruct (_ =? _)%string; reflexivity.
Qed.

(** X12: a snooze postpones the alert by exactly the minutes granted.  After
    an accepted snooze the escalation scan leaves the event snoozed at any
    time up to and including the new deadline (the old deadline plus the
    minutes), and alerts it at the first scan after that, provided the user
    is not paused then (event ids distinct). *)
Theorem snooze_defers_escalation env now user body w event env' now' :
  NoDup (map event_id (checkin_events (db w))) ->
  snoozable (Checkin.snoozeMinutesOf body) (db w) user body = Some event ->
  let newDeadline :=
    deadline_time event + Checkin.snoozeMinutesOf body * 60 * 1000 in
  let scanned :=
    checkin_events
      (db (worldOf (Scheduler.handleEscalations env' now'
                      (worldOf (Checkin.snooze env now user body w))))) in
  (now' <= newDeadline ->
   In (Checkin.setSnoozed newDeadline now event) scanned)
  /\ (newDeadline < now' ->
      activeUser (db w) now' (user_id event) = true ->
      In (Scheduler.setAlerted now' (Checkin.setSnoozed newDeadline now event))
         scanned).
Proof.
  intros Hnd Hsn newDeadline scanned. subst scanned.
  rewrite (snooze_accepted env now user body w event Hsn). cbn [worldOf].
  destruct (snoozable_open _ _ _ _ _ Hsn) as [Hin _].
  set (ws := snoozedWorld env now user (Checkin.snoozeMinutesOf body) w event).
  assert (Hrow : In (Checkin.setSnoozed newDeadline now event)
                    (checkin_events (db ws))).
  { unfold ws, snoozedWorld. cbn [db checkin_events withLogs withEvents].
    apply in_map_iff. exists event. rewrite String.eqb_refl. auto. }
  assert (Hnd' : NoDup (map event_id (checkin_events (db ws))))
    by (unfold ws; rewrite snoozed_ids; exact Hnd).
  pose proof (row_after_scan env' now' ws _ Hnd' Hrow) as Hscan.
  unfold escalatedRow, Scheduler.overdue in Hscan.
  cbn [status deadline_time user_id Checkin.setSnoozed isOpen andb] in Hscan.
  split.
  - intros Hle.
    replace (newDeadline <? now') with false in Hscan
      by (symmetry; apply Z.ltb_ge; exact Hle).
    exact Hscan.
  - intros Hlt Hact.
    replace (newDeadline <? now') with true in Hscan
      by (symmetry; apply Z.ltb_lt; exact Hlt).
    unfold activeUser in Hact. cbn [andb] in Hscan.
    change (users (db ws)) with (users (db w)) in Hscan.
    rewrite Hact in Hscan. exact Hscan.
Qed.

Lemma snooze_defers_escalation_witness :
  (clock 9 21 0 <= clock 9 20 0 ->
   In (Checkin.setSnoozed (clock 9 20 0) (clock 9 5 0)
         (nineOClock pending None 0))
      (checkin_events
         (db (worldOf
                (Scheduler.handleEscalations demoEnv (clock 9 21 0)
                   (worldOf
                      (Checkin.snooze demoEnv (clock 9 5 0) alice snoozeTen
                         (storeWith [nineOClock pending None 0] [] []))))))))
  /\ (clock 9 20 0 < clock 9 21 0 ->
      activeUser (db (storeWith [nineOClock pending None 0] [] []))
                 (clock 9 21 0) "alice" = true ->
      In (Scheduler.setAlerted (clock 9 21 0)
            (Checkin.setSnoozed (clock 9 20 0) (clock 9 5 0)
               (nineOClock pending None 0)))
         (checkin_events
            (db (worldOf
                   (Scheduler.handleEscalations demoEnv (clock 9 21 0)
                      (worldOf
                         (Checkin.snooze demoEnv (clock 9 5 0) alice snoozeTen
                            (storeWith [nineOClock pending None 0] [] [])))))))).
Proof.
  apply (snooze_defers_escalation demoEnv (clock 9 5 0) alice snoozeTen
           (storeWith [nineOClock pending None 0] [] [])
           (nineOClock pending None 0) demoEnv (clock 9 21 0)).
  - repeat constructor. cbn. tauto.
  - reflexivity.
Defined.

(** ** Pause, as reported and as enforced *)

Lemma reportsPaused_spec env now user :
  reportsPaused env now user = true
  <-> exists text p,
        u_pause_until user = Some text /\ text <> EmptyString
        /\ parseDate env text = Some p /\ now < p.
Proof.
  unfold reportsPaused, Settings.pauseStatus, Settings.isPaused.
  cbn [Settings.ps_paused].
  destruct (u_pause_until user) as [[|c rest]|].
  - split; [discriminate|]. intros [text [p [[= <-] [Hne _]]]]. congruence.
  - destruct (parseDate env (String c rest)) as [p|] eqn:Hparse.
    + destruct (now <? p) eqn:E; split.
      * intros _. exists (String c rest), p.
        repeat split; [discriminate|exact Hparse|apply Z.ltb_lt; exact E].
      * reflexivity.
      * discriminate.
      * intros [text [p' [[= <-] [_ [Hp Hlt]]]]]. rewrite Hparse in Hp.
        injection Hp as <-. apply Z.ltb_lt in Hlt. congruence.
    + split; [discriminate|].
      intros [text [p [[= <-] [_ [Hp _]]]]]. congruence.
  - split; [discriminate|]. intros [text [p [Hp _]]]. discriminate.
Qed.

(** X13: for a pause written in UTC, with milliseconds as [toISOString]
    writes it or without them as the iOS client does, what
    [GET /settings/pause] reports is what the cron phases enforce.  If the
    route answers [paused: true] for the user at [now], neither the
    scheduler scan nor the escalation scan at [now] creates or changes an
    event of that user.  The scans can outlast the report: when they still
    skip a user whom the route no longer reports as paused, [now] lies in
    the second of the pause instant, and is that very instant when the
    text has milliseconds (user ids and event ids distinct). *)
Theorem reported_pause_is_enforced env now user text p w :
  NoDup (map u_user_id (users (db w))) ->
  In user (users (db w)) ->
  NoDup (map event_id (checkin_events (db w))) ->
  u_pause_until user = Some text ->
  parseDate env text = Some p ->
  writtenUTC text p ->
  fourDigitYear p ->
  fourDigitYear now ->
  (reportsPaused env now user = true ->
   eventsOf (u_user_id user)
     (db (worldOf (Scheduler.handleScheduledCheckins env now w)))
   = eventsOf (u_user_id user) (db w)
   /\ eventsOf (u_user_id user)
        (db (worldOf (Scheduler.handleEscalations env now w)))
      = eventsOf (u_user_id user) (db w))
  /\ (reportsPaused env now user = false ->
      Scheduler.notPaused now user = false ->
      p <= now /\ now / 1000 = p / 1000 /\ (text = toISOString p -> now = p)).
Proof.
  intros Hus Hin Hev Htext Hparse Hutc Hrp Hrn. split.
  - intros Hrep. apply reportsPaused_spec in Hrep.
    destruct Hrep as [text' [p' [Ht' [_ [Hp' Hlt]]]]].
    rewrite Htext in Ht'. injection Ht' as <-.
    rewrite Hparse in Hp'. injection Hp' as <-.
    assert (Hpaused : pausedUntil (db w) (u_user_id user) text).
    { intros u Hu Hid.
      rewrite (NoDup_map_eq u_user_id (users (db w)) u user Hus Hu Hin Hid).
      exact Htext. }
    assert (Hheld : String.ltb text (toISOString now) = false)
      by (apply (writtenUTC_holds text p now); auto; lia).
    split.
    + exact (scan_skips_paused env now _ text w Hpaused Hheld).
    + exact (escalation_skips_paused env now _ text w Hpaused Hheld Hev).
  - intros Hrep Hnot. unfold Scheduler.notPaused in Hnot.
    rewrite Htext in Hnot.
    assert (Hle : p <= now).
    { destruct (Z.lt_ge_cases now p) as [Hlt|Hge]; [|lia].
      assert (reportsPaused env now user = true).
      { apply reportsPaused_spec. exists text, p. repeat split; auto.
        intros ->. discriminate Hnot. }
      congruence. }
    split; [exact Hle|]. split.
    + destruct Hutc as [->| ->].
      * rewrite toISOString_ltb in Hnot by assumption.
        apply Z.ltb_ge in Hnot. f_equal. lia.
      * rewrite internetDateTime_ltb in Hnot by assumption.
        apply Z.ltb_ge in Hnot.
        pose proof (Z.div_le_mono p now 1000 ltac:(lia) Hle). lia.
    + intros ->. rewrite toISOString_ltb in Hnot by assumption.
      apply Z.ltb_ge in Hnot. lia.
Qed.

Lemma reported_pause_is_enforced_witness :
  (reportsPaused demoEnv (clock 9 11 0) bob = true ->
   eventsOf (u_user_id bob)
     (db (worldOf (Scheduler.handleScheduledCheckins demoEnv (clock 9 11 0)
                     twoUsers)))
   = eventsOf (u_user_id bob) (db twoUsers)
   /\ eventsOf (u_user_id bob)
        (db (worldOf (Scheduler.handleEscalations demoEnv (clock 9 11 0)
                        twoUsers)))
      = eventsOf (u_user_id bob) (db twoUsers))
  /\ (reportsPaused demoEnv (clock 9 11 0) bob = false ->
      Scheduler.notPaused (clock 9 11 0) bob = false ->
      clock 23 0 0 <= clock 9 11 0
      /\ clock 9 11 0 / 1000 = clock 23 0 0 / 1000
      /\ (elevenPM = toISOString (clock 23 0 0) -> clock 9 11 0 = clock 23 0 0)).
Proof.
  apply (reported_pause_is_enforced demoEnv (clock 9 11 0) bob elevenPM
           (clock 23 0 0) twoUsers).
  - repeat constructor; cbn; intuition discriminate.
  - right. left. reflexivity.
  - repeat constructor; cbn; intuition discriminate.
  - reflexivity.
  - vm_compute. reflexivity.
  - left. vm_compute. reflexivity.
  - unfold fourDigitYear, END_OF_9999, clock, newYear. lia.
  - unfold fourDigitYear, END_OF_9999, clock, newYear. lia.
Defined.

(** The same pause as the iOS client writes it, half a second after its
    instant: the route reports it over, the scans still skip the user. *)
Example scans_outlast_the_report :
  let user := Settings.setPauseUntil (Some (internetDateTime (clock 23 0 0))) bob in
  u_pause_until user = Some "2026-01-01T23:00:00Z"%string
  /\ reportsPaused demoEnv (clock 23 0 0 + 500) user = false
  /\ Scheduler.notPaused (clock 23 0 0 + 500) user = false
  /\ Scheduler.notPaused (clock 23 0 1) user = true.
Proof. vm_compute. repeat split. Qed.

Lemma resume_sets env now user w :
  Settings.pause env now user {| Settings.pause_until := None |} w
  = Returned (Json {| Settings.paused_flag := false;
                      Settings.r_pause_until := None |})
             (resumedWorld env now user w).
Proof. reflexivity. Qed.

(** X14: a pause is not undone by resuming.  A check-in that was pending
    or snoozed when its user paused stays paused, with the fields it had,
    after the user resumes, and no later escalation scan alerts it, however
    long past its deadline (event ids distinct). *)
Theorem paused_event_stays_paused env now0 text now1 env2 now2 user w e :
  NoDup (map event_id (checkin_events (db w))) ->
  accepted env now0 text = true ->
  In e (checkin_events (db w)) ->
  user_id e = u_user_id user ->
  isOpen (status e) = true ->
  In (Settings.setPaused now0 e)
     (checkin_events
        (db (worldOf
               (Scheduler.handleEscalations env2 now2
                  (worldOf
                     (Settings.pause env now1 user
                        {| Settings.pause_until := None |}
                        (worldOf
                           (Settings.pause env now0 user
                              {| Settings.pause_until := Some text |} w)))))))).
Proof.
  intros Hnd Ht Hin Hu Ho.
  rewrite (pause_sets env now0 user text w Ht). cbn [worldOf].
  rewrite resume_sets. cbn [worldOf].
  set (wr := resumedWorld env now1 user (pausedWorld env now0 user text w)).
  assert (Hev : checkin_events (db wr)
                = map (pauseRow now0 (u_user_id user)) (checkin_events (db w)))
    by reflexivity.
  assert (Hrow : In (Settings.setPaused now0 e) (checkin_events (db wr))).
  { rewrite Hev. apply in_map_iff. exists e. split; [|exact Hin].
    unfold pauseRow. rewrite Hu, String.eqb_refl, Ho. reflexivity. }
  assert (Hnd' : NoDup (map event_id (checkin_events (db wr)))).
  { rewrite Hev, map_map.
    replace (map (fun x => event_id (pauseRow now0 (u_user_id user) x))
                 (checkin_events (db w)))
      with (map event_id (checkin_events (db w))); [exact Hnd|].
    apply map_ext. intros x. unfold pauseRow. destruct (_ && _); reflexivity. }
  exact (row_after_scan env2 now2 wr _ Hnd' Hrow).
Qed.

Lemma paused_event_stays_paused_witness :
  In (Settings.setPaused (clock 9 5 0) (nineOClock pending None 0))
     (checkin_events
        (db (worldOf
               (Scheduler.handleEscalations demoEnv (clock 9 30 0)
                  (worldOf
                     (Settings.pause demoEnv (clock 9 6 0) alice
                        {| Settings.pause_until := None |}
                        (worldOf
                           (Settings.pause demoEnv (clock 9 5 0) alice
                              {| Settings.pause_until := Some elevenPM |}
                              (storeWith [nineOClock pending None 0] [] []))))))))).
Proof.
  apply (paused_event_stays_paused demoEnv (clock 9 5 0) elevenPM
           (clock 9 6 0) demoEnv (clock 9 30 0) alice
           (storeWith [nineOClock pending None 0] [] [])
           (nineOClock pending None 0)).
  - repeat constructor. cbn. tauto.
  - reflexivity.
  - left. reflexivity.
  - reflexivity.
  - reflexivity.
Defined.

(** ** The schedule route *)

Lemma inClass_bounds lo hi c :
  Settings.inClass lo hi c = true ->
  (N_of_ascii lo <= N_of_ascii c <= N_of_ascii hi)%N.
Proof.
  unfold Settings.inClass, Ascii.leb, Ascii.compare. intros H.
  apply andb_prop in H. destruct H as [H1 H2]. split.
  - destruct (N.compare_spec (N_of_ascii lo) (N_of_ascii c));
      lia || discriminate.
  - destruct (N.compare_spec (N_of_ascii c) (N_of_ascii hi));
      lia || discriminate.
Qed.

Lemma not_colon c :
  (N_of_ascii c <= 57)%N -> Ascii.eqb c ":" = false.
Proof.
  intros H. apply Ascii.eqb_neq. intros ->. cbn in H. lia.
Qed.

(** A time the route accepts reads as an hour below 24 and a minute below
    60. *)
Lemma timeRegex_valid s :
  Settings.timeRegex s = true -> validSlot (Settings.parseTime s).
Proof.
  destruct s as [|h1 [|h2 [|colon [|m1 [|m2 [|extra rest]]]]]]; try discriminate.
  unfold Settings.timeRegex. intros H.
  apply andb_prop in H. destruct H as [H Hm2].
  apply andb_prop in H. destruct H as [H Hm1].
  apply andb_prop in H. destruct H as [Hh Hc].
  apply Ascii.eqb_eq in Hc. subst colon.
  apply inClass_bounds in Hm1, Hm2. cbn in Hm1, Hm2.
  assert (Hhours : (48 <= N_of_ascii h1 <= 57)%N /\ (48 <= N_of_ascii h2 <= 57)%N
                   /\ 0 <= (Z.of_N (N_of_ascii h1) - 48) * 10
                           + (Z.of_N (N_of_ascii h2) - 48) < 24).
  { apply orb_prop in Hh. destruct Hh as [Hh|Hh];
      apply andb_prop in Hh; destruct Hh as [Ha Hb].
    - apply inClass_bounds in Ha, Hb. cbn in Ha, Hb. lia.
    - apply Ascii.eqb_eq in Ha. subst h1. apply inClass_bounds in Hb.
      cbn in Hb. change (N_of_ascii "2") with 50%N. lia. }
  destruct Hhours as [Hb1 [Hb2 Hhh]].
  unfold Settings.parseTime. cbn [Settings.splitColon].
  rewrite (not_colon h1), (not_colon h2), (not_colon m1), (not_colon m2) by lia.
  rewrite Ascii.eqb_refl. cbn. unfold validSlot. cbn [hh mm]. lia.
Qed.

Lemma schedule_runs user body w :
  Settings.schedule user body w
  = if acceptable body
    then Returned
           (Json {| Settings.sp_success := true;
                    Settings.sp_checkin_times := Settings.sq_times body;
                    Settings.sp_grace_minutes :=
                      match Settings.sq_grace_minutes body with
                      | Some g => g
                      | None => u_grace_minutes user
                      end |})
           {| db := withUsers (db w) (map (scheduleRow user body) (users (db w)));
              drawn := drawn w |}
    else Returned (JsonError 400 (scheduleError body)) w.
Proof.
  unfold Settings.schedule, acceptable, scheduleError, try_catch.
  destruct (Settings.sq_times body) as [|t times] eqn:Ht; [reflexivity|].
  destruct (forallb Settings.timeRegex (t :: times)) eqn:Hre; [|reflexivity].
  destruct (Settings.sq_grace_minutes body) as [g|] eqn:Hg; cbn [negb andb].
  - destruct (existsb (Z.eqb g) [5; 10; 15; 30]) eqn:Hmenu; [|reflexivity].
    cbn [negb]. unfold bind, Settings.updateUsers, getDB, putDB, ret, scheduleRow.
    rewrite Ht, Hg. do 3 f_equal.
    cbn in Hmenu. destruct g; try discriminate. reflexivity.
  - unfold bind, Settings.updateUsers, getDB, putDB, ret, scheduleRow.
    rewrite Ht, Hg. reflexivity.
Qed.

Lemma acceptable_times body :
  acceptable body = true ->
  Settings.sq_times body <> []
  /\ Forall validSlot (map Settings.parseTime (Settings.sq_times body))
  /\ forall g, Settings.sq_grace_minutes body = Some g -> In g [5; 10; 15; 30].
Proof.
  unfold acceptable. intros H. apply andb_prop in H. destruct H as [Ht Hg].
  destruct (Settings.sq_times body) as [|t times] eqn:E; [discriminate|].
  split; [discriminate|]. split.
  - apply Forall_map. apply Forall_forall. intros s Hs.
    apply timeRegex_valid. revert s Hs. apply forallb_forall. exact Ht.
  - intros g Hsome. rewrite Hsome in Hg. apply existsb_exists in Hg.
    destruct Hg as [m [Hm Heq]]. apply Z.eqb_eq in Heq. subst m. exact Hm.
Qed.

(** X15: [POST /settings/schedule] always answers.  A request without
    times, with a time that is not HH:MM (00:00 to 23:59), or with a grace
    period off the menu is rejected with 400 and nothing is written.
    Otherwise the rows of that user, and no others, get the new times, all
    of them valid slots (hour below 24, minute below 60), and the grace
    period if one was given; the events table is not touched, so events
    created under the old schedule remain. *)
Theorem schedule_stores_valid_slots user body w :
  exists resp w',
    Settings.schedule user body w = Returned resp w'
    /\ answeredOk (Returned resp w') = acceptable body
    /\ match resp with
       | Json r =>
           Settings.sp_checkin_times r = Settings.sq_times body
           /\ users (db w') = map (scheduleRow user body) (users (db w))
           /\ checkin_events (db w') = checkin_events (db w)
           /\ (forall u, In u (users (db w)) ->
                         u_user_id u <> u_user_id user -> In u (users (db w')))
           /\ (forall u, In u (users (db w')) ->
                         u_user_id u = u_user_id user ->
                         u_checkin_times u <> []
                         /\ Forall validSlot (u_checkin_times u)
                         /\ (forall g,
                                Settings.sq_grace_minutes body = Some g ->
                                u_grace_minutes u = g /\ In g [5; 10; 15; 30]))
       | JsonError code _ => code = 400 /\ w' = w
       end.
Proof.
  rewrite schedule_runs. destruct (acceptable body) eqn:Hacc.
  - do 2 eexists. split; [reflexivity|]. split; [reflexivity|]. cbn.
    destruct (acceptable_times body Hacc) as [Hne [Hvalid Hgrace]].
    repeat apply conj; try reflexivity.
    + intros u Hu Hid. apply in_map_iff. exists u. split; [|exact Hu].
      unfold scheduleRow. apply String.eqb_neq in Hid. rewrite Hid. reflexivity.
    + intros u' Hu' Hid. apply in_map_iff in Hu'. destruct Hu' as [u [<- _]].
      unfold scheduleRow in *.
      destruct (u_user_id u =? u_user_id user)%string eqn:E.
      * cbn. repeat apply conj.
        -- intros Hnil. apply map_eq_nil in Hnil. contradiction.
        -- exact Hvalid.
        -- intros g Hg. rewrite Hg. split; [reflexivity|]. apply Hgrace, Hg.
      * apply String.eqb_neq in E. contradiction.
  - do 2 eexists. split; [reflexivity|]. repeat split.
Qed.

(** Alice moves to 08:30 and 21:00 with a quarter of an hour of grace. *)
Example schedule_twiceADay :
  map (fun u => (u_checkin_times u, u_grace_minutes u))
      (users (db (worldOf (Settings.schedule alice twiceADay
                             (storeWith [] [] [])))))
  = [([{| hh := 8; mm := 30 |}; {| hh := 21; mm := 0 |}], 15)].
Proof. reflexivity. Qed.

(** ** When the scan creates an event *)

Lemma created_lead P now e :
  created P now e ->
  now <= scheduled_time e <= now + MS_PER_MINUTE
  /\ status e = pending.
Proof.
  intros [u [slot [_ [_ [Hmatch [_ [Hst [Hsched [Hnow _]]]]]]]]].
  split; [split; [exact Hnow|]|exact Hst].
  rewrite Hsched. unfold Scheduler.isTimeMatch in Hmatch.
  apply Z.leb_le in Hmatch.
  unfold setHours, startOfDay, toTimeString, MS_PER_DAY, MS_PER_MINUTE in *.
  cbn [hh mm] in *. Z.div_mod_to_equations. lia.
Qed.

(** X16: every event the scheduler scan creates is pending and scheduled
    between now and one minute from now: the scan never creates an event
    for a time that has passed, and never more than a minute ahead. *)
Theorem scan_lead_time env now w :
  exists added,
    checkin_events (db (worldOf (Scheduler.handleScheduledCheckins env now w)))
    = checkin_events (db w) ++ added
    /\ Forall (fun e => status e = pending
                        /\ now <= scheduled_time e <= now + MS_PER_MINUTE)
              added.
Proof.
  destruct (scan_appends env now w) as [added [Hev Hall]].
  exists added. split; [exact Hev|].
  apply Forall_forall. intros e He.
  rewrite Forall_forall in Hall.
  destruct (created_lead _ _ _ (Hall e He)) as [Hlead Hst]. auto.
Qed.

Lemma created_not_midnight d now e :
  validSchedules d ->
  now mod MS_PER_DAY <> 0 ->
  created (activeIn d now) now e ->
  scheduled_time e mod MS_PER_DAY <> 0.
Proof.
  intros Hvalid Hnow [u [slot [[Hu _] [Hslot [_ [_ [_ [Hsched [Hle _]]]]]]]]].
  specialize (Hvalid u Hu). rewrite Forall_forall in Hvalid.
  destruct (Hvalid slot Hslot) as [Hh Hm].
  rewrite Hsched in *. revert Hnow Hle.
  unfold setHours, startOfDay, MS_PER_DAY, MS_PER_MINUTE.
  intros Hnow Hle Hmid. Z.div_mod_to_equations. lia.
Qed.

(** X17: with valid schedules, the scan creates an event scheduled at
    midnight UTC only when it runs at the very millisecond of midnight: at
    23:59 the 00:00 time does not match (the comparison does not wrap
    around the day), and from 00:00:00.001 on it is past. *)
Theorem midnight_needs_exact_tick env now w :
  validSchedules (db w) ->
  now mod MS_PER_DAY <> 0 ->
  exists added,
    checkin_events (db (worldOf (Scheduler.handleScheduledCheckins env now w)))
    = checkin_events (db w) ++ added
    /\ Forall (fun e => scheduled_time e mod MS_PER_DAY <> 0) added.
Proof.
  intros Hvalid Hnow.
  destruct (scan_appends env now w) as [added [Hev Hall]].
  exists added. split; [exact Hev|].
  apply Forall_forall. intros e He. rewrite Forall_forall in Hall.
  apply (created_not_midnight (db w) now); auto.
Qed.

Lemma midnight_needs_exact_tick_witness :
  exists added,
    checkin_events
      (db (worldOf (Scheduler.handleScheduledCheckins demoEnv
                      (clock 23 59 30) carolOnly)))
    = checkin_events (db carolOnly) ++ added
    /\ Forall (fun e => scheduled_time e mod MS_PER_DAY <> 0) added.
Proof.
  apply (midnight_needs_exact_tick demoEnv (clock 23 59 30) carolOnly).
  - intros u [<-|[]]. repeat constructor; cbn; lia.
  - vm_compute. discriminate.
Defined.

(** Carol's midnight check-in is created by no tick of the minute before
    and by none of the minute after. *)
Example midnight_is_skipped :
  map (fun now =>
         checkin_events
           (db (worldOf (Scheduler.handleScheduledCheckins demoEnv now carolOnly))))
      [clock 23 59 0; clock 23 59 59; clock 24 0 1; clock 24 1 0]
  = [[]; []; []; []].
Proof. vm_compute. reflexivity. Qed.

(** ** A tick delivered twice *)

Lemma slotDue_events now user slot d d' :
  checkin_events d' = checkin_events d ->
  slotDue now user slot d' = slotDue now user slot d.
Proof.
  intros H. unfold slotDue, Scheduler.existingEvent. rewrite H. reflexivity.
Qed.

Lemma quiet_events now us d d' :
  checkin_events d' = checkin_events d -> quiet now us d -> quiet now us d'.
Proof.
  intros H Hq u slot Hu Hs. destruct (Hq u slot Hu Hs) as [Hv Hd].
  split; [exact Hv|]. rewrite (slotDue_events now u slot d d' H). exact Hd.
Qed.

#[export] Instance rests_preorder now us : PreOrder (rests now us).
Proof.
  split.
  - intros d _. reflexivity.
  - intros d1 d2 d3 H12 H23 Hq. rewrite H23, H12; auto.
    apply (quiet_events now us d1); auto.
Qed.

Lemma checkSlot_rests env now us user slot :
  In user us -> In slot (u_checkin_times user) ->
  keeps (rests now us) (Scheduler.checkSlot env now user slot).
Proof.
  intros Hu Hs w Hq. destruct (Hq user slot Hu Hs) as [Hv Hd].
  destruct (checkSlot_runs env now user slot w Hv) as [w' [-> Hev]].
  cbn [worldOf]. rewrite Hev, Hd. reflexivity.
Qed.

Lemma processUser_rests env now us user :
  In user us -> keeps (rests now us) (Scheduler.processUser env now user).
Proof.
  intros Hu. unfold Scheduler.processUser.
  apply keeps_try_catch; [exact _| |intros e; apply keeps_ret; exact _].
  apply keeps_forEach; [exact _|]. intros slot Hs.
  apply checkSlot_rests; assumption.
Qed.

(** A scan over a quiet store creates nothing. *)
Lemma scan_rests env now w :
  quiet now (filter (Scheduler.notPaused now) (users (db w))) (db w) ->
  checkin_events (db (worldOf (Scheduler.handleScheduledCheckins env now w)))
  = checkin_events (db w).
Proof.
  intros Hq.
  assert (H : keeps (rests now (filter (Scheduler.notPaused now) (users (db w))))
                (Scheduler.forEach (filter (Scheduler.notPaused now) (users (db w)))
                                   (Scheduler.processUser env now))).
  { apply keeps_forEach; [exact _|]. intros u Hu.
    apply processUser_rests. exact Hu. }
  exact (H w Hq).
Qed.

Lemma scan_users env now w :
  users (db (worldOf (Scheduler.handleScheduledCheckins env now w)))
  = users (db w).
Proof.
  assert (H : keeps (sameOn users) (Scheduler.handleScheduledCheckins env now)).
  { unfold Scheduler.handleScheduledCheckins. frame.
    apply keeps_forEach; [exact _|]. intros u _.
    unfold Scheduler.processUser. frame.
    apply keeps_forEach; [exact _|]. intros slot _.
    unfold Scheduler.checkSlot, Scheduler.createPendingEvent. cbv zeta.
    frame; reflexivity. }
  exact (H w).
Qed.

Lemma find_app_hit {Row} (keep : Row -> bool) (rows more : list Row) :
  find keep rows <> None -> find keep (rows ++ more) <> None.
Proof.
  induction rows as [|row rows IH]; cbn; [contradiction|].
  destruct (keep row); [discriminate|exact IH].
Qed.

Lemma target_exists now user slot d e :
  validSlot slot ->
  In e (checkin_events d) -> targetOf now user slot e ->
  Scheduler.existingEvent d now user slot <> None.
Proof.
  intros Hv Hin [Hu [_ [Hs _]]] Hnone. unfold Scheduler.existingEvent in Hnone.
  apply (find_none _ _ Hnone) in Hin. rewrite Hu, String.eqb_refl, Hs in Hin.
  pose proof (startOfDay_setHours now slot Hv) as Hday.
  apply Z.leb_le in Hday. rewrite Hday in Hin.
  unfold likeTimeOfDay in Hin. rewrite (toTimeString_setHours now slot Hv) in Hin.
  rewrite !Z.eqb_refl in Hin. discriminate.
Qed.

(** After a scan no time of an active user is due any more. *)
Lemma scan_settles env now w :
  NoDup (map u_user_id (users (db w))) ->
  validSchedules (db w) ->
  quiet now (filter (Scheduler.notPaused now) (users (db w)))
        (db (worldOf (Scheduler.handleScheduledCheckins env now w))).
Proof.
  intros Hnd Hvalid u slot Hu Hslot.
  pose proof Hu as Hact. apply filter_In in Hact. destruct Hact as [Hin Hact].
  pose proof (Hvalid u Hin) as Hvu.
  assert (Hv : validSlot slot) by (rewrite Forall_forall in Hvu; auto).
  split; [exact Hv|]. unfold slotDue.
  destruct (Scheduler.isTimeMatch (toTimeString now) slot) eqn:Hmatch;
    [|reflexivity].
  destruct (setHours now (hh slot) (mm slot) <? now) eqn:Hpast;
    [apply andb_false_r|].
  apply Z.ltb_ge in Hpast.
  assert (Hex : Scheduler.existingEvent
                  (db (worldOf (Scheduler.handleScheduledCheckins env now w)))
                  now u slot <> None).
  { destruct (Scheduler.existingEvent (db w) now u slot) as [e0|] eqn:Hbefore.
    - destruct (scan_appends env now w) as [added [Hev _]].
      unfold Scheduler.existingEvent in *. rewrite Hev.
      apply find_app_hit. rewrite Hbefore. discriminate.
    - destruct (users_loop env now u slot
                  (filter (Scheduler.notPaused now) (users (db w)))
                  (distinct_after_filter _ _ _ Hnd) Hu Hvu Hslot Hmatch Hpast w
                  (or_introl Hbefore)) as [e [He Ht]].
      apply (target_exists now u slot _ e Hv); [|exact Ht].
      unfold Scheduler.handleScheduledCheckins, bind, getDB. exact He. }
  destruct (Scheduler.existingEvent _ now u slot); [reflexivity|contradiction].
Qed.

(** X18: event creation is idempotent within a tick.  A second scheduler
    scan at the same instant, as when the cron trigger is delivered twice,
    creates no event and changes none (user ids distinct, schedules
    valid). *)
Theorem scan_twice_creates_once env env' now w :
  NoDup (map u_user_id (users (db w))) ->
  validSchedules (db w) ->
  checkin_events
    (db (worldOf (Scheduler.handleScheduledCheckins env' now
                    (worldOf (Scheduler.handleScheduledCheckins env now w)))))
  = checkin_events (db (worldOf (Scheduler.handleScheduledCheckins env now w))).
Proof.
  intros Hnd Hvalid. apply scan_rests. rewrite scan_users.
  apply scan_settles; assumption.
Qed.

Lemma scan_twice_creates_once_witness :
  checkin_events
    (db (worldOf (Scheduler.handleScheduledCheckins demoEnv (clock 8 59 30)
                    (worldOf (Scheduler.handleScheduledCheckins demoEnv
                                (clock 8 59 30) (storeWith [] [] []))))))
  = checkin_events
      (db (worldOf (Scheduler.handleScheduledCheckins demoEnv (clock 8 59 30)
                      (storeWith [] [] [])))).
Proof.
  apply (scan_twice_creates_once demoEnv demoEnv (clock 8 59 30)
           (storeWith [] [] [])).
  - repeat constructor. cbn. tauto.
  - intros u [<-|[]]. repeat constructor; cbn; lia.
Defined.

(** ** Phases of one tick *)

Lemma created_not_overdue d d' now e :
  (forall u, In u (users d) -> 0 <= u_grace_minutes u) ->
  created (activeIn d now) now e ->
  Scheduler.overdue d' now e = false.
Proof.
  intros Hgrace [u [slot [[Hu _] [_ [_ [_ [_ [_ [Hnow Hdl]]]]]]]]].
  specialize (Hgrace u Hu). unfold Scheduler.overdue.
  replace (deadline_time e <? now) with false; [rewrite andb_false_r; reflexivity|].
  symmetry. apply Z.ltb_ge. rewrite Hdl. lia.
Qed.

(** X19: the escalation phase of a tick never alerts an event that the
    scheduler phase of the same tick has just created: with no negative
    grace period, each event the scan adds is still in the table, pending
    and unchanged, after the escalation scan that follows it (event ids
    distinct after the scan). *)
Theorem new_event_survives_its_tick env now w e :
  NoDup (map event_id
           (checkin_events
              (db (worldOf (Scheduler.handleScheduledCheckins env now w))))) ->
  (forall u, In u (users (db w)) -> 0 <= u_grace_minutes u) ->
  In e (checkin_events
          (db (worldOf (Scheduler.handleScheduledCheckins env now w)))) ->
  ~ In e (checkin_events (db w)) ->
  status e = pending
  /\ In e (checkin_events
             (db (worldOf
                    (Scheduler.handleEscalations env now
                       (worldOf (Scheduler.handleScheduledCheckins env now w)))))).
Proof.
  intros Hnd Hgrace Hin Hnew.
  destruct (scan_appends env now w) as [added [Hev Hall]].
  rewrite Hev in Hin. apply in_app_or in Hin. destruct Hin as [Hin|Hin];
    [contradiction|].
  rewrite Forall_forall in Hall. specialize (Hall e Hin).
  split; [apply (created_lead _ _ _ Hall)|].
  set (w1 := worldOf (Scheduler.handleScheduledCheckins env now w)) in *.
  assert (Hin1 : In e (checkin_events (db w1)))
    by (rewrite Hev; apply in_or_app; right; exact Hin).
  pose proof (row_after_scan env now w1 e Hnd Hin1) as Hrow.
  unfold escalatedRow in Hrow.
  rewrite (created_not_overdue (db w) (db w1) now e Hgrace Hall) in Hrow.
  exact Hrow.
Qed.

Lemma new_event_survives_its_tick_witness :
  status (slotEvent demoEnv (clock 8 59 30) alice nine (storeWith [] [] []))
  = pending
  /\ In (slotEvent demoEnv (clock 8 59 30) alice nine (storeWith [] [] []))
        (checkin_events
           (db (worldOf
                  (Scheduler.handleEscalations demoEnv (clock 8 59 30)
                     (worldOf (Scheduler.handleScheduledCheckins demoEnv
                                 (clock 8 59 30) (storeWith [] [] []))))))).
Proof.
  apply (new_event_survives_its_tick demoEnv (clock 8 59 30)
           (storeWith [] [] [])
           (slotEvent demoEnv (clock 8 59 30) alice nine (storeWith [] [] []))).
  - repeat constructor. cbn. tauto.
  - intros u [<-|[]]. cbn. lia.
  - left. reflexivity.
  - cbn. tauto.
Defined.

(** ** Escalation with SMS alerts switched off *)

(** X20: for a user with SMS alerts disabled an escalation still marks the
    event alerted and writes the audit entry, reports zero contacts
    notified and an empty delivery list, and writes no delivery row at
    all, so contacts with the app get no push alert either. *)
Theorem sms_off_notifies_nobody env now eventId w event u :
  Scheduler.findEventWithUser (db w) eventId = Some (event, u) ->
  u_sms_alerts_enabled u = 0 ->
  exists w',
    Scheduler.triggerEscalation env now eventId w
    = Returned {| Scheduler.r_event_id := eventId;
                  Scheduler.contacts_notified := 0;
                  Scheduler.deliveries := [] |} w'
    /\ checkin_events (db w')
       = map (alertRow now eventId) (checkin_events (db w))
    /\ alert_deliveries (db w') = alert_deliveries (db w)
    /\ map event_type (event_logs (db w'))
       = map event_type (event_logs (db w)) ++ ["checkin_escalated"%string].
Proof.
  intros Hfind Hoff. rewrite triggerEscalation_unfold, Hfind.
  unfold Scheduler.alertContacts. rewrite Hoff. run.
  eexists. split; [reflexivity|]. cbn.
  repeat split. rewrite map_app. reflexivity.
Qed.

Lemma sms_off_notifies_nobody_witness :
  exists w',
    Scheduler.triggerEscalation demoEnv (clock 9 11 0) "e1" mutedAlice
    = Returned {| Scheduler.r_event_id := "e1";
                  Scheduler.contacts_notified := 0;
                  Scheduler.deliveries := [] |} w'
    /\ checkin_events (db w')
       = map (alertRow (clock 9 11 0) "e1") (checkin_events (db mutedAlice))
    /\ alert_deliveries (db w') = alert_deliveries (db mutedAlice)
    /\ map event_type (event_logs (db w'))
       = map event_type (event_logs (db mutedAlice))
         ++ ["checkin_escalated"%string].
Proof.
  apply (sms_off_notifies_nobody demoEnv (clock 9 11 0) "e1" mutedAlice
           (nineOClock pending None 0) muted).
  - reflexivity.
  - reflexivity.
Defined.

(** ** The hex coding of ciphertexts and tokens *)

Lemma concat_cons (s : string) (l : list string) :
  String.concat EmptyString (s :: l)
  = (s ++ String.concat EmptyString l)%string.
Proof.
  destruct l as [|s' l]; cbn [String.concat].
  - induction s as [|c s IH]; cbn; [reflexivity|]. rewrite <- IH. reflexivity.
  - reflexivity.
Qed.

Lemma byte_coded (b : Byte.byte) :
  exists c1 c2,
    Crypto.padStart2 (Crypto.toString16 (Byte.to_N b))
    = String c1 (String c2 EmptyString)
    /\ Crypto.parseInt16 (String c1 (String c2 EmptyString))
       = Some (Byte.to_N b)
    /\ Crypto.toUint8 (Byte.to_N b) = b.
Proof. destruct b; do 2 eexists; repeat split. Qed.

Lemma bytesToHex_cons b bs :
  exists c1 c2,
    Crypto.bytesToHex (b :: bs) = String c1 (String c2 (Crypto.bytesToHex bs))
    /\ Crypto.parseInt16 (String c1 (String c2 EmptyString))
       = Some (Byte.to_N b).
Proof.
  destruct (byte_coded b) as [c1 [c2 [Hcode [Hparse _]]]].
  exists c1, c2. split; [|exact Hparse].
  unfold Crypto.bytesToHex. cbn [map]. rewrite concat_cons, Hcode. reflexivity.
Qed.

Lemma bytesToHex_parsed bs :
  map Crypto.parseInt16 (Crypto.substr2 (Crypto.bytesToHex bs))
  = map (fun b => Some (Byte.to_N b)) bs
  /\ String.length (Crypto.bytesToHex bs) = (2 * List.length bs)%nat.
Proof.
  induction bs as [|b bs [IH Hlen]]; [split; reflexivity|].
  destruct (bytesToHex_cons b bs) as [c1 [c2 [-> Hparse]]].
  cbn [Crypto.substr2 map String.length List.length].
  rewrite Hparse, IH, Hlen. split; [reflexivity|lia].
Qed.

Lemma allSome_map {A B} (f : A -> B) (l : list A) :
  Crypto.allSome (map (fun a => Some (f a)) l) = Some (map f l).
Proof.
  induction l as [|a l IH]; cbn; [reflexivity|]. rewrite IH. reflexivity.
Qed.

(** X21: the hex coding used for stored ciphertexts and for auth tokens
    loses nothing: [hexToBytes] gives back every byte array that
    [bytesToHex] wrote, and the text has two characters per byte (so a
    32-byte token is 64 characters long). *)
Theorem hex_round_trip (bytes : list Byte.byte) :
  Crypto.hexToBytes (Crypto.bytesToHex bytes) = Some bytes
  /\ String.length (Crypto.bytesToHex bytes) = (2 * List.length bytes)%nat.
Proof.
  destruct (bytesToHex_parsed bytes) as [Hparsed Hlen]. split; [|exact Hlen].
  unfold Crypto.hexToBytes. rewrite Hparsed, allSome_map, Hlen. cbn [option_map].
  f_equal. rewrite Nat.mul_comm, Nat.div_mul by discriminate.
  rewrite map_map.
  replace (map (fun b => Crypto.toUint8 (Byte.to_N b)) bytes) with bytes.
  - apply firstn_all.
  - symmetry. apply unchanged_rows. intros b.
    destruct (byte_coded b) as [_ [_ [_ [_ H]]]]. exact H.
Qed.

(** The bytes 0, 10, 171 and 255 and their text. *)
Example hex_sample :
  Crypto.bytesToHex [Byte.x00; Byte.x0a; Byte.xab; Byte.xff] = "000aabff"%string
  /\ Crypto.hexToBytes "000AABFF"
     = Some [Byte.x00; Byte.x0a; Byte.xab; Byte.xff]
  /\ Crypto.hexToBytes "0a1" = Some [Byte.x0a].
Proof. repeat split. Qed.

(** ** Requests and the events of other users *)

Lemma confirm_twice_witness :
  exists r,
    Checkin.confirm demoEnv (clock 9 6 0) alice confirmE1
      (worldOf (Checkin.confirm demoEnv (clock 9 5 0) alice lateConfirm
                  (storeWith [nineOClock pending None 0] [] [])))
    = Returned (Json r)
        (worldOf (Checkin.confirm demoEnv (clock 9 5 0) alice lateConfirm
                    (storeWith [nineOClock pending None 0] [] [])))
    /\ Checkin.r_confirmed_at r = Some (confirmedAtOf lateConfirm (clock 9 5 0))
    /\ Checkin.r_event_id r = event_id (nineOClock pending None 0).
Proof.
  apply (confirm_twice demoEnv (clock 9 5 0) (clock 9 6 0) alice lateConfirm
           confirmE1 (storeWith [nineOClock pending None 0] [] [])
           (nineOClock pending None 0) "e1"%string).
  - reflexivity.
  - reflexivity.
  - reflexivity.
  - discriminate.
Defined.

Lemma findEvent_own d user body event :
  Checkin.findEvent d user body = Some event ->
  In event (checkin_events d) /\ user_id event = u_user_id user.
Proof.
  unfold Checkin.findEvent.
  destruct (truthy (Checkin.cr_event_id body)) as [id|].
  - intros H. apply find_some in H. destruct H as [Hin Hp].
    apply andb_prop in Hp. destruct Hp as [_ Hu].
    apply String.eqb_eq in Hu. auto.
  - destruct (Checkin.cr_scheduled_at body) as [at_|].
    + intros H. apply find_some in H. destruct H as [Hin Hp].
      apply andb_prop in Hp. destruct Hp as [Hu _].
      apply String.eqb_eq in Hu. auto.
    + intros H.
      pose proof (mostRecent_latest (openEventsOf user d)) as Hlatest.
      unfold openEventsOf in Hlatest. rewrite H in Hlatest.
      destruct Hlatest as [Hin _]. apply filter_In in Hin.
      destruct Hin as [Hin Hp]. apply andb_prop in Hp. destruct Hp as [Hu _].
      apply String.eqb_eq in Hu. auto.
Qed.

Lemma other_row_kept (f : CheckinEvent -> CheckinEvent) l event e :
  NoDup (map event_id l) ->
  In event l -> In e l -> user_id e <> user_id event ->
  In e (map (fun x => if (event_id x =? event_id event)%string then f x else x) l).
Proof.
  intros Hnd Hevent He Hne. apply in_map_iff. exists e. split; [|exact He].
  destruct (event_id e =? event_id event)%string eqn:E; [|reflexivity].
  apply String.eqb_eq in E.
  rewrite (NoDup_map_eq event_id l e event Hnd He Hevent E) in Hne.
  contradiction.
Qed.

(** X22: a request changes only events of the user who makes it.  Whatever
    the body, a confirm, a snooze or a pause of one user leaves every event
    of every other user in the table exactly as it was; in particular,
    confirming or snoozing with the id of somebody else's event does not
    touch that event (event ids distinct). *)
Theorem requests_touch_own_events_only env now user w e :
  NoDup (map event_id (checkin_events (db w))) ->
  In e (checkin_events (db w)) ->
  user_id e <> u_user_id user ->
  (forall body,
      In e (checkin_events (db (worldOf (Checkin.confirm env now user body w)))))
  /\ (forall body,
         In e (checkin_events (db (worldOf (Checkin.snooze env now user body w)))))
  /\ (forall body,
         In e (checkin_events (db (worldOf (Settings.pause env now user body w))))).
Proof.
  intros Hnd He Hne. repeat apply conj; intros body.
  - destruct (Checkin.findEvent (db w) user body) as [event|] eqn:Hfind.
    + destruct (findEvent_own _ _ _ _ Hfind) as [Hin Hu].
      destruct (CheckinStatus_eqb (status event) confirmed) eqn:Hst.
      * rewrite (confirm_found_confirmed env now user body w event Hfind)
          by (destruct (status event); try discriminate; reflexivity).
        exact He.
      * destruct (confirm_found_open env now user body w event Hfind)
          as [msg ->]; [intros E; rewrite E in Hst; discriminate|].
        cbn [worldOf]. unfold confirmedWorld.
        cbn [db checkin_events withLogs withEvents].
        apply other_row_kept; auto. rewrite Hu. exact Hne.
    + rewrite (confirm_not_found env now user body w Hfind).
      destruct (slotTaken (db w) now user body); cbn [worldOf db]; [exact He|].
      unfold synthesizedWorld. cbn [db checkin_events withLogs withEvents].
      apply in_or_app. left. exact He.
  - destruct (snoozable (Checkin.snoozeMinutesOf body) (db w) user body)
      as [event|] eqn:Hsn.
    + rewrite (snooze_accepted env now user body w event Hsn). cbn [worldOf].
      unfold snoozedWorld. cbn [db checkin_events withLogs withEvents].
      destruct (snoozable_open _ _ _ _ _ Hsn) as [Hin _].
      pose proof (snoozable_own _ _ _ _ _ Hsn) as Hown.
      unfold findOwn in Hown. apply find_some in Hown.
      destruct Hown as [_ Hp]. apply andb_prop in Hp. destruct Hp as [_ Hu].
      apply String.eqb_eq in Hu.
      apply other_row_kept; auto. rewrite Hu. exact Hne.
    + destruct (snooze_rejected env now user body w Hsn) as [code [err ->]].
      exact He.
  - destruct body as [[text|]].
    + destruct (accepted env now text) eqn:Hacc.
      * rewrite (pause_sets env now user text w Hacc).
        cbn [worldOf]. unfold pausedWorld. cbn [db checkin_events].
        apply in_map_iff. exists e. split; [|exact He].
        unfold pauseRow. apply String.eqb_neq in Hne. rewrite Hne. reflexivity.
      * unfold accepted in Hacc. destruct text as [|c rest]; [exact He|].
        unfold Settings.pause, Settings.validatePause, try_catch.
        cbn [Settings.pause_until truthy].
        destruct (parseDate env (String c rest)) as [p|]; [|exact He].
        assert (Hle : (p <=? now) = true) by lia. rewrite Hle. exact He.
    + rewrite resume_sets. exact He.
Qed.

Lemma requests_touch_own_events_only_witness :
  (forall body,
      In bobsNine
         (checkin_events
            (db (worldOf (Checkin.confirm demoEnv (clock 9 5 0) alice body
                            twoUsers)))))
  /\ (forall body,
         In bobsNine
            (checkin_events
               (db (worldOf (Checkin.snooze demoEnv (clock 9 5 0) alice body
                               twoUsers)))))
  /\ (forall body,
         In bobsNine
            (checkin_events
               (db (worldOf (Settings.pause demoEnv (clock 9 5 0) alice body
                               twoUsers))))).
Proof.
  apply (requests_touch_own_events_only demoEnv (clock 9 5 0) alice twoUsers
           bobsNine).
  - repeat constructor; cbn; intuition discriminate.
  - right. left. reflexivity.
  - discriminate.
Defined.

(** ** An escalation scan delivered twice *)

Lemma overdue_users d d' now e :
  users d' = users d -> Scheduler.overdue d' now e = Scheduler.overdue d now e.
Proof. intros H. unfold Scheduler.overdue. rewrite H. reflexivity. Qed.

Lemma handleEscalations_ids env now w :
  NoDup (map event_id (checkin_events (db w))) ->
  NoDup (map event_id
           (checkin_events (db (worldOf (Scheduler.handleEscalations env now w))))).
Proof.
  intros Hnd.
  destruct (handleEscalations_exact env now w Hnd) as [w1 [-> [_ Hev]]].
  cbn [worldOf]. rewrite Hev, map_map.
  replace (map (fun e => event_id (escalatedRow (db w) now e))
               (checkin_events (db w)))
    with (map event_id (checkin_events (db w))); [exact Hnd|].
  apply map_ext. intros e. unfold escalatedRow.
  destruct (Scheduler.overdue (db w) now e); reflexivity.
Qed.

(** X23: an event is alerted once.  An escalation scan repeated at the same
    instant, as when the cron trigger is delivered twice, does nothing at
    all: it selects no event, sends no message and writes no row.  And a
    scan at any other time leaves every event that the first scan alerted
    as that scan left it (event ids distinct). *)
Theorem escalation_scan_is_idempotent env env' now w :
  NoDup (map event_id (checkin_events (db w))) ->
  Scheduler.handleEscalations env' now
    (worldOf (Scheduler.handleEscalations env now w))
  = Returned tt (worldOf (Scheduler.handleEscalations env now w))
  /\ forall now' e,
       In e (checkin_events (db w)) ->
       Scheduler.overdue (db w) now e = true ->
       In (Scheduler.setAlerted now e)
          (checkin_events
             (db (worldOf
                    (Scheduler.handleEscalations env' now'
                       (worldOf (Scheduler.handleEscalations env now w)))))).
Proof.
  intros Hnd. pose proof (handleEscalations_ids env now w Hnd) as Hnd1.
  revert Hnd1.
  destruct (handleEscalations_exact env now w Hnd) as [w1 [-> [Hu Hev]]].
  cbn [worldOf]. intros Hnd1. split.
  - unfold Scheduler.handleEscalations, bind, getDB.
    rewrite none_pass; [reflexivity|].
    intros row Hrow. rewrite Hev in Hrow. apply in_map_iff in Hrow.
    destruct Hrow as [e [<- _]]. rewrite (overdue_users (db w) (db w1) now _ Hu).
    unfold escalatedRow. destruct (Scheduler.overdue (db w) now e) eqn:Hover.
    + reflexivity.
    + exact Hover.
  - intros now' e He Hover.
    assert (Hrow : In (Scheduler.setAlerted now e) (checkin_events (db w1))).
    { rewrite Hev. apply in_map_iff. exists e. split; [|exact He].
      unfold escalatedRow. rewrite Hover. reflexivity. }
    exact (row_after_scan env' now' w1 _ Hnd1 Hrow).
Qed.

Lemma escalation_scan_is_idempotent_witness :
  Scheduler.handleEscalations demoEnv (clock 9 11 0)
    (worldOf (Scheduler.handleEscalations demoEnv (clock 9 11 0) threeContacts))
  = Returned tt
      (worldOf (Scheduler.handleEscalations demoEnv (clock 9 11 0) threeContacts))
  /\ forall now' e,
       In e (checkin_events (db threeContacts)) ->
       Scheduler.overdue (db threeContacts) (clock 9 11 0) e = true ->
       In (Scheduler.setAlerted (clock 9 11 0) e)
          (checkin_events
             (db (worldOf
                    (Scheduler.handleEscalations demoEnv now'
                       (worldOf (Scheduler.handleEscalations demoEnv
                                   (clock 9 11 0) threeContacts)))))).
Proof.
  apply (escalation_scan_is_idempotent demoEnv demoEnv (clock 9 11 0)
           threeContacts).
  repeat constructor. cbn. tauto.
Defined.

(** ** The audit log *)

#[export] Instance logsGrow_preorder : PreOrder logsGrow.
Proof.
  split.
  - intros d. exists []. symmetry. apply app_nil_r.
  - intros d1 d2 d3 [a Ha] [b Hb]. exists (a ++ b).
    rewrite Hb, Ha, app_assoc. reflexivity.
Qed.

Lemma logEvent_grows env userId eventId eventType eventTime res :
  keeps logsGrow (logEvent env userId eventId eventType eventTime res).
Proof. intros w. eexists. reflexivity. Qed.

Ltac logs_same := intros; exists (@nil EventLog); symmetry; apply app_nil_r.

Ltac grow_step :=
  cbv zeta;
  lazymatch goal with
  | |- keeps _ (logEvent _ _ _ _ _ _) => apply logEvent_grows
  | |- keeps _ (Settings.updateUsers _ _) =>
      unfold Settings.updateUsers; apply keeps_putDB_after
  | |- keeps _ (Scheduler.forEach _ _) =>
      apply keeps_forEach; [exact _ | intros ? _]
  | |- keeps _ (Scheduler.processUser _ _ _) => unfold Scheduler.processUser
  | |- keeps _ (Scheduler.checkSlot _ _ _ _) => unfold Scheduler.checkSlot
  | |- keeps _ (Scheduler.createPendingEvent _ _ _ _) =>
      unfold Scheduler.createPendingEvent
  | |- keeps _ (match ?x with
                | pending => _ | confirmed => _ | missed => _
                | snoozed => _ | alerted => _ | paused => _
                end) => destruct x
  | |- keeps _ (match ?x with nil => _ | cons _ _ => _ end) => destruct x
  | |- keeps _ _ => frame_step
  | |- _ => logs_same
  end.

Ltac grow := repeat grow_step.

Lemma confirm_grows env now user body :
  keeps logsGrow (Checkin.confirm env now user body).
Proof. unfold Checkin.confirm. grow. Qed.

Lemma snooze_grows env now user body :
  keeps logsGrow (Checkin.snooze env now user body).
Proof. unfold Checkin.snooze. grow. Qed.

Lemma pause_grows env now user body :
  keeps logsGrow (Settings.pause env now user body).
Proof. unfold Settings.pause. grow. Qed.

Lemma scan_grows env now :
  keeps logsGrow (Scheduler.handleScheduledCheckins env now).
Proof. unfold Scheduler.handleScheduledCheckins. grow. Qed.

Lemma alertContacts_grows env now eventId event u :
  keeps logsGrow (Scheduler.alertContacts env now eventId event u).
Proof.
  unfold Scheduler.alertContacts.
  repeat lazymatch goal with
         | |- keeps _ (bind (Scheduler.notifyContacts _ _ _ _ _ _) _) =>
             apply keeps_bind;
             [exact _
             |apply (notifyContacts_keeps logsGrow eventId (fun _ => True));
              [logs_same | logs_same
              |apply Forall_forall; intros; exact I]
             |intros ?]
         | |- _ => grow_step
         end.
Qed.

Lemma triggerEscalation_grows env now id :
  keeps logsGrow (Scheduler.triggerEscalation env now id).
Proof.
  intros w. rewrite triggerEscalation_unfold.
  destruct (Scheduler.findEventWithUser (db w) id) as [[event u]|].
  - exact (alertContacts_grows env now id event u _).
  - reflexivity.
Qed.

Lemma escalations_grow env now :
  keeps logsGrow (Scheduler.handleEscalations env now).
Proof.
  unfold Scheduler.handleEscalations.
  apply keeps_bind; [exact _|apply keeps_getDB; exact _|intros d].
  apply keeps_forEach; [exact _|]. intros x _. unfold Scheduler.escalateOne.
  apply keeps_try_catch; [exact _| |intros e; apply keeps_ret; exact _].
  apply keeps_bind; [exact _|apply triggerEscalation_grows|].
  intros r. apply keeps_ret. exact _.
Qed.

(** X25: the audit log is append-only.  Whatever the request and whatever
    the collaborators do, confirm, snooze, pause and resume, the schedule
    update, the scheduler scan, the escalation scan, a direct
    [triggerEscalation] and the retry pass never remove or rewrite an entry
    of [event_logs]: the log afterwards is the log before, followed by the
    new entries; the retry pass and the schedule update add none. *)
Theorem audit_log_only_grows env now w :
  (forall user body,
      logsGrow (db w) (db (worldOf (Checkin.confirm env now user body w))))
  /\ (forall user body,
         logsGrow (db w) (db (worldOf (Checkin.snooze env now user body w))))
  /\ (forall user body,
         logsGrow (db w) (db (worldOf (Settings.pause env now user body w))))
  /\ (forall user body,
         event_logs (db (worldOf (Settings.schedule user body w)))
         = event_logs (db w))
  /\ logsGrow (db w) (db (worldOf (Scheduler.handleScheduledCheckins env now w)))
  /\ logsGrow (db w) (db (worldOf (Scheduler.handleEscalations env now w)))
  /\ (forall id,
         logsGrow (db w) (db (worldOf (Scheduler.triggerEscalation env now id w))))
  /\ event_logs (db (worldOf (Scheduler.handleRetries env now w)))
     = event_logs (db w).
Proof.
  repeat apply conj.
  - intros user body. apply confirm_grows.
  - intros user body. apply snooze_grows.
  - intros user body. apply pause_grows.
  - intros user body. rewrite schedule_runs.
    destruct (acceptable body); reflexivity.
  - apply scan_grows.
  - apply escalations_grow.
  - intros id. apply triggerEscalation_grows.
  - rewrite handleRetries_loop. reflexivity.
Qed.

(** ** A message the provider never accepts *)

(** The SMS of the 09:11 escalation is rejected; the retry manager tries
    again at 09:12, 09:14 and 09:18, one, two and four minutes after the
    attempt before, and then gives the delivery up: a pass an hour later
    finds nothing to do. *)
Example rejected_message_trace :
  map (fun w => map (fun x => (d_status x, retry_count x, next_retry_at x))
                    (alert_deliveries (db w)))
      [rejectedAt911;
       retriedAt [clock 9 11 30];
       retriedAt [clock 9 12 0];
       retriedAt [clock 9 12 0; clock 9 14 0];
       retriedAt [clock 9 12 0; clock 9 14 0; clock 9 18 0];
       retriedAt [clock 9 12 0; clock 9 14 0; clock 9 18 0; clock 10 18 0]]
  = [[(d_failed, 0%nat, Some (clock 9 12 0))];
     [(d_failed, 0%nat, Some (clock 9 12 0))];
     [(d_failed, 1%nat, Some (clock 9 14 0))];
     [(d_failed, 2%nat, Some (clock 9 18 0))];
     [(d_failed, 3%nat, None)];
     [(d_failed, 3%nat, None)]].
Proof. vm_compute. reflexivity. Qed.

(** ** The reminder push *)

Lemma forEach_ext {A} (l : list A) (f g : A -> Eff unit) :
  (forall x w, f x w = g x w) ->
  forall w, Scheduler.forEach l f w = Scheduler.forEach l g w.
Proof.
  intros H. induction l as [|x l IH]; intros w; [reflexivity|].
  cbn [Scheduler.forEach]. unfold bind. rewrite H.
  destruct (g x w); [apply IH|reflexivity].
Qed.

Lemma createPendingEvent_push env env' now user slot w :
  randomUUID env' = randomUUID env ->
  Scheduler.createPendingEvent env' now user slot w
  = Scheduler.createPendingEvent env now user slot w.
Proof.
  intros H. unfold Scheduler.createPendingEvent, logEvent, generateUUID, bind.
  rewrite H. destruct (setHours now (hh slot) (mm slot) <? now); [reflexivity|].
  destruct (insertEvent _ _) as [[] w1|e w1]; [|reflexivity].
  destruct (truthy (u_apns_token user)); [|reflexivity].
  unfold try_catch.
  destruct (sendCheckinReminder env' user), (sendCheckinReminder env user);
    reflexivity.
Qed.

(** X26: the reminder push cannot get in the way of event creation.  Two
    runs of the scheduler scan that differ only in what the push sender,
    decryption and the SMS provider do (they draw the same UUIDs) return
    the same result and leave the same store: a push that fails or throws
    loses no event and no audit entry. *)
Theorem reminder_failure_is_harmless env env' now w :
  randomUUID env' = randomUUID env ->
  Scheduler.handleScheduledCheckins env' now w
  = Scheduler.handleScheduledCheckins env now w.
Proof.
  intros H. unfold Scheduler.handleScheduledCheckins, bind, getDB.
  apply forEach_ext. intros u w1. unfold Scheduler.processUser, try_catch.
  rewrite (forEach_ext (u_checkin_times u)
             (Scheduler.checkSlot env' now u) (Scheduler.checkSlot env now u));
    [reflexivity|].
  intros slot w2. unfold Scheduler.checkSlot, bind, getDB.
  destruct (Scheduler.isTimeMatch _ slot); [|reflexivity].
  destruct (Scheduler.existingEvent _ now u slot); [reflexivity|].
  apply createPendingEvent_push. exact H.
Qed.

Lemma reminder_failure_is_harmless_witness :
  Scheduler.handleScheduledCheckins nothingWorks (clock 8 59 30) aliceWithPhone
  = Scheduler.handleScheduledCheckins demoEnv (clock 8 59 30) aliceWithPhone.
Proof.
  apply (reminder_failure_is_harmless demoEnv nothingWorks (clock 8 59 30)
           aliceWithPhone).
  reflexivity.
Defined.

(** ** Escalation and retry in one tick *)

#[export] Instance writesWait_preorder now : PreOrder (writesWait now).
Proof.
  split.
  - intros d y Hy. left. exact Hy.
  - intros d1 d2 d3 H12 H23 y Hy.
    destruct (H23 y Hy) as [H|H]; [apply H12; exact H|right; exact H].
Qed.

Ltac rows_wait :=
  let y := fresh "y" in
  let Hy := fresh "Hy" in
  intros; intros y Hy; cbn in Hy;
  first
    [ left; exact Hy
    | apply in_app_or in Hy; destruct Hy as [Hy|[<-|[]]];
      [left; exact Hy|right; left; left; discriminate]
    | apply in_map_iff in Hy;
      let x := fresh "x" in
      let Hx := fresh "Hx" in
      destruct Hy as [x [<- Hx]];
      destruct (delivery_id x =? _)%string; [right|left; exact Hx] ].

Ltac wait_step :=
  cbv zeta;
  lazymatch goal with
  | |- keeps _ (Scheduler.pushAlert _ _ _ _) => unfold Scheduler.pushAlert
  | |- keeps _ (logEvent _ _ _ _ _ _) => apply keeps_logEvent
  | |- keeps _ (match ?x with nil => _ | cons _ _ => _ end) => destruct x
  | |- keeps _ _ => frame_step
  | |- _ => rows_wait
  end.

Lemma notifyContact_waits env now eventId message contact acc :
  keeps (writesWait now)
        (Scheduler.notifyContact env now eventId message contact acc).
Proof.
  unfold Scheduler.notifyContact. repeat wait_step.
  - left. left. discriminate.
  - right. exists (Twilio.calculateNextRetry now 0). split; [reflexivity|].
    apply calculateNextRetry_later.
Qed.

Lemma notifyContacts_wait env now eventId message (cs : list Contact) :
  forall acc,
    keeps (writesWait now)
          (Scheduler.notifyContacts env now eventId message cs acc).
Proof.
  induction cs as [|contact cs IH]; intros acc; cbn [Scheduler.notifyContacts].
  - apply keeps_ret. exact _.
  - apply keeps_bind; [exact _| |intros acc'; apply IH].
    apply keeps_try_catch; [exact _|apply notifyContact_waits|].
    intros e. apply keeps_ret. exact _.
Qed.

Lemma alertContacts_waits env now eventId event u :
  keeps (writesWait now) (Scheduler.alertContacts env now eventId event u).
Proof.
  unfold Scheduler.alertContacts.
  repeat lazymatch goal with
         | |- keeps _ (bind (Scheduler.notifyContacts _ _ _ _ _ _) _) =>
             apply keeps_bind; [exact _|apply notifyContacts_wait|intros ?]
         | |- _ => wait_step
         end.
Qed.

Lemma triggerEscalation_waits env now id :
  keeps (writesWait now) (Scheduler.triggerEscalation env now id).
Proof.
  intros w. rewrite triggerEscalation_unfold.
  destruct (Scheduler.findEventWithUser (db w) id) as [[event u]|].
  - exact (alertContacts_waits env now id event u _).
  - reflexivity.
Qed.

Lemma escalations_wait env now :
  keeps (writesWait now) (Scheduler.handleEscalations env now).
Proof.
  unfold Scheduler.handleEscalations.
  apply keeps_bind; [exact _|apply keeps_getDB; exact _|intros d].
  apply keeps_forEach; [exact _|]. intros x _. unfold Scheduler.escalateOne.
  apply keeps_try_catch; [exact _| |intros e; apply keeps_ret; exact _].
  apply keeps_bind; [exact _|apply triggerEscalation_waits|].
  intros r. apply keeps_ret. exact _.
Qed.

(** X27: the retry phase of a tick leaves alone what the escalation phase
    of the same tick has just written: a message just sent is not sent
    again, and a message that just failed is not retried before the next
    minute.  Every delivery row that the escalation scan at [now] added or
    rewrote is still there, unchanged, after the retry pass at [now]
    (delivery ids distinct after the scan). *)
Theorem fresh_delivery_waits_a_tick env env' now w y :
  NoDup (deliveryIds (db (worldOf (Scheduler.handleEscalations env now w)))) ->
  In y (alert_deliveries (db (worldOf (Scheduler.handleEscalations env now w)))) ->
  ~ In y (alert_deliveries (db w)) ->
  In y (alert_deliveries
          (db (worldOf
                 (Scheduler.handleRetries env' now
                    (worldOf (Scheduler.handleEscalations env now w)))))).
Proof.
  intros Hnd Hy Hnew.
  destruct (escalations_wait env now w y Hy) as [Hold|Hwait]; [contradiction|].
  rewrite (handleRetries_rows env' now _ Hnd).
  cbn [worldOf db alert_deliveries withDeliveries].
  apply in_map_iff. exists y. split; [|exact Hy].
  apply notYetDue_spec in Hwait. unfold retried. rewrite Hwait. reflexivity.
Qed.

Lemma fresh_delivery_waits_a_tick_witness :
  In (Scheduler.setFailed smsRejected (clock 9 12 0) (clock 9 11 0)
        (Scheduler.newDelivery "1-uuid" "e1" "c1" sms d_pending None
           (clock 9 11 0)))
     (alert_deliveries
        (db (worldOf
               (Scheduler.handleRetries demoEnv (clock 9 11 0) rejectedAt911)))).
Proof.
  apply (fresh_delivery_waits_a_tick failingEnv demoEnv (clock 9 11 0)
           (storeWith [nineOClock pending None 0]
                      [contactOf "c1" "+15550001" 1] [])).
  - repeat constructor. cbn. tauto.
  - left. reflexivity.
  - cbn. tauto.
Defined.
